(** * Traffic-light intersection predictor: a shallow embedding

    Source: [lyft_trajectories/model/tl_light_predictor_intersection.py].

    The development has three parts.  Part I transcribes the program:
    event table and derived columns, vocabulary, the dataset's
    [__getitem__], the valid-window selector, the data loader, the
    gradient hook, the Weibull decoders and the per-batch masked
    losses.  Part II states and proves the properties of the
    specification over those definitions; Part III proves further
    properties of the program.

    Conventions of the embedding.
    - Python integers are [Z]; positions in a table are [Z] because the
      program lets them become negative ([last_valid_idx]).
    - A pandas column is a [list]; a data frame is a list of [row]
      records, one field per column.
    - A Python exception is a [Raise] result of the [py] monad.
    - Python/NumPy/torch floats are idealised: exact rationals ([Q])
      where the program only adds, multiplies, divides and compares,
      with the non-finite values [NaN], [+inf], [-inf] made explicit
      where the program tests for them, and real numbers ([R]) where
      it calls [log] and [pow].  Rounding, overflow and underflow are
      not modelled: a statement over [Q] or [R] is a statement about
      the formulas the program evaluates, not about their float32
      values. *)

From Stdlib Require Import ZArith QArith Qabs Reals Lra Lia List Bool.
From stdpp Require Import gmap strings list fin_maps vector.

Close Scope Q_scope.
Close Scope R_scope.
Open Scope Z_scope.

(* ===================================================================== *)
(** * Part I.  The program *)
(* ===================================================================== *)

(** ** Python results *)

Inductive exn : Type :=
| IndexError
| KeyError
| ValueError
| ZeroDivisionError.

(** [Diverge] is only produced by a loop that has used up its fuel. *)
Inductive py (A : Type) : Type :=
| Ok (a : A)
| Raise (e : exn)
| Diverge.

Arguments Ok {A} a.
Arguments Raise {A} e.
Arguments Diverge {A}.

Definition py_bind {A B : Type} (m : py A) (k : A -> py B) : py B :=
  match m with
  | Ok a => k a
  | Raise e => Raise e
  | Diverge => Diverge
  end.

Notation "'do' x <~ m ; k" := (py_bind m (fun x => k))
  (at level 10, x pattern, m at level 100, k at level 200).

(** Sequencing a list of results, left to right. *)
Fixpoint py_mapM {A B : Type} (f : A -> py B) (l : list A) : py (list B) :=
  match l with
  | [] => Ok []
  | a :: l' => do b <~ f a; do bs <~ py_mapM f l'; Ok (b :: bs)
  end.

(** [len(x)] *)
Definition len {A : Type} (l : list A) : Z := Z.of_nat (length l).

(** [range(n)] as positions. *)
Definition range (n : Z) : list Z := map Z.of_nat (seq 0 (Z.to_nat n)).

(** Positional scalar access [s.iloc[i]] (also NumPy's [a[i]]): a negative
    position counts from the end, anything outside [-n, n) raises. *)
Definition iloc {A : Type} (s : list A) (i : Z) : py A :=
  let n := len s in
  let j := if i <? 0 then n + i else i in
  if (0 <=? j) && (j <? n)
  then match s !! Z.to_nat j with
       | Some a => Ok a
       | None => Raise IndexError
       end
  else Raise IndexError.

(** One bound of a Python slice with step 1, as [slice.indices] clips it. *)
Definition slice_bound (n i : Z) : Z :=
  if i <? 0 then Z.max 0 (n + i) else Z.min i n.

(** Positional slice [s.iloc[start:stop]]; never raises. *)
Definition iloc_slice {A : Type} (s : list A) (start stop : Z) : list A :=
  let n := len s in
  let a := slice_bound n start in
  let b := slice_bound n stop in
  take (Z.to_nat (b - a)) (drop (Z.to_nat a) s).

(** ** The event table *)

(** The one-hot "token type" feature paired with every raw token. *)
Definition token_type : Type := (Z * Z * Z * Z)%type.

(** One record of [tl_events_df].  [timestamp] is in nanoseconds.  The
    two derived columns are present in every row; the functions below
    overwrite them as the program does when a file lacks them. *)
Record row : Type := mk_row {
  timestamp : Z;
  master_intersection_idx : Z;
  rnn_inputs_raw : list (string * token_type);
  tl_signal_classes : gmap nat Q;
  time_to_tl_change : gmap nat Q;
  scene_idx : Z;
  frame_idx : Z;
  continuous_time : bool;
  valid_hist_len : Z
}.

Definition set_continuous_time (r : row) (b : bool) : row :=
  mk_row (timestamp r) (master_intersection_idx r) (rnn_inputs_raw r)
         (tl_signal_classes r) (time_to_tl_change r) (scene_idx r) (frame_idx r)
         b (valid_hist_len r).

Definition set_valid_hist_len (r : row) (v : Z) : row :=
  mk_row (timestamp r) (master_intersection_idx r) (rnn_inputs_raw r)
         (tl_signal_classes r) (time_to_tl_change r) (scene_idx r) (frame_idx r)
         (continuous_time r) v.

Definition HIST_LEN_FRAMES : Z := 100.

(** [timedelta(seconds=0.31)] in nanoseconds. *)
Definition continuity_gap : Z := 310000000.

(** Lines 79-85: [diff(1) < 0.31s] and [shift(1) == idx].  On the first
    row [diff] is [NaT] and [shift] is [NaN]; both comparisons are false. *)
Fixpoint continuous_time_column (prev : option row) (df : list row) : list bool :=
  match df with
  | [] => []
  | r :: df' =>
      match prev with
      | None => false
      | Some p =>
          (timestamp r - timestamp p <? continuity_gap)
          && (master_intersection_idx p =? master_intersection_idx r)
      end :: continuous_time_column (Some r) df'
  end.

Definition add_continuous_time (df : list row) : list row :=
  zip_with set_continuous_time df (continuous_time_column None df).

(** The [while] loop of [compute_last_valid_idx_for_seq] (lines 99-103),
    one iteration per unit of fuel.  [and] short-circuits, so the
    column is read only when the length test passed. *)
Fixpoint last_valid_idx_loop (fuel : nat) (ct : list bool) (row_i last_valid_idx : Z)
  : py Z :=
  match fuel with
  | O => Diverge
  | S fuel' =>
      if row_i - last_valid_idx + 1 <? HIST_LEN_FRAMES
      then do c <~ iloc ct last_valid_idx;
           if c : bool
           then last_valid_idx_loop fuel' ct row_i (last_valid_idx - 1)
           else Ok last_valid_idx
      else Ok last_valid_idx
  end.

(** Body of the [for] loop: the value stored at [row_i]. *)
Definition valid_hist_len_at (ct : list bool) (row_i : Z) : py Z :=
  do last_valid_idx <~ last_valid_idx_loop (Z.to_nat HIST_LEN_FRAMES) ct row_i row_i;
  Ok (row_i - last_valid_idx).

(** Lines 95-104.  The column starts at -1 and every row is then
    overwritten, so a run that returns has stored the computed value in
    every row (the store [df[col].iloc[i] = v] writes through to the
    frame, as it does in the pandas releases that still have [np.int]). *)
Definition compute_last_valid_idx_for_seq (tl_events_df : list row) : py (list row) :=
  let ct := map continuous_time tl_events_df in
  do col <~ py_mapM (valid_hist_len_at ct) (range (len tl_events_df));
  Ok (zip_with set_valid_hist_len tl_events_df col).

(** ** Vocabulary (lines 113-127) *)

Fixpoint py_foldM {A S : Type} (f : S -> A -> py S) (l : list A) (s : S) : py S :=
  match l with
  | [] => Ok s
  | a :: l' => do s' <~ f s a; py_foldM f l' s'
  end.

(** [len(d)] of a dictionary. *)
Definition dict_len {V : Type} (d : gmap string V) : Z := Z.of_nat (size d).

(** One token of the double loop: a new token takes the next free index
    and frequency 1, a known one has its frequency incremented
    ([term_freq[token] += 1] reads the entry first). *)
Definition train_vocab_step (st : gmap string Z * gmap string Z) (token : string)
  : py (gmap string Z * gmap string Z) :=
  let '(train_vocab, term_freq) := st in
  match train_vocab !! token with
  | None => Ok (<[token := dict_len train_vocab]> train_vocab, <[token := 1]> term_freq)
  | Some _ =>
      match term_freq !! token with
      | Some f => Ok (train_vocab, <[token := f + 1]> term_freq)
      | None => Raise KeyError
      end
  end.

Definition build_train_vocab (intersection_related_inputs : list (list (string * token_type)))
  : py (gmap string Z * gmap string Z) :=
  py_foldM
    (fun st rnn_input_raw => py_foldM (fun st tk => train_vocab_step st (fst tk)) rnn_input_raw st)
    intersection_related_inputs (∅, ∅).

(** ** The dataset (class [IntersectionDataset]) *)

Record IntersectionDataset : Type := mk_dataset {
  tl_events_df : list row;
  history_events_max : Z;
  history_len_records : Z;
  valid_indices : list Z;
  vocab_term_2_idx : gmap string Z;
  vocab_term_2_freq : gmap string Z;
  min_freq : Z;
  UNKNOWN_TOKEN_IDX : Z;
  PAD_TOKEN_IDX : Z;
  tl_signal_indices : list nat;
  return_indices : bool
}.

(** [df["rnn_inputs_raw"].map(len).max()] of a table with at least one
    row.  On an empty table pandas yields NaN, and so is the capacity
    computed from it; no sample of an empty table is ever built (the
    first column read of [__getitem__] raises), and no property below
    is about the capacity of a dataset over an empty table, where the
    0 of this definition stands for the NaN. *)
Definition max_events_per_timestamp (df : list row) : Z :=
  fold_right Z.max 0 (map (fun r => len (rnn_inputs_raw r)) df).

Definition IntersectionDataset__init__
    (tl_events_df : list row) (valid_indices : list Z)
    (train_vocab term_freq : gmap string Z) (tl_signal_indices : list nat)
    (history_len_records : Z) (min_freq : Z) (return_indices : bool)
  : IntersectionDataset :=
  {| tl_events_df := tl_events_df;
     history_events_max := history_len_records * max_events_per_timestamp tl_events_df;
     history_len_records := history_len_records;
     valid_indices := valid_indices;
     vocab_term_2_idx := train_vocab;
     vocab_term_2_freq := term_freq;
     min_freq := min_freq;
     UNKNOWN_TOKEN_IDX := dict_len train_vocab;
     PAD_TOKEN_IDX := dict_len train_vocab + 1;
     tl_signal_indices := tl_signal_indices;
     return_indices := return_indices |}.

(** Lines 345-350: the conditional expression that resolves one token. *)
Definition token_idx_of (self : IntersectionDataset) (token : string) : py Z :=
  match vocab_term_2_idx self !! token with
  | Some idx =>
      match vocab_term_2_freq self !! token with
      | Some f => if min_freq self <=? f then Ok idx else Ok (UNKNOWN_TOKEN_IDX self)
      | None => Raise KeyError
      end
  | None => Ok (UNKNOWN_TOKEN_IDX self)
  end.

(** The three lists and the counter that the nested loop updates. *)
Record history : Type := mk_history {
  tokens_list : list Z;
  token_type_ohe_list : list token_type;
  token_timesteps_list : list Q;
  timestap : Z
}.

(** Body of the inner loop (lines 343-352). *)
Definition history_token (self : IntersectionDataset) (h : history)
    (ev : string * token_type) : py history :=
  let '(token, token_type_ohe) := ev in
  if history_len_records self =? 0 then Raise ZeroDivisionError else
  let w := (inject_Z (timestap h) / inject_Z (history_len_records self))%Q in
  do token_idx <~ token_idx_of self token;
  Ok (mk_history (tokens_list h ++ [token_idx])
                 (token_type_ohe_list h ++ [token_type_ohe])
                 (token_timesteps_list h ++ [w])
                 (timestap h)).

(** Body of the outer loop (lines 341-353). *)
Definition history_frame (self : IntersectionDataset) (h : history)
    (timestep_events : list (string * token_type)) : py history :=
  do h' <~ py_foldM (history_token self) timestep_events h;
  Ok (mk_history (tokens_list h') (token_type_ohe_list h') (token_timesteps_list h')
                 (timestap h' - 1)).

Definition np_ones (n : Z) : list Z := repeat 1 (Z.to_nat n).

Definition float_of_bool (b : bool) : Q := if b then 1%Q else 0%Q.

Record sample : Type := mk_sample {
  tokens_np : list Z;
  token_type_ohe_np : list token_type;
  token_timesteps_np : list Q;
  seq_len : Z;
  all_true_classes : list (nat * Q);
  all_tte : list (nat * Q);
  classes_availabilities : list (nat * bool);
  tte_availabilities : list (nat * bool);
  scene_frame : option (Z * Z)
}.

(** [IntersectionDataset.__getitem__] (lines 330-419).  The two
    [ValueError]s are NumPy's: [np.ones] of a negative length, and
    [np.concatenate] of the 1-dimensional [np.array([])] with the
    2-dimensional block of zero type vectors. *)
Definition __getitem__ (self : IntersectionDataset) (index : Z) : py sample :=
  do row_i <~ iloc (valid_indices self) index;
  do vhl <~ iloc (map valid_hist_len (tl_events_df self)) row_i;
  let valid_hist_len := Z.min (history_len_records self) vhl in
  let raw_inputs_hist :=
    iloc_slice (map rnn_inputs_raw (tl_events_df self)) (row_i - valid_hist_len) (row_i + 1) in
  do h <~ py_foldM (history_frame self) raw_inputs_hist
            (mk_history [] [] [] (valid_hist_len + 1));
  let seq_len := len (tokens_list h) in
  let padding_len := history_events_max self - seq_len in
  if padding_len <? 0 then Raise ValueError else
  if seq_len =? 0 then Raise ValueError else
  let tokens_np :=
    tokens_list h ++ map (fun o => PAD_TOKEN_IDX self * o) (np_ones padding_len) in
  let token_type_ohe_np :=
    token_type_ohe_list h ++ repeat (0, 0, 0, 0) (Z.to_nat padding_len) in
  let token_timesteps_np :=
    token_timesteps_list h ++ repeat 0%Q (Z.to_nat padding_len) in
  do known_true_classes <~ iloc (map tl_signal_classes (tl_events_df self)) row_i;
  do known_tte <~ iloc (map time_to_tl_change (tl_events_df self)) row_i;
  let all_true_classes :=
    map (fun tl_id => (tl_id, default 0%Q (known_true_classes !! tl_id)))
        (tl_signal_indices self) in
  let all_tte :=
    map (fun tl_id => (tl_id, default 99%Q (known_tte !! tl_id)))
        (tl_signal_indices self) in
  let classes_availabilities :=
    map (fun tl_id => (tl_id, bool_decide (is_Some (known_true_classes !! tl_id))))
        (tl_signal_indices self) in
  let tte_availabilities :=
    map (fun tl_id => (tl_id, bool_decide (is_Some (known_tte !! tl_id))))
        (tl_signal_indices self) in
  do scene_frame <~
    (if return_indices self
     then do s <~ iloc (map scene_idx (tl_events_df self)) row_i;
          do f <~ iloc (map frame_idx (tl_events_df self)) row_i;
          Ok (Some (s, f))
     else Ok None);
  Ok (mk_sample tokens_np token_type_ohe_np token_timesteps_np seq_len
                all_true_classes all_tte classes_availabilities tte_availabilities
                scene_frame).

(** ** The valid-window selector ([get_valid_indices], lines 422-470) *)

Definition is_non_empty_bit : Z := 0.
Definition is_time_continuous_bit : Z := 1.

Definition encode_len_continuity (records_len : Z) (is_continuous : bool) : Z :=
  let res_int := 0 in
  let res_int :=
    if 1 <=? records_len then res_int + Z.shiftl 1 is_non_empty_bit else res_int in
  let res_int :=
    if is_continuous then res_int + Z.shiftl 1 is_time_continuous_bit else res_int in
  res_int.

Definition decode_len_continuity (num : Z) : bool * bool :=
  let is_non_empty := negb (Z.land num (Z.shiftl 1 is_non_empty_bit) =? 0) in
  let is_continuous := negb (Z.land num (Z.shiftl 1 is_time_continuous_bit) =? 0) in
  (is_non_empty, is_continuous).

(** The loop [for i in range(len(hist) - 1, -1, -1)] over the window
    read from its end: the continuity test comes first. *)
Fixpoint scan_from_end (hist_reversed : list Z) : Z :=
  match hist_reversed with
  | [] => 0
  | num :: older =>
      let '(is_non_empty, is_time_continuous) := decode_len_continuity num in
      if negb is_time_continuous then 0
      else if is_non_empty then 1
      else scan_from_end older
  end.

Definition is_nonempty_input_present (hist : list Z) : Z :=
  scan_from_end (rev hist).

(** [s.rolling(window, min_periods).agg(f)] on a column without missing
    values: the window of position [i] is the rows [i - window + 1 .. i]
    that exist.  pandas refuses [min_periods > window]. *)
Definition rolling_agg (window min_periods : Z) (f : list Z -> Z) (s : list Z)
  : py (list Z) :=
  if window <? min_periods then Raise ValueError
  else Ok (map (fun i => f (iloc_slice s (Z.max 0 (i - window + 1)) (i + 1)))
               (range (len s))).

(** [xs[mask]] with a boolean mask. *)
Fixpoint boolean_index {A : Type} (xs : list A) (mask : list bool) : list A :=
  match xs, mask with
  | x :: xs', m :: mask' => if m then x :: boolean_index xs' mask' else boolean_index xs' mask'
  | _, _ => []
  end.

Definition get_valid_indices (tl_events_df : list row) (history_len_records : Z)
    (is_inference : bool) : py (list Z) :=
  let is_nonempty___is_continuious_series :=
    map (fun r => encode_len_continuity (len (rnn_inputs_raw r)) (continuous_time r))
        tl_events_df in
  do is_nonempty_input_present_series <~
    rolling_agg (history_len_records - 1) 1 is_nonempty_input_present
                is_nonempty___is_continuious_series;
  let valid_rows_bool :=
    zip_with
      (fun r present =>
         ((0 <? Z.of_nat (size (tl_signal_classes r))) || is_inference) && (present =? 1))
      tl_events_df is_nonempty_input_present_series in
  Ok (boolean_index (range (len tl_events_df)) valid_rows_bool).

(** ** The data loader ([get_dataloader], lines 473-504) *)

(** Lines 483-500: the local [dataset] that [get_dataloader] builds
    before it hands it to [DataLoader].  [tl_signal_indices] is the
    entry of the external mapping
    [master_intersection_idx_2_tl_signal_indices] for the intersection.
    The two columns dropped at lines 486-488 are not read afterwards. *)
Definition get_dataloader_dataset (tl_events_df : list row) (intersection_idx : Z)
    (train_vocab term_freq : gmap string Z) (tl_signal_indices : list nat)
    (return_indices is_inference : bool) : py IntersectionDataset :=
  let tl_events_df_intersection :=
    List.filter (fun r => master_intersection_idx r =? intersection_idx) tl_events_df in
  do valid_indices_intersection <~
    get_valid_indices tl_events_df_intersection HIST_LEN_FRAMES is_inference;
  Ok (IntersectionDataset__init__ tl_events_df_intersection valid_indices_intersection
        train_vocab term_freq tl_signal_indices HIST_LEN_FRAMES 5 return_indices).

(** [IntersectionDataset.__len__] (lines 327-328). *)
Definition __len__ (self : IntersectionDataset) : Z := len (valid_indices self).

(** What [torch.utils.data.DataLoader] keeps of its arguments. *)
Record DataLoader : Type := mk_DataLoader {
  dataset : IntersectionDataset;
  shuffle : bool;
  batch_size : Z;
  num_workers : Z
}.

(** [DataLoader(dataset, shuffle=, batch_size=, num_workers=)], line
    501, as far as its constructor decides: torch raises [ValueError]
    for a negative number of workers, with [shuffle] for a dataset
    without samples (the [RandomSampler] refuses it), and for a batch
    size that is not positive. *)
Definition DataLoader__init__ (dataset : IntersectionDataset) (shuffle : bool)
    (batch_size num_workers : Z) : py DataLoader :=
  if num_workers <? 0 then Raise ValueError
  else if shuffle && (__len__ dataset =? 0) then Raise ValueError
  else if batch_size <=? 0 then Raise ValueError
  else Ok {| dataset := dataset; shuffle := shuffle;
             batch_size := batch_size; num_workers := num_workers |}.

Definition get_dataloader (tl_events_df : list row) (intersection_idx : Z) (shuffle : bool)
    (train_vocab term_freq : gmap string Z) (tl_signal_indices : list nat)
    (batch_size num_workers : Z) (return_indices is_inference : bool) : py DataLoader :=
  do dataset <~ get_dataloader_dataset tl_events_df intersection_idx train_vocab term_freq
                  tl_signal_indices return_indices is_inference;
  DataLoader__init__ dataset shuffle batch_size num_workers.

(** ** The model: embedding table and gradient hook *)

(** [nn.Embedding(vocab_size + 2, embedding_dim)] has this many rows. *)
Definition num_embeddings (vocab_size : Z) : Z := vocab_size + 2.

(** [self.embedding(tokens_seq)] for one sequence: every index selects a
    row of the weight matrix; torch raises on an index outside it. *)
Definition embedding {A : Type} (weight : list A) (tokens_seq : list Z) : py (list A) :=
  py_mapM (fun idx =>
             if (0 <=? idx) && (idx <? len weight)
             then match weight !! Z.to_nat idx with
                  | Some v => Ok v
                  | None => Raise IndexError
                  end
             else Raise IndexError)
          tokens_seq.

(** A tensor entry that may be non-finite. *)
Inductive float : Type :=
| Fin (q : Q)
| PInf
| NInf
| NaN.

Definition isnan (x : float) : bool :=
  match x with NaN => true | _ => false end.

Definition isinf (x : float) : bool :=
  match x with PInf | NInf => true | _ => false end.

(** [torch.clamp(x, lo, hi)] on one entry: NaN stays NaN, an infinity
    goes to the bound on its side. *)
Definition clamp (lo hi : Q) (x : float) : float :=
  match x with
  | Fin q => if Qle_bool lo q then (if Qle_bool q hi then Fin q else Fin hi) else Fin lo
  | PInf => Fin hi
  | NInf => Fin lo
  | NaN => NaN
  end.

(** [t[isnan(t) | isinf(t)] = 0.0] on one entry. *)
Definition replace_explosure (x : float) : float :=
  if isnan x || isinf x then Fin 0 else x.

(** Lines 198-203.  The masked store also changes the incoming tensor in
    place; the value the hook returns is the clamped copy. *)
Definition clip_and_replace_explosures (grad : list float) : list float :=
  let grad := map replace_explosure grad in
  let grad := map (clamp (-(1 # 4)) (1 # 4)) grad in
  grad.

Record parameter : Type := mk_parameter {
  requires_grad : bool;
  backward_hooks : list (list float -> list float)
}.

Definition register_hook (p : parameter) (hook : list float -> list float) : parameter :=
  mk_parameter (requires_grad p) (backward_hooks p ++ [hook]).

(** Lines 205-207. *)
Definition register_gradient_hooks (parameters : list parameter) : list parameter :=
  map (fun param =>
         if requires_grad param
         then register_hook param clip_and_replace_explosures
         else param)
      parameters.

(** The gradient a parameter receives in a backward pass: torch calls the
    registered hooks in order, each one replacing the gradient. *)
Definition received_grad (p : parameter) (grad : list float) : list float :=
  fold_left (fun g hook => hook g) (backward_hooks p) grad.

(** ** Weibull decoding (lines 220-234)

    One entry of the parameter tensors at a time; the source applies the
    same operations elementwise, in float32.  Over the reals: inputs
    are finite, and [None] says that the computation has left the
    finite numbers at some operation (a division by 0, the logarithm of
    a number that is not positive, a power that is not a real number).
    What float32 arithmetic makes of an infinity from there on (a
    finite 0 from [x ** inf] with [|x| < 1], for instance), and what
    rounding, overflow and underflow do to a finite value, is not
    followed: the definitions give the formulas of lines 220-234 for
    parameters where every intermediate value is finite. *)

Section WeibullDecoding.
Local Open Scope R_scope.

Definition torch_div (a b : R) : option R :=
  if Req_dec_T b 0 then None else Some (a / b).

(** [torch.log]: [-inf] at 0 and [nan] below. *)
Definition torch_log (x : R) : option R :=
  if Rlt_dec 0 x then Some (ln x) else None.

(** [torch.pow(base, e)]: for a negative base the result is [nan]
    unless the exponent is an integer; [0 ** e] is 0, 1 or [inf]. *)
Definition torch_pow (base e : R) : option R :=
  if Rlt_dec 0 base then Some (Rpower base e)
  else if Req_dec_T base 0
       then (if Rlt_dec 0 e then Some 0
             else if Req_dec_T e 0 then Some 1 else None)
       else (if Req_dec_T e (IZR (Int_part e))
             then Some (powerRZ base (Int_part e))
             else None).

Definition get_weibull_quantiles (weibull_lambda weibull_k quantile : R) : option R :=
  l ← torch_log (1 - quantile);
  e ← torch_div 1 weibull_k;
  p ← torch_pow (- l) e;
  Some (weibull_lambda * p).

Definition get_weibull_mode (weibull_lambda weibull_k : R) : option R :=
  let mode :=
    b ← torch_div (weibull_k - 1) weibull_k;
    e ← torch_div 1 weibull_k;
    p ← torch_pow b e;
    Some (weibull_lambda * p) in
  if Rle_dec weibull_k 1 then Some 0 else mode.

End WeibullDecoding.

(** ** Masked losses of one batch (lines 559-592, 653-688, 800-832)

    A batch of [B] samples.  [default_collate] stacks the [B] scalars
    that a key has in the samples into one tensor of shape [(B,)], and
    the model's output for a signal has one row per sample, shape
    [(B, 1)]: both are vectors of length [B].  The two library
    functions are parameters, given entry by entry:
    [binary_crossentropy] for [nn.BCELoss(reduction="none")] on a
    probability (the input is the output of a sigmoid), and [log_prob]
    for [Weibull(scale, concentration).log_prob], whose value may be
    non-finite and which raises where the library validates the
    argument and rejects it. *)

Module Loss.

Definition dict_get {V : Type} (d : gmap nat V) (k : nat) : py V :=
  match d !! k with
  | Some v => Ok v
  | None => Raise KeyError
  end.

(** [t.sum()] *)
Definition tensor_sum (t : list Q) : Q := fold_right Qplus 0%Q t.

(** Product of a possibly non-finite entry with a finite one. *)
Definition float_mul (x : float) (a : Q) : float :=
  match x with
  | Fin q => Fin (q * a)
  | NaN => NaN
  | PInf => match (a ?= 0)%Q with Eq => NaN | Gt => PInf | Lt => NInf end
  | NInf => match (a ?= 0)%Q with Eq => NaN | Gt => NInf | Lt => PInf end
  end.

(** The value of an entry once the non-finite ones were overwritten. *)
Definition finite_value (x : float) : Q :=
  match replace_explosure x with
  | Fin q => q
  | _ => 0%Q
  end.

(** [x > 0] and the truth value of [x] for a one-element tensor. *)
Definition gt0 (x : Q) : bool :=
  match (0 ?= x)%Q with Lt => true | _ => false end.

Definition truthy (x : Q) : bool := negb (Qeq_bool x 0).

(** The labels of a collated batch of [B] samples, keyed by signal.
    Availability entries are [np.float32] of a truth value, kept as
    that truth value and cast where they are used. *)
Record batch (B : nat) : Type := mk_batch {
  all_true_classes : gmap nat (vec Q B);
  all_tte : gmap nat (vec Q B);
  classes_availabilities : gmap nat (vec bool B);
  tte_availabilities : gmap nat (vec bool B)
}.

Arguments mk_batch {B} _ _ _ _.
Arguments all_true_classes {B} _.
Arguments all_tte {B} _.
Arguments classes_availabilities {B} _.
Arguments tte_availabilities {B} _.

Record losses : Type := mk_losses {
  loss_bce : Q;
  loss_bce_terms_count : Q;
  loss_tte_log_prob : Q;
  loss_tte_log_prob_terms_count : Q;
  loss : Q
}.

(** The shape of [torch.squeeze(t)] for [t] of shape [(B, 1)]: every
    dimension of size 1 is dropped, the batch dimension too when
    [B = 1]. *)
Definition squeeze_shape (B : nat) : list nat :=
  if (B =? 1)%nat then [] else [B].

Section Batch.
Context {B : nat}.
Variable binary_crossentropy : Q -> Q -> Q.
Variable log_prob : Q * Q -> Q -> py float.

(** [binary_crossentropy(torch.squeeze(pred_color_classes),
    true_color_classes)].  [nn.BCELoss] raises [ValueError] unless
    input and target have the same size; the target has shape [(B,)],
    so for a batch of one sample, where the squeezed input has no
    dimension left, the call raises. *)
Definition squeezed_bce (pred_color_classes true_color_classes : vec Q B) : py (list Q) :=
  if decide (squeeze_shape B = [B])
  then Ok (zip_with binary_crossentropy pred_color_classes true_color_classes)
  else Raise ValueError.

(** [torch.squeeze(tte_distr.log_prob(true_ttes))]: distribution and
    value both have shape [(B, 1)].  For [B = 1] the squeezed result
    has no dimension, and its product with the availabilities, of
    shape [(1,)], has the one entry again. *)
Definition squeezed_log_prob (tte_distr : vec (Q * Q) B) (true_ttes : vec Q B)
  : py (list float) :=
  py_mapM (fun dx => log_prob (fst dx) (snd dx)) (zip tte_distr true_ttes).

(** Body of [for tl_id, pred_color_classes in tl_2_color_class.items()]. *)
Definition bce_signal (b : batch B) (acc : Q * Q) (item : nat * vec Q B) : py (Q * Q) :=
  let '(loss_bce, loss_bce_terms_count) := acc in
  let '(tl_id, pred_color_classes) := item in
  do true_color_classes <~ dict_get (all_true_classes b) tl_id;
  do bce <~ squeezed_bce pred_color_classes true_color_classes;
  do avail <~ dict_get (classes_availabilities b) tl_id;
  let bce_loss_tl := zip_with Qmult bce (map float_of_bool avail) in
  Ok ((loss_bce + tensor_sum bce_loss_tl)%Q,
      (loss_bce_terms_count + tensor_sum (map float_of_bool avail))%Q).

(** Body of [for tl_id, tte_distr in tl_2_tte_distr.items()]. *)
Definition tte_signal (b : batch B) (acc : Q * Q) (item : nat * vec (Q * Q) B)
  : py (Q * Q) :=
  let '(loss_tte_log_prob, loss_tte_log_prob_terms_count) := acc in
  let '(tl_id, tte_distr) := item in
  do true_ttes <~ dict_get (all_tte b) tl_id;
  do log_probs <~ squeezed_log_prob tte_distr true_ttes;
  do avail <~ dict_get (tte_availabilities b) tl_id;
  let log_prob_all := zip_with float_mul log_probs (map float_of_bool avail) in
  let log_prob_all := map finite_value log_prob_all in
  Ok ((loss_tte_log_prob - tensor_sum log_prob_all)%Q,
      (loss_tte_log_prob_terms_count + tensor_sum (map float_of_bool avail))%Q).

(** Training step, lines 559-592. *)
Definition train (tl_2_color_class : list (nat * vec Q B))
    (tl_2_tte_distr : list (nat * vec (Q * Q) B)) (b : batch B) : py losses :=
  do (loss_bce, loss_bce_terms_count) <~
    py_foldM (bce_signal b) tl_2_color_class (0%Q, 0%Q);
  let loss_bce :=
    if gt0 loss_bce_terms_count then (loss_bce / loss_bce_terms_count)%Q else loss_bce in
  do (loss_tte_log_prob, loss_tte_log_prob_terms_count) <~
    py_foldM (tte_signal b) tl_2_tte_distr (0%Q, 0%Q);
  let loss_tte_log_prob :=
    if gt0 loss_tte_log_prob_terms_count
    then (loss_tte_log_prob / loss_tte_log_prob_terms_count)%Q
    else loss_tte_log_prob in
  let loss := (loss_bce + loss_tte_log_prob)%Q in
  Ok (mk_losses loss_bce loss_bce_terms_count
                loss_tte_log_prob loss_tte_log_prob_terms_count loss).

(** Validation step, lines 653-688: the guards test the truth value
    of the count, and the log-probability term is halved. *)
Definition validate (tl_2_color_class : list (nat * vec Q B))
    (tl_2_tte_distr : list (nat * vec (Q * Q) B)) (b : batch B) : py losses :=
  do (loss_bce, loss_bce_terms_count) <~
    py_foldM (bce_signal b) tl_2_color_class (0%Q, 0%Q);
  let loss_bce :=
    if truthy loss_bce_terms_count then (loss_bce / loss_bce_terms_count)%Q else loss_bce in
  do (loss_tte_log_prob, loss_tte_log_prob_terms_count) <~
    py_foldM (tte_signal b) tl_2_tte_distr (0%Q, 0%Q);
  let loss_tte_log_prob :=
    if truthy loss_tte_log_prob_terms_count
    then (loss_tte_log_prob / loss_tte_log_prob_terms_count)%Q
    else loss_tte_log_prob in
  let loss := (loss_bce + loss_tte_log_prob / 2)%Q in
  Ok (mk_losses loss_bce loss_bce_terms_count
                loss_tte_log_prob loss_tte_log_prob_terms_count loss).

(** Evaluation inside [predict], lines 800-832 ([eval_performance]). *)
Definition predict (tl_2_color_class : list (nat * vec Q B))
    (tl_2_tte_distr : list (nat * vec (Q * Q) B)) (b : batch B) : py losses :=
  do (loss_bce, loss_bce_terms_count) <~
    py_foldM (bce_signal b) tl_2_color_class (0%Q, 0%Q);
  let loss_bce :=
    if gt0 loss_bce_terms_count then (loss_bce / loss_bce_terms_count)%Q else loss_bce in
  do (loss_tte_log_prob, loss_tte_log_prob_terms_count) <~
    py_foldM (tte_signal b) tl_2_tte_distr (0%Q, 0%Q);
  let loss_tte_log_prob :=
    if gt0 loss_tte_log_prob_terms_count
    then (loss_tte_log_prob / loss_tte_log_prob_terms_count)%Q
    else loss_tte_log_prob in
  let loss := (loss_bce + loss_tte_log_prob)%Q in
  Ok (mk_losses loss_bce loss_bce_terms_count
                loss_tte_log_prob loss_tte_log_prob_terms_count loss).

End Batch.

End Loss.

(** ** Notions of the specification *)

(** The rows [i], [i-1], ... whose continuity flag holds, counted
    backward from [i] until the first one whose flag does not: each
    such row has its predecessor in its history. *)
Fixpoint continuous_run (ct : list bool) (i : nat) : nat :=
  match ct !! i with
  | Some true =>
      match i with
      | O => 1%nat
      | S i' => S (continuous_run ct i')
      end
  | _ => 0%nat
  end.

Definition has_token (df : list row) (j : nat) : Prop :=
  exists r, df !! j = Some r /\ rnn_inputs_raw r <> [].

Definition is_continuous (df : list row) (m : nat) : Prop :=
  exists r, df !! m = Some r /\ continuous_time r = true.

Definition has_label (df : list row) (i : nat) : Prop :=
  exists r, df !! i = Some r /\ tl_signal_classes r <> ∅.

(** The window of row [i] as the selector decides it: among the last
    [w] rows up to [i] there is a row [j] with a token, and every row
    from [j] to [i], [j] included, has its continuity flag set. *)
Definition window_valid (df : list row) (w : Z) (i : nat) : Prop :=
  exists j : nat,
    (j <= i)%nat /\ Z.of_nat (i - j) < w
    /\ has_token df j
    /\ forall m : nat, (j <= m <= i)%nat -> is_continuous df m.

(** The window condition in the wording under examination: the row with
    a token is met before, or at the same position as, any row whose
    continuity flag is false; the flag of row [j] itself is not asked. *)
Definition window_valid_same_position (df : list row) (w : Z) (i : nat) : Prop :=
  exists j : nat,
    (j <= i)%nat /\ Z.of_nat (i - j) < w
    /\ has_token df j
    /\ forall m : nat, (j < m <= i)%nat -> is_continuous df m.

(** Two rows that differ at most in the column [valid_hist_len]. *)
Definition same_but_valid_hist_len (r r' : row) : Prop :=
  timestamp r' = timestamp r
  /\ master_intersection_idx r' = master_intersection_idx r
  /\ rnn_inputs_raw r' = rnn_inputs_raw r
  /\ tl_signal_classes r' = tl_signal_classes r
  /\ time_to_tl_change r' = time_to_tl_change r
  /\ scene_idx r' = scene_idx r
  /\ frame_idx r' = frame_idx r
  /\ continuous_time r' = continuous_time r.

(** Two rows that differ at most in the column [continuous_time]. *)
Definition same_but_continuous_time (r r' : row) : Prop :=
  timestamp r' = timestamp r
  /\ master_intersection_idx r' = master_intersection_idx r
  /\ rnn_inputs_raw r' = rnn_inputs_raw r
  /\ tl_signal_classes r' = tl_signal_classes r
  /\ time_to_tl_change r' = time_to_tl_change r
  /\ scene_idx r' = scene_idx r
  /\ frame_idx r' = frame_idx r
  /\ valid_hist_len r' = valid_hist_len r.

(** The entry of [is_nonempty___is_continuious_series] for a row. *)
Definition len_continuity (r : row) : Z :=
  encode_len_continuity (len (rnn_inputs_raw r)) (continuous_time r).

(** ** Example tables *)

Definition observed (ts : Z) (frame : Z) (token : string)
    (classes tte : gmap nat Q) : row :=
  mk_row ts 0 [(token, (1, 0, 0, 0))] classes tte 0 frame false (-1).

(** Three frames 0.1 s apart at one intersection with the single signal
    7, one token per frame, a label on the last frame only. *)
Definition three_rows_raw : list row :=
  [ observed 0 0 "a" ∅ ∅;
    observed 100000000 1 "b" ∅ ∅;
    observed 200000000 2 "c" {[ 7%nat := 1%Q ]} {[ 7%nat := (5 # 2)%Q ]} ].

(** A table of one labelled frame with one token. *)
Definition one_row_raw : list row :=
  [ observed 0 0 "a" {[ 7%nat := 1%Q ]} {[ 7%nat := (5 # 2)%Q ]} ].

(** The script in training mode up to the dataset of the training
    loader (lines 73-127 and 864-869) for files that lack the derived
    columns, with the default batch size and number of workers. *)
Definition training_dataset (tl_events_df_trn : list row) (intersection_idx : Z)
    (tl_signal_indices : list nat) : py IntersectionDataset :=
  let tl_events_df_trn := add_continuous_time tl_events_df_trn in
  do tl_events_df_trn <~ compute_last_valid_idx_for_seq tl_events_df_trn;
  let intersection_related_inputs :=
    map rnn_inputs_raw
        (List.filter (fun r => master_intersection_idx r =? intersection_idx)
                     tl_events_df_trn) in
  do (train_vocab, term_freq) <~ build_train_vocab intersection_related_inputs;
  do dataloader_trn <~
    get_dataloader tl_events_df_trn intersection_idx true train_vocab term_freq
                   tl_signal_indices 128 8 false false;
  Ok (dataset dataloader_trn).

(** A vocabulary as the double loop leaves it: the two dictionaries
    have the same keys and every index is below the vocabulary size. *)
Definition vocab_ok (train_vocab term_freq : gmap string Z) : Prop :=
  (forall t, is_Some (train_vocab !! t) <-> is_Some (term_freq !! t))
  /\ (forall t i, train_vocab !! t = Some i -> 0 <= i < dict_len train_vocab).

(** ** The history window in the words of the specification *)

(** The weight of a token seen [d] frames before the target row. *)
Definition recency_weight (history_len_records d : Z) : Q :=
  (inject_Z (d + 1) / inject_Z history_len_records)%Q.

(** [n] distances counting down from [d]. *)
Fixpoint distances_from (d : Z) (n : nat) : list Z :=
  match n with
  | O => []
  | S n' => d :: distances_from (d - 1) n'
  end.

(** The distances to the target row of the frames of a window, walked
    from the earliest frame to the target row: [vhl; ...; 1; 0]. *)
Definition distances (vhl : Z) : list Z := distances_from vhl (Z.to_nat (vhl + 1)).

(** The raw tokens of the frame [d] rows before [row_i]. *)
Definition frame_at (df : list row) (row_i d : Z) : list (string * token_type) :=
  match df !! Z.to_nat (row_i - d) with
  | Some r => rnn_inputs_raw r
  | None => []
  end.

(** The index a token resolves to when the lookup does not raise. *)
Definition resolved (self : IntersectionDataset) (token : string) : Z :=
  match token_idx_of self token with
  | Ok idx => idx
  | _ => UNKNOWN_TOKEN_IDX self
  end.

Definition window_tokens (self : IntersectionDataset) (row_i vhl : Z) : list Z :=
  flat_map (fun d => map (fun ev => resolved self (fst ev)) (frame_at (tl_events_df self) row_i d))
           (distances vhl).

Definition window_types (self : IntersectionDataset) (row_i vhl : Z) : list token_type :=
  flat_map (fun d => map snd (frame_at (tl_events_df self) row_i d)) (distances vhl).

Definition window_weights (self : IntersectionDataset) (row_i vhl : Z) : list Q :=
  flat_map (fun d => repeat (recency_weight (history_len_records self) d)
                            (length (frame_at (tl_events_df self) row_i d)))
           (distances vhl).

(** ** The masked averages in the words of the specification *)

(** The tensor a key has in a dictionary of the batch, empty when the
    key is missing. *)
Definition entries {A : Type} {B : nat} (d : gmap nat (vec A B)) (tl_id : nat) : list A :=
  match d !! tl_id with
  | Some v => vec_to_list v
  | None => []
  end.

(** Number of available label instances in one availability tensor. *)
Definition available (flags : list bool) : nat :=
  length (List.filter (fun a : bool => a) flags).

(** ... and over all the signals the loop visits. *)
Definition available_labels {X : Type} {B : nat} (avail : gmap nat (vec bool B))
    (items : list (nat * X)) : nat :=
  fold_right (fun item n => (available (entries avail (fst item)) + n)%nat) 0%nat items.

(** An unavailable sample contributes zero. *)
Definition masked (v : Q) (a : bool) : Q := if a then v else 0%Q.

Definition masked_bce_total {B : nat} (binary_crossentropy : Q -> Q -> Q) (b : Loss.batch B)
    (items : list (nat * vec Q B)) : Q :=
  fold_right
    (fun (item : nat * vec Q B) acc =>
       (Loss.tensor_sum
          (zip_with masked
             (zip_with binary_crossentropy (snd item)
                       (entries (Loss.all_true_classes b) (fst item)))
             (entries (Loss.classes_availabilities b) (fst item)))
        + acc)%Q)
    0%Q items.

(** The log-density the library gives for one label, read as NaN where
    the library raises instead. *)
Definition log_prob_entry (log_prob : Q * Q -> Q -> py float) (d : Q * Q) (x : Q) : float :=
  match log_prob d x with
  | Ok v => v
  | _ => NaN
  end.

Definition masked_log_prob_total {B : nat} (log_prob : Q * Q -> Q -> py float)
    (b : Loss.batch B) (items : list (nat * vec (Q * Q) B)) : Q :=
  fold_right
    (fun (item : nat * vec (Q * Q) B) acc =>
       (Loss.tensor_sum
          (zip_with masked
             (map Loss.finite_value
                  (zip_with (log_prob_entry log_prob) (snd item)
                            (entries (Loss.all_tte b) (fst item))))
             (entries (Loss.tte_availabilities b) (fst item)))
        + acc)%Q)
    0%Q items.

(** The average of a masked total over [n] available labels, zero when
    there is none. *)
Definition masked_average (total : Q) (n : nat) : Q :=
  if (n =? 0)%nat then 0%Q else (total / inject_Z (Z.of_nat n))%Q.

(** Every signal the model predicts has its entries in the batch. *)
Definition signals_in_batch {X Y : Type} (d1 : gmap nat X) (d2 : gmap nat Y)
    {V : Type} (items : list (nat * V)) : Prop :=
  forall item, In item items -> is_Some (d1 !! fst item) /\ is_Some (d2 !! fst item).

(** The library returns a log-density for every label the loop reads. *)
Definition log_prob_returns {B : nat} (log_prob : Q * Q -> Q -> py float)
    (b : Loss.batch B) (items : list (nat * vec (Q * Q) B)) : Prop :=
  forall (item : nat * vec (Q * Q) B) (d : Q * Q) (x : Q),
    In item items ->
    In (d, x) (zip (snd item) (entries (Loss.all_tte b) (fst item))) ->
    exists v, log_prob d x = Ok v.

(** A batch of two samples for the signals 7 and 9: signal 7 is labelled
    on the first sample only, signal 9 on none. *)
Definition example_batch : Loss.batch 2 :=
  Loss.mk_batch
    {[ 7%nat := [# 1%Q; 0%Q]; 9%nat := [# 0%Q; 0%Q] ]}
    {[ 7%nat := [# (5 # 2)%Q; 99%Q]; 9%nat := [# 99%Q; 99%Q] ]}
    {[ 7%nat := [# true; false]; 9%nat := [# false; false] ]}
    {[ 7%nat := [# true; false]; 9%nat := [# false; false] ]}.

Definition example_colors : list (nat * vec Q 2) :=
  [ (7%nat, [# (9 # 10)%Q; (1 # 2)%Q]); (9%nat, [# (1 # 5)%Q; (1 # 2)%Q]) ].

Definition example_distrs : list (nat * vec (Q * Q) 2) :=
  [ (7%nat, [# (2%Q, 3%Q); (2%Q, 3%Q)]); (9%nat, [# (2%Q, 3%Q); (2%Q, 3%Q)]) ].

(** Stand-ins for the two library functions in the examples. *)
Definition example_bce (p y : Q) : Q := Qabs (p - y).

Definition example_log_prob (d : Q * Q) (x : Q) : py float :=
  if Qle_bool 99 x then Ok NInf else Ok (Fin (- x / fst d)).

(** What the specification asks of the two averaged terms of a batch:
    each denominator is the number of available labels over all
    signals, each term is the masked total averaged over it, and a term
    without any available label is zero. *)
Definition averaged_over_available {B : nat} (binary_crossentropy : Q -> Q -> Q)
    (log_prob : Q * Q -> Q -> py float)
    (tl_2_color_class : list (nat * vec Q B)) (tl_2_tte_distr : list (nat * vec (Q * Q) B))
    (b : Loss.batch B) (r : Loss.losses) : Prop :=
  let n_classes := available_labels (Loss.classes_availabilities b) tl_2_color_class in
  let n_tte := available_labels (Loss.tte_availabilities b) tl_2_tte_distr in
  (Loss.loss_bce_terms_count r == inject_Z (Z.of_nat n_classes))%Q
  /\ (Loss.loss_tte_log_prob_terms_count r == inject_Z (Z.of_nat n_tte))%Q
  /\ (Loss.loss_bce r
      == masked_average (masked_bce_total binary_crossentropy b tl_2_color_class) n_classes)%Q
  /\ (Loss.loss_tte_log_prob r
      == masked_average (- masked_log_prob_total log_prob b tl_2_tte_distr) n_tte)%Q
  /\ (n_classes = 0%nat -> (Loss.loss_bce r == 0)%Q)
  /\ (n_tte = 0%nat -> (Loss.loss_tte_log_prob r == 0)%Q).

(** ** The three-row example, prepared by the program *)

Definition three_rows : list row := add_continuous_time three_rows_raw.

Definition three_rows_dataset : IntersectionDataset :=
  match training_dataset three_rows_raw 0 [7%nat] with
  | Ok ds => ds
  | _ => IntersectionDataset__init__ [] [] ∅ ∅ [] HIST_LEN_FRAMES 5 false
  end.

(** Its last row, the only valid sample. *)
Definition three_rows_target : row :=
  set_valid_hist_len
    (set_continuous_time
       (observed 200000000 2 "c" {[ 7%nat := 1%Q ]} {[ 7%nat := (5 # 2)%Q ]}) true)
    2.

Definition three_rows_sample : sample :=
  match __getitem__ three_rows_dataset 0 with
  | Ok s => s
  | _ => mk_sample [] [] [] 0 [] [] [] [] None
  end.

(** ** Further parts of the program *)

(** Lines 140 and 905: the fold whose vocabulary and checkpoint a
    prediction run loads ([fold_i] after [int(...)]). *)
Definition model_fold_i (fold_i : Z) : Z := (fold_i + 1) mod 2.

(** The tokens of the training inputs in reading order. *)
Definition corpus_tokens (inputs : list (list (string * token_type))) : list string :=
  flat_map (map fst) inputs.

(** How often a token occurs. *)
Fixpoint occurrences (token : string) (tokens : list string) : Z :=
  match tokens with
  | [] => 0
  | t :: tokens' => (if String.eqb t token then 1 else 0) + occurrences token tokens'
  end.

(** The distinct tokens in the order of their first occurrence. *)
Definition distinct_tokens (tokens : list string) : list string :=
  fold_left (fun seen t => if bool_decide (t ∈ seen) then seen else seen ++ [t]) tokens [].

(** The two dictionaries after the tokens [tokens] were read. *)
Definition vocab_of (tokens : list string) (train_vocab term_freq : gmap string Z) : Prop :=
  NoDup (distinct_tokens tokens)
  /\ (forall t i, train_vocab !! t = Some i
                  <-> 0 <= i /\ distinct_tokens tokens !! Z.to_nat i = Some t)
  /\ size train_vocab = length (distinct_tokens tokens)
  /\ (forall t, term_freq !! t
                = if occurrences t tokens =? 0 then None else Some (occurrences t tokens))
  /\ (forall t, t ∈ distinct_tokens tokens <-> 0 < occurrences t tokens).

(** A dataset over one frame without tokens, listed as a valid index. *)
Definition empty_frame_dataset : IntersectionDataset :=
  IntersectionDataset__init__
    [mk_row 0 0 [] {[ 7%nat := 1%Q ]} ∅ 0 0 false 0] [0] ∅ ∅ [7%nat] HIST_LEN_FRAMES 5 false.

(** ** The lists of losses of a pass over the batches
    (lines 600-612, 690-704, 834-843) *)

(** The three lists a pass appends to: [losses_train],
    [losses_lob_prob_train] and [losses_bce_train] in training, their
    [val] counterparts in validation, [losses], [losses_lob_prob] and
    [losses_bce] in prediction. *)
Record loss_lists : Type := mk_loss_lists {
  losses_all : list Q;
  losses_lob_prob : list Q;
  losses_bce : list Q
}.

(** The three guarded [append]s after a batch. *)
Definition append_losses (lists : loss_lists) (r : Loss.losses) : loss_lists :=
  let bce := Loss.gt0 (Loss.loss_bce_terms_count r) in
  let tte := Loss.gt0 (Loss.loss_tte_log_prob_terms_count r) in
  mk_loss_lists
    (if bce || tte then losses_all lists ++ [Loss.loss r] else losses_all lists)
    (if tte then losses_lob_prob lists ++ [Loss.loss_tte_log_prob r]
     else losses_lob_prob lists)
    (if bce then losses_bce lists ++ [Loss.loss_bce r] else losses_bce lists).

(** [np.mean] of a list: NaN for the empty list. *)
Definition np_mean (l : list Q) : float :=
  match l with
  | [] => NaN
  | _ => Fin (Loss.tensor_sum l / inject_Z (Z.of_nat (length l)))
  end.

(** [x == 0] on a float. *)
Definition float_eq_zero (x : float) : bool :=
  match x with
  | Fin q => Qeq_bool q 0
  | _ => false
  end.

(** A batch of the loader, of its own number of samples, together with
    what the model predicts for it. *)
Record predicted_batch : Type := mk_predicted_batch {
  pb_samples : nat;
  pb_color_class : list (nat * vec Q pb_samples);
  pb_tte_distr : list (nat * vec (Q * Q) pb_samples);
  pb_batch : Loss.batch pb_samples
}.

Section Epoch.
Variable binary_crossentropy : Q -> Q -> Q.
Variable log_prob : Q * Q -> Q -> py float.

(** The validation loop of an epoch (lines 614-695). *)
Definition validation_losses (dataloader_val : list predicted_batch) : py loss_lists :=
  py_foldM
    (fun lists pb =>
       do r <~ Loss.validate binary_crossentropy log_prob
                 (pb_color_class pb) (pb_tte_distr pb) (pb_batch pb);
       Ok (append_losses lists r))
    dataloader_val (mk_loss_lists [] [] []).

(** [loss_val_mean] (line 697) and the test [loss_val_mean == 0] of
    line 703. *)
Definition loss_val_mean (dataloader_val : list predicted_batch) : py float :=
  do lists <~ validation_losses dataloader_val;
  Ok (np_mean (losses_all lists)).

Definition loss_val_mean_is_zero (dataloader_val : list predicted_batch) : py bool :=
  do m <~ loss_val_mean dataloader_val;
  Ok (float_eq_zero m).

End Epoch.

(** The batch holds every signal predicted for it, the library accepts
    its labels, and it does not consist of a single sample. *)
Definition batch_passes (log_prob : Q * Q -> Q -> py float) (pb : predicted_batch) : Prop :=
  signals_in_batch (Loss.all_true_classes (pb_batch pb))
                   (Loss.classes_availabilities (pb_batch pb)) (pb_color_class pb)
  /\ signals_in_batch (Loss.all_tte (pb_batch pb))
                      (Loss.tte_availabilities (pb_batch pb)) (pb_tte_distr pb)
  /\ log_prob_returns log_prob (pb_batch pb) (pb_tte_distr pb)
  /\ pb_samples pb <> 1%nat.

(** Whether a batch has an available colour label, an available
    time-to-event label. *)
Definition has_class_label (pb : predicted_batch) : bool :=
  negb (available_labels (Loss.classes_availabilities (pb_batch pb)) (pb_color_class pb)
        =? 0)%nat.

Definition has_tte_label (pb : predicted_batch) : bool :=
  negb (available_labels (Loss.tte_availabilities (pb_batch pb)) (pb_tte_distr pb)
        =? 0)%nat.

(** Two label dictionaries coincide, for every signal visited,
    wherever the availability flag is set. *)
Definition same_where_available {V : Type} {B : nat} (d1 d2 : gmap nat (vec Q B))
    (avail : gmap nat (vec bool B)) (items : list (nat * V)) : Prop :=
  forall (item : nat * V) (i : nat) (y1 y2 : Q),
    In item items ->
    entries d1 (fst item) !! i = Some y1 ->
    entries d2 (fst item) !! i = Some y2 ->
    entries avail (fst item) !! i = Some true ->
    y1 = y2.

(** The five numbers of two steps are equal as rationals. *)
Definition losses_equal (r1 r2 : Loss.losses) : Prop :=
  (Loss.loss_bce r1 == Loss.loss_bce r2)%Q
  /\ (Loss.loss_bce_terms_count r1 == Loss.loss_bce_terms_count r2)%Q
  /\ (Loss.loss_tte_log_prob r1 == Loss.loss_tte_log_prob r2)%Q
  /\ (Loss.loss_tte_log_prob_terms_count r1 == Loss.loss_tte_log_prob_terms_count r2)%Q
  /\ (Loss.loss r1 == Loss.loss r2)%Q.

(** The example batch with other numbers in the unavailable places. *)
Definition example_batch_other_sentinels : Loss.batch 2 :=
  Loss.mk_batch
    {[ 7%nat := [# 1%Q; 1%Q]; 9%nat := [# 1%Q; 0%Q] ]}
    {[ 7%nat := [# (5 # 2)%Q; 3%Q]; 9%nat := [# 0%Q; 1%Q] ]}
    {[ 7%nat := [# true; false]; 9%nat := [# false; false] ]}
    {[ 7%nat := [# true; false]; 9%nat := [# false; false] ]}.

(** A batch of two samples without any label. *)
Definition unlabelled_batch : Loss.batch 2 :=
  Loss.mk_batch
    {[ 7%nat := [# 0%Q; 0%Q]; 9%nat := [# 0%Q; 0%Q] ]}
    {[ 7%nat := [# 99%Q; 99%Q]; 9%nat := [# 99%Q; 99%Q] ]}
    {[ 7%nat := [# false; false]; 9%nat := [# false; false] ]}
    {[ 7%nat := [# false; false]; 9%nat := [# false; false] ]}.

(** A validation set of two batches, the second without labels. *)
Definition example_dataloader_val : list predicted_batch :=
  [ mk_predicted_batch 2 example_colors example_distrs example_batch;
    mk_predicted_batch 2 example_colors example_distrs unlabelled_batch ].

(** A batch of one labelled sample, as the loader yields it last when
    the number of samples leaves a remainder of 1, with the model's
    output for it. *)
Definition one_sample_batch : Loss.batch 1 :=
  Loss.mk_batch
    {[ 7%nat := [# 1%Q] ]}
    {[ 7%nat := [# (5 # 2)%Q] ]}
    {[ 7%nat := [# true] ]}
    {[ 7%nat := [# true] ]}.

Definition one_sample_colors : list (nat * vec Q 1) := [ (7%nat, [# (9 # 10)%Q]) ].

Definition one_sample_distrs : list (nat * vec (Q * Q) 1) := [ (7%nat, [# (2%Q, 3%Q)]) ].

(* ===================================================================== *)
(** * Part II.  Properties *)
(* ===================================================================== *)

(** ** Python helpers *)

Lemma len_nonneg {A : Type} (l : list A) : 0 <= len l.
Proof. unfold len. lia. Qed.

Lemma iloc_in_range {A : Type} (s : list A) (i : Z) (a : A) :
  0 <= i -> s !! Z.to_nat i = Some a -> iloc s i = Ok a.
Proof.
  intros Hi Hs. unfold iloc.
  pose proof (lookup_lt_Some _ _ _ Hs) as Hlt.
  replace (i <? 0) with false by (symmetry; apply Z.ltb_ge; lia).
  replace ((0 <=? i) && (i <? len s)) with true.
  - now rewrite Hs.
  - symmetry. apply andb_true_iff. split; [apply Z.leb_le | apply Z.ltb_lt]; unfold len; lia.
Qed.

Lemma iloc_Ok_inv {A : Type} (s : list A) (i : Z) (a : A) :
  0 <= i -> iloc s i = Ok a -> s !! Z.to_nat i = Some a.
Proof.
  intros Hi. unfold iloc.
  replace (i <? 0) with false by (symmetry; apply Z.ltb_ge; lia).
  destruct ((0 <=? i) && (i <? len s)); [| discriminate].
  destruct (s !! Z.to_nat i); [| discriminate]. now intros [= ->].
Qed.

Lemma py_mapM_Ok {A B : Type} (f : A -> py B) (g : A -> B) (l : list A) :
  (forall a, In a l -> f a = Ok (g a)) -> py_mapM f l = Ok (map g l).
Proof.
  induction l as [| a l IH]; intros H; simpl; [reflexivity |].
  rewrite (H a) by now left. simpl.
  rewrite IH by (intros; apply H; now right). reflexivity.
Qed.

Lemma range_length (n : Z) : length (range n) = Z.to_nat n.
Proof. unfold range. now rewrite length_map, length_seq. Qed.

Lemma range_lookup (n : Z) (i : nat) :
  (i < Z.to_nat n)%nat -> range n !! i = Some (Z.of_nat i).
Proof.
  intros H. unfold range. rewrite list_lookup_fmap.
  rewrite lookup_seq_lt by exact H. reflexivity.
Qed.

Lemma In_range (n i : Z) : In i (range n) <-> 0 <= i < n.
Proof.
  unfold range. rewrite in_map_iff. split.
  - intros (k & <- & Hk). apply in_seq in Hk. lia.
  - intros H. exists (Z.to_nat i). split; [lia |]. apply in_seq. lia.
Qed.

(** ** Valid history length *)

Section ValidHistLen.
Variable ct : list bool.
(** The first row of a table has no predecessor. *)
Hypothesis head_not_continuous : forall b, ct !! 0%nat = Some b -> b = false.

Lemma last_valid_idx_loop_spec (fuel : nat) (row_i : Z) :
  row_i < len ct ->
  forall last,
    0 <= last <= row_i ->
    row_i - last <= HIST_LEN_FRAMES - 1 ->
    (Z.to_nat (HIST_LEN_FRAMES - 1 - (row_i - last)) < fuel)%nat ->
    (forall m, last < m <= row_i -> ct !! Z.to_nat m = Some true) ->
    exists l',
      last_valid_idx_loop fuel ct row_i last = Ok l'
      /\ 0 <= l' <= last
      /\ row_i - l' <= HIST_LEN_FRAMES - 1
      /\ (forall m, l' < m <= row_i -> ct !! Z.to_nat m = Some true)
      /\ (row_i - l' < HIST_LEN_FRAMES - 1 -> ct !! Z.to_nat l' = Some false).
Proof.
  intros Hrow. unfold HIST_LEN_FRAMES.
  induction fuel as [| fuel IH]; intros last Hlast Hcap Hfuel Hrun; [lia |].
  cbn [last_valid_idx_loop]. unfold HIST_LEN_FRAMES.
  destruct (row_i - last + 1 <? 100) eqn:Hlt.
  - apply Z.ltb_lt in Hlt.
    destruct (lookup_lt_is_Some_2 ct (Z.to_nat last)) as [c Hc];
      [unfold len in Hrow; lia |].
    rewrite (iloc_in_range ct last c) by (lia || exact Hc).
    cbn [py_bind]. destruct c.
    + assert (last <> 0) as Hnz.
      { intros ->. apply head_not_continuous in Hc. discriminate. }
      destruct (IH (last - 1)) as (l' & Hl' & Hb & Hc' & Hall & Hstop); try lia.
      * intros m Hm. destruct (Z.eq_dec m last) as [-> | Hne]; [exact Hc |].
        apply Hrun. lia.
      * exists l'. repeat split; try lia; assumption.
    + exists last. repeat split; try lia; try assumption. intros _. exact Hc.
  - apply Z.ltb_ge in Hlt. exists last. repeat split; try lia. exact Hrun.
Qed.

Lemma valid_hist_len_at_spec (row_i : Z) :
  0 <= row_i < len ct ->
  exists v,
    valid_hist_len_at ct row_i = Ok v
    /\ 0 <= v <= row_i
    /\ v <= HIST_LEN_FRAMES - 1
    /\ (forall d, 0 <= d < v -> ct !! Z.to_nat (row_i - d) = Some true)
    /\ (v < HIST_LEN_FRAMES - 1 -> ct !! Z.to_nat (row_i - v) = Some false).
Proof.
  intros Hrow. unfold valid_hist_len_at.
  destruct (last_valid_idx_loop_spec (Z.to_nat HIST_LEN_FRAMES) row_i (proj2 Hrow) row_i)
    as (l' & -> & Hb & Hcap & Hall & Hstop);
    try (unfold HIST_LEN_FRAMES; lia).
  cbn [py_bind]. exists (row_i - l'). split; [reflexivity |].
  split; [lia |]. split; [lia |]. split.
  - intros d Hd. apply Hall. lia.
  - intros Hv. replace (row_i - (row_i - l')) with l' by lia. apply Hstop. lia.
Qed.

Lemma continuous_run_ge (v i : nat) :
  (v <= S i)%nat ->
  (forall d, (d < v)%nat -> ct !! (i - d)%nat = Some true) ->
  (v <= continuous_run ct i)%nat.
Proof.
  revert i. induction v as [| v IH]; intros i Hv Hall; [lia |].
  pose proof (Hall 0%nat ltac:(lia)) as H0. rewrite Nat.sub_0_r in H0.
  destruct i as [| i]; cbn [continuous_run]; rewrite H0; [lia |].
  apply le_n_S, IH; [lia |].
  intros d Hd. specialize (Hall (S d) ltac:(lia)). exact Hall.
Qed.

Lemma continuous_run_eq (v i : nat) :
  (v <= i)%nat ->
  (forall d, (d < v)%nat -> ct !! (i - d)%nat = Some true) ->
  ct !! (i - v)%nat = Some false ->
  continuous_run ct i = v.
Proof.
  revert i. induction v as [| v IH]; intros i Hv Hall Hstop.
  - rewrite Nat.sub_0_r in Hstop. destruct i; cbn [continuous_run]; now rewrite Hstop.
  - destruct i as [| i]; [lia |].
    pose proof (Hall 0%nat ltac:(lia)) as H0. rewrite Nat.sub_0_r in H0.
    cbn [continuous_run]. rewrite H0. f_equal. apply IH; [lia | | exact Hstop].
    intros d Hd. specialize (Hall (S d) ltac:(lia)). exact Hall.
Qed.

Lemma valid_hist_len_at_run (row_i v : Z) :
  0 <= row_i < len ct ->
  valid_hist_len_at ct row_i = Ok v ->
  v = Z.min (Z.of_nat (continuous_run ct (Z.to_nat row_i))) (HIST_LEN_FRAMES - 1).
Proof.
  intros Hrow Hv.
  destruct (valid_hist_len_at_spec row_i Hrow) as (v' & Hv' & Hb & Hcap & Hall & Hstop).
  rewrite Hv in Hv'. injection Hv' as <-.
  assert (forall d, (d < Z.to_nat v)%nat ->
                    ct !! (Z.to_nat row_i - d)%nat = Some true) as Hall'.
  { intros d Hd. rewrite <- (Hall (Z.of_nat d)) by lia. f_equal. lia. }
  destruct (Z_lt_dec v (HIST_LEN_FRAMES - 1)) as [Hlt | Hge].
  - rewrite (continuous_run_eq (Z.to_nat v) (Z.to_nat row_i)); try lia; try assumption.
    rewrite <- (Hstop Hlt). f_equal. lia.
  - pose proof (continuous_run_ge (Z.to_nat v) (Z.to_nat row_i) ltac:(lia) Hall'). lia.
Qed.

End ValidHistLen.

Lemma continuous_run_flag_false (ct : list bool) (i : nat) :
  ct !! i = Some false -> continuous_run ct i = 0%nat.
Proof. intros H. destruct i; cbn [continuous_run]; now rewrite H. Qed.

(** The column that [compute_last_valid_idx_for_seq] stores, row by row. *)
Lemma valid_hist_len_rows (tl_events_df : list row) :
  (forall r, tl_events_df !! 0%nat = Some r -> continuous_time r = false) ->
  exists df',
    compute_last_valid_idx_for_seq tl_events_df = Ok df'
    /\ length df' = length tl_events_df
    /\ forall (i : nat) (r : row),
        tl_events_df !! i = Some r ->
        exists v,
          df' !! i = Some (set_valid_hist_len r v)
          /\ (continuous_time r = false -> v = 0)
          /\ v = Z.min (Z.of_nat (continuous_run (map continuous_time tl_events_df) i))
                       (HIST_LEN_FRAMES - 1)
          /\ (forall d, (d < Z.to_nat v)%nat ->
                        exists r', tl_events_df !! (i - d)%nat = Some r'
                                   /\ continuous_time r' = true)
          /\ 0 <= v <= Z.of_nat i
          /\ v + 1 <= HIST_LEN_FRAMES.
Proof.
  intros Hhead.
  set (ct := map continuous_time tl_events_df).
  assert (forall b, ct !! 0%nat = Some b -> b = false) as Hct.
  { intros b. unfold ct. rewrite list_lookup_fmap.
    destruct (tl_events_df !! 0%nat) as [r |] eqn:Hr; [| discriminate].
    cbn. intros [= <-]. now apply Hhead. }
  assert (len ct = len tl_events_df) as Hlen by (unfold len, ct; now rewrite length_map).
  set (g := fun i => match valid_hist_len_at ct i with Ok v => v | _ => 0 end).
  assert (py_mapM (valid_hist_len_at ct) (range (len tl_events_df))
          = Ok (map g (range (len tl_events_df)))) as Hcol.
  { apply py_mapM_Ok. intros a Ha. apply In_range in Ha.
    destruct (valid_hist_len_at_spec ct Hct a) as (v & Hv & _); [lia |].
    unfold g. now rewrite Hv. }
  unfold compute_last_valid_idx_for_seq. fold ct. rewrite Hcol. cbn [py_bind].
  eexists. split; [reflexivity |]. split.
  { rewrite length_zip_with, length_map, range_length. unfold len. lia. }
  intros i r Hr.
  pose proof (lookup_lt_Some _ _ _ Hr) as Hi.
  assert (0 <= Z.of_nat i < len ct) as Hrow by (rewrite Hlen; unfold len; lia).
  destruct (valid_hist_len_at_spec ct Hct (Z.of_nat i) Hrow)
    as (v & Hv & Hb & Hcap & Hall & Hstop).
  exists v. split.
  { rewrite lookup_zip_with, Hr. cbn.
    rewrite list_lookup_fmap, range_lookup by (unfold len; lia).
    cbn. unfold g. now rewrite Hv. }
  split.
  { intros Hfalse.
    pose proof (valid_hist_len_at_run ct Hct (Z.of_nat i) v Hrow Hv) as Hmin.
    rewrite Nat2Z.id in Hmin.
    rewrite (continuous_run_flag_false ct i) in Hmin.
    - unfold HIST_LEN_FRAMES in Hmin. lia.
    - unfold ct. rewrite list_lookup_fmap, Hr. cbn. now rewrite Hfalse. }
  split.
  { pose proof (valid_hist_len_at_run ct Hct (Z.of_nat i) v Hrow Hv) as Hmin.
    now rewrite Nat2Z.id in Hmin. }
  split.
  { intros d Hd. specialize (Hall (Z.of_nat d) ltac:(lia)).
    replace (Z.to_nat (Z.of_nat i - Z.of_nat d)) with (i - d)%nat in Hall by lia.
    unfold ct in Hall. rewrite list_lookup_fmap in Hall.
    destruct (tl_events_df !! (i - d)%nat) as [r' |]; [| discriminate].
    exists r'. split; [reflexivity |]. cbn in Hall. congruence. }
  split; [lia |]. unfold HIST_LEN_FRAMES in *. lia.
Qed.

(** C4.  On a table whose first row is not flagged continuous, the
    computation of the valid history length returns, and the column
    [valid_hist_len] of the table it leaves holds, for every row: 0 when
    the continuity flag of the row is false; the number of rows met
    walking backward while the flag holds, capped at
    [HIST_LEN_FRAMES - 1], so that these rows plus the target row are at
    most [HIST_LEN_FRAMES] = 100 frames.  No row is added or lost and
    every other column keeps its value. *)
Theorem valid_hist_len_computed (tl_events_df : list row) :
  (forall r, tl_events_df !! 0%nat = Some r -> continuous_time r = false) ->
  exists df',
    compute_last_valid_idx_for_seq tl_events_df = Ok df'
    /\ length df' = length tl_events_df
    /\ forall (i : nat) (r : row),
        tl_events_df !! i = Some r ->
        exists (r' : row) (v : Z),
          df' !! i = Some r'
          /\ valid_hist_len r' = v
          /\ same_but_valid_hist_len r r'
          /\ (continuous_time r = false -> v = 0)
          /\ v = Z.min (Z.of_nat (continuous_run (map continuous_time tl_events_df) i))
                       (HIST_LEN_FRAMES - 1)
          /\ (forall d, (d < Z.to_nat v)%nat ->
                        exists p, tl_events_df !! (i - d)%nat = Some p
                                  /\ continuous_time p = true)
          /\ 0 <= v <= Z.of_nat i
          /\ v + 1 <= HIST_LEN_FRAMES.
Proof.
  intros Hhead.
  destruct (valid_hist_len_rows tl_events_df Hhead) as (df' & Hrun & Hlen & Hrows).
  exists df'. split; [exact Hrun |]. split; [exact Hlen |].
  intros i r Hr.
  destruct (Hrows i r Hr) as (v & Hv & Hflag & Hmin & Hwalk & Hbound & Hcap).
  exists (set_valid_hist_len r v), v.
  split; [exact Hv |]. split; [reflexivity |].
  split; [repeat split |].
  split; [exact Hflag |]. split; [exact Hmin |]. split; [exact Hwalk |].
  split; [exact Hbound | exact Hcap].
Qed.

(** ** The valid-window selector *)

Lemma decode_encode_len_continuity (records_len : Z) (c : bool) :
  decode_len_continuity (encode_len_continuity records_len c) = (1 <=? records_len, c).
Proof.
  unfold decode_len_continuity, encode_len_continuity.
  destruct (1 <=? records_len), c; reflexivity.
Qed.

Lemma scan_from_end_one (l : list Z) :
  scan_from_end l = 1 <->
  exists (k : nat) (num : Z),
    l !! k = Some num
    /\ fst (decode_len_continuity num) = true
    /\ forall m : nat, (m <= k)%nat ->
         exists num', l !! m = Some num' /\ snd (decode_len_continuity num') = true.
Proof.
  induction l as [| num older IH]; cbn [scan_from_end].
  - split; [discriminate |]. intros (k & n & Hk & _). discriminate.
  - destruct (decode_len_continuity num) as [ne c] eqn:Hd.
    destruct c; cbn [negb].
    + destruct ne.
      * split; [intros _ | reflexivity].
        exists 0%nat, num. split; [reflexivity |]. split; [now rewrite Hd |].
        intros m Hm. assert (m = 0%nat) as -> by lia.
        exists num. split; [reflexivity | now rewrite Hd].
      * rewrite IH. split.
        -- intros (k & n & Hk & Hne & Hall). exists (S k), n. repeat split; try assumption.
           intros [| m] Hm.
           ++ exists num. split; [reflexivity | now rewrite Hd].
           ++ apply Hall. lia.
        -- intros (k & n & Hk & Hne & Hall). destruct k as [| k].
           ++ cbn in Hk. injection Hk as <-. rewrite Hd in Hne. discriminate.
           ++ exists k, n. repeat split; try assumption.
              intros m Hm. apply (Hall (S m)). lia.
    + split; [discriminate |]. intros (k & n & _ & _ & Hall).
      destruct (Hall 0%nat ltac:(lia)) as (n' & Hn' & Hc). cbn in Hn'.
      injection Hn' as <-. rewrite Hd in Hc. discriminate.
Qed.

Lemma rev_as_reverse {A : Type} (l : list A) : rev l = reverse l.
Proof. unfold reverse. apply rev_alt. Qed.

(** The rolling window of position [i], read from its end. *)
Lemma rolling_window_rev_lookup {A : Type} (s : list A) (w : Z) (i k : nat) (x : A) :
  (i < length s)%nat ->
  rev (iloc_slice s (Z.max 0 (Z.of_nat i - w + 1)) (Z.of_nat i + 1)) !! k = Some x
  <-> (k <= i)%nat /\ Z.of_nat k < w /\ s !! (i - k)%nat = Some x.
Proof.
  intros Hi. unfold iloc_slice, slice_bound, len.
  set (a := Z.max 0 (Z.of_nat i - w + 1)).
  replace (a <? 0) with false by (symmetry; apply Z.ltb_ge; lia).
  replace (Z.of_nat i + 1 <? 0) with false by (symmetry; apply Z.ltb_ge; lia).
  rewrite rev_as_reverse, reverse_lookup_Some, lookup_take_Some, lookup_drop.
  rewrite length_take, length_drop.
  destruct (Z_le_dec (Z.of_nat i - w + 1) 0) as [Hle | Hgt].
  - assert (a = 0) as -> by lia.
    split.
    + intros ((Hx & _) & Hk). repeat split; try lia.
      rewrite <- Hx. f_equal. lia.
    + intros (Hk & Hw & Hx). repeat split; try lia.
      rewrite <- Hx. f_equal. lia.
  - assert (a = Z.of_nat i - w + 1) as -> by lia.
    split.
    + intros ((Hx & _) & Hk). repeat split; try lia.
      rewrite <- Hx. f_equal. lia.
    + intros (Hk & Hw & Hx). repeat split; try lia.
      rewrite <- Hx. f_equal. lia.
Qed.

Lemma len_continuity_non_empty (r : row) :
  fst (decode_len_continuity (len_continuity r)) = true <-> rnn_inputs_raw r <> [].
Proof.
  unfold len_continuity. rewrite decode_encode_len_continuity. cbn [fst].
  rewrite Z.leb_le. unfold len. destruct (rnn_inputs_raw r); cbn [length]; split;
    intros H; try lia; try congruence; try discriminate.
Qed.

Lemma len_continuity_continuous (r : row) :
  snd (decode_len_continuity (len_continuity r)) = continuous_time r.
Proof. unfold len_continuity. now rewrite decode_encode_len_continuity. Qed.

Lemma present_iff_window_valid (df : list row) (w : Z) (i : nat) :
  (i < length df)%nat ->
  is_nonempty_input_present
    (iloc_slice (map len_continuity df) (Z.max 0 (Z.of_nat i - w + 1)) (Z.of_nat i + 1)) = 1
  <-> window_valid df w i.
Proof.
  intros Hi. unfold is_nonempty_input_present. rewrite scan_from_end_one.
  assert (i < length (map len_continuity df))%nat as Hi' by now rewrite length_map.
  split.
  - intros (k & num & Hk & Hne & Hall).
    apply (rolling_window_rev_lookup _ w i k num Hi') in Hk as (Hki & Hkw & Hx).
    rewrite list_lookup_fmap in Hx.
    destruct (df !! (i - k)%nat) as [r |] eqn:Hr; [| discriminate].
    cbn in Hx. injection Hx as <-.
    exists (i - k)%nat. split; [lia |]. split; [lia |]. split.
    + exists r. split; [exact Hr |]. now apply len_continuity_non_empty.
    + intros m Hm. destruct (Hall (i - m)%nat ltac:(lia)) as (num' & Hn' & Hc).
      apply (rolling_window_rev_lookup _ w i _ num' Hi') in Hn' as (_ & _ & Hx).
      replace (i - (i - m))%nat with m in Hx by lia.
      rewrite list_lookup_fmap in Hx.
      destruct (df !! m) as [r' |] eqn:Hr'; [| discriminate].
      cbn in Hx. injection Hx as <-.
      exists r'. split; [exact Hr' |]. now rewrite <- len_continuity_continuous.
  - intros (j & Hji & Hjw & (r & Hr & Hne) & Hall).
    exists (i - j)%nat, (len_continuity r). split.
    { apply (rolling_window_rev_lookup _ w i _ _ Hi'). repeat split; try lia.
      replace (i - (i - j))%nat with j by lia.
      now rewrite list_lookup_fmap, Hr. }
    split; [now apply len_continuity_non_empty |].
    intros m Hm. destruct (Hall (i - m)%nat ltac:(lia)) as (r' & Hr' & Hc).
    exists (len_continuity r'). split.
    + apply (rolling_window_rev_lookup _ w i _ _ Hi'). repeat split; try lia.
      now rewrite list_lookup_fmap, Hr'.
    + now rewrite len_continuity_continuous.
Qed.

Lemma In_boolean_index {A : Type} (xs : list A) (mask : list bool) (x : A) :
  In x (boolean_index xs mask)
  <-> exists k : nat, xs !! k = Some x /\ mask !! k = Some true.
Proof.
  revert mask. induction xs as [| y xs IH]; intros mask.
  - cbn. split; [tauto |]. intros (k & Hk & _). discriminate.
  - destruct mask as [| m mask].
    + cbn. split; [tauto |]. intros (k & _ & Hk). discriminate.
    + cbn [boolean_index]. destruct m.
      * cbn [In]. rewrite IH. split.
        -- intros [-> | (k & Hk & Hm)]; [now exists 0%nat | now exists (S k)].
        -- intros ([| k] & Hk & Hm); cbn in Hk, Hm.
           ++ left. congruence.
           ++ right. now exists k.
      * rewrite IH. split.
        -- intros (k & Hk & Hm). now exists (S k).
        -- intros ([| k] & Hk & Hm); cbn in Hk, Hm; [discriminate | now exists k].
Qed.

Lemma range_lookup_Some (n : Z) (k : nat) (x : Z) :
  range n !! k = Some x <-> x = Z.of_nat k /\ (k < Z.to_nat n)%nat.
Proof.
  split.
  - intros H. pose proof (lookup_lt_Some _ _ _ H) as Hk. rewrite range_length in Hk.
    rewrite range_lookup in H by exact Hk. split; [congruence | exact Hk].
  - intros [-> Hk]. now apply range_lookup.
Qed.

Lemma labelled_iff (r : row) :
  (0 <? Z.of_nat (size (tl_signal_classes r))) = true <-> tl_signal_classes r <> ∅.
Proof.
  rewrite Z.ltb_lt, <- map_size_non_empty_iff. lia.
Qed.

(** What the selector returns for any window size it accepts. *)
Lemma get_valid_indices_spec (df : list row) (history_len_records : Z) (is_inference : bool) :
  1 <= history_len_records - 1 ->
  exists idxs,
    get_valid_indices df history_len_records is_inference = Ok idxs
    /\ forall i : Z,
        In i idxs
        <-> 0 <= i < len df
            /\ window_valid df (history_len_records - 1) (Z.to_nat i)
            /\ (has_label df (Z.to_nat i) \/ is_inference = true).
Proof.
  intros Hw. unfold get_valid_indices, rolling_agg.
  replace (history_len_records - 1 <? 1) with false by (symmetry; apply Z.ltb_ge; lia).
  cbn [py_bind]. eexists. split; [reflexivity |].
  intros i. rewrite In_boolean_index.
  change (map (fun r => encode_len_continuity (len (rnn_inputs_raw r)) (continuous_time r)) df)
    with (map len_continuity df).
  assert (len (map len_continuity df) = len df) as Hlen
      by (unfold len; now rewrite length_map).
  rewrite Hlen.
  split.
  - intros (k & Hk & Hm).
    apply range_lookup_Some in Hk as [-> Hk].
    apply lookup_zip_with_Some in Hm as (r & p & Hrp & Hr & Hp).
    rewrite list_lookup_fmap, range_lookup in Hp by exact Hk.
    cbn in Hp. injection Hp as <-.
    symmetry in Hrp. apply andb_true_iff in Hrp as [Hlab Hpres].
    apply Z.eqb_eq in Hpres.
    pose proof (lookup_lt_Some _ _ _ Hr) as Hkdf.
    rewrite Nat2Z.id. split; [unfold len; lia |]. split.
    + now apply present_iff_window_valid.
    + apply orb_true_iff in Hlab as [Hlab | Hinf]; [left | now right].
      exists r. split; [exact Hr |]. now apply labelled_iff.
  - intros (Hi & Hwin & Hlab).
    exists (Z.to_nat i).
    assert (Z.to_nat i < length df)%nat as Hkdf by (unfold len in Hi; lia).
    destruct (lookup_lt_is_Some_2 df (Z.to_nat i) Hkdf) as [r Hr].
    split.
    + apply range_lookup_Some. unfold len. split; lia.
    + apply lookup_zip_with_Some. eexists r, _. split; [| split; [exact Hr |]].
      2:{ rewrite list_lookup_fmap, range_lookup by (unfold len; lia). reflexivity. }
      symmetry. apply andb_true_iff. split.
      * apply orb_true_iff. destruct Hlab as [(r' & Hr' & Hne) | Hinf]; [left | now right].
        rewrite Hr in Hr'. injection Hr' as <-. now apply labelled_iff.
      * apply Z.eqb_eq. now apply present_iff_window_valid.
Qed.

(** C3, as worded: a row that has a token and whose own continuity flag
    is false would be a valid sample.  The selector tests the flag of a
    row before its tokens: for the table of one labelled row with one
    token (the first row of a table is never continuous) it returns no
    valid index, although the worded condition holds for row 0. *)
Lemma selector_same_position_counterexample :
  exists idxs,
    get_valid_indices (add_continuous_time one_row_raw) HIST_LEN_FRAMES false = Ok idxs
    /\ ~ (In 0 idxs
          <-> 0 <= 0 < len (add_continuous_time one_row_raw)
              /\ window_valid_same_position (add_continuous_time one_row_raw)
                                            (HIST_LEN_FRAMES - 1) (Z.to_nat 0)
              /\ (has_label (add_continuous_time one_row_raw) (Z.to_nat 0)
                  \/ false = true)).
Proof.
  exists []. split; [vm_compute; reflexivity |].
  intros [_ H]. apply H. clear H.
  split; [vm_compute; split; [discriminate | reflexivity] |].
  split.
  - exists 0%nat. split; [lia |]. split; [vm_compute; reflexivity |]. split.
    + eexists. split; [reflexivity |]. discriminate.
    + intros m Hm. cbn in Hm. lia.
  - left. eexists. split; [reflexivity |]. cbn [tl_signal_classes observed].
    apply map_size_non_empty_iff. vm_compute. lia.
Qed.

(** C3, amended.  With the window size the program uses
    ([HIST_LEN_FRAMES - 1] = 99), a row is a valid sample iff, among the
    last 99 rows up to it, there is a row with a token such that every
    row from that one to the target row, itself included, has its
    continuity flag set, and the row has a labelled signal or the
    selector runs in inference mode.  The three-row table with one
    signal, one token per row and a label on the last row only has
    exactly one valid training sample, its last row, whose history has
    3 tokens before padding. *)
Theorem valid_window_selector :
  (forall (df : list row) (is_inference : bool),
      exists idxs,
        get_valid_indices df HIST_LEN_FRAMES is_inference = Ok idxs
        /\ forall i : Z,
            In i idxs
            <-> 0 <= i < len df
                /\ window_valid df (HIST_LEN_FRAMES - 1) (Z.to_nat i)
                /\ (has_label df (Z.to_nat i) \/ is_inference = true))
  /\ exists ds s,
      training_dataset three_rows_raw 0 [7%nat] = Ok ds
      /\ valid_indices ds = [2]
      /\ __getitem__ ds 0 = Ok s
      /\ seq_len s = 3
      /\ take 3 (tokens_np s) = [UNKNOWN_TOKEN_IDX ds; UNKNOWN_TOKEN_IDX ds; UNKNOWN_TOKEN_IDX ds]
      /\ drop 3 (tokens_np s) = repeat (PAD_TOKEN_IDX ds) 97.
Proof.
  split.
  - intros df is_inference. apply get_valid_indices_spec. unfold HIST_LEN_FRAMES. lia.
  - destruct (training_dataset three_rows_raw 0 [7%nat]) as [ds | |] eqn:Hds;
      [| vm_compute in Hds; discriminate ..].
    destruct (__getitem__ ds 0) as [s | |] eqn:Hs.
    + exists ds, s. split; [reflexivity |].
      revert Hs. vm_compute in Hds. injection Hds as <-.
      intros Hs. vm_compute in Hs. injection Hs as <-.
      repeat split; vm_compute; reflexivity.
    + exfalso. vm_compute in Hds. injection Hds as <-. vm_compute in Hs. discriminate.
    + exfalso. vm_compute in Hds. injection Hds as <-. vm_compute in Hs. discriminate.
Qed.

(** ** Vocabulary *)

Lemma py_foldM_invariant {A S : Type} (P : S -> Prop) (f : S -> A -> py S) (l : list A) :
  (forall s a s', P s -> f s a = Ok s' -> P s') ->
  forall s s', P s -> py_foldM f l s = Ok s' -> P s'.
Proof.
  intros Hstep. induction l as [| a l IH]; intros s s' Hs; cbn [py_foldM].
  - now intros [= <-].
  - destruct (f s a) as [s1 | |] eqn:Hf; cbn [py_bind]; try discriminate.
    apply IH. now apply (Hstep s a).
Qed.

Lemma py_foldM_total {A S : Type} (P : S -> Prop) (f : S -> A -> py S) (l : list A) :
  (forall s a, P s -> exists s', f s a = Ok s' /\ P s') ->
  forall s, P s -> exists s', py_foldM f l s = Ok s' /\ P s'.
Proof.
  intros Hstep. induction l as [| a l IH]; intros s Hs; cbn [py_foldM].
  - now exists s.
  - destruct (Hstep s a Hs) as (s1 & -> & Hs1). cbn [py_bind]. now apply IH.
Qed.

Lemma train_vocab_step_ok (train_vocab term_freq : gmap string Z) (token : string) :
  vocab_ok train_vocab term_freq ->
  exists train_vocab' term_freq',
    train_vocab_step (train_vocab, term_freq) token = Ok (train_vocab', term_freq')
    /\ vocab_ok train_vocab' term_freq'.
Proof.
  intros [Hkeys Hidx]. unfold train_vocab_step.
  destruct (train_vocab !! token) as [i |] eqn:Hv.
  - destruct (proj1 (Hkeys token)) as [f Hf]; [now rewrite Hv |]. rewrite Hf.
    eexists _, _. split; [reflexivity |]. split; [| exact Hidx].
    intros t. rewrite Hkeys. destruct (decide (token = t)) as [<- | Hne].
    + rewrite lookup_insert_eq, Hf. split; eauto.
    + now rewrite lookup_insert_ne.
  - eexists _, _. split; [reflexivity |]. split.
    + intros t. destruct (decide (token = t)) as [<- | Hne].
      * rewrite !lookup_insert_eq. split; eauto.
      * rewrite !lookup_insert_ne by exact Hne. apply Hkeys.
    + intros t i. unfold dict_len. rewrite map_size_insert_None by exact Hv.
      destruct (decide (token = t)) as [<- | Hne].
      * rewrite lookup_insert_eq. intros [= <-]. lia.
      * rewrite lookup_insert_ne by exact Hne. intros Hi.
        apply Hidx in Hi. unfold dict_len in Hi. lia.
Qed.

(** The vocabulary loop never raises, and leaves a vocabulary whose
    indices are below its size and whose frequencies cover its keys. *)
Lemma build_train_vocab_ok (inputs : list (list (string * token_type))) :
  exists train_vocab term_freq,
    build_train_vocab inputs = Ok (train_vocab, term_freq)
    /\ vocab_ok train_vocab term_freq.
Proof.
  unfold build_train_vocab.
  destruct (py_foldM_total (fun st => vocab_ok (fst st) (snd st))
              (fun st rnn_input_raw =>
                 py_foldM (fun st tk => train_vocab_step st (fst tk)) rnn_input_raw st)
              inputs) with (s := ((∅, ∅) : gmap string Z * gmap string Z))
    as ([v f] & Hrun & Hok).
  - intros st frame Hst.
    apply (py_foldM_total (fun st => vocab_ok (fst st) (snd st))); [| exact Hst].
    intros [v f] tk Hvf. cbn [fst snd] in Hvf.
    destruct (train_vocab_step_ok v f (fst tk) Hvf) as (v' & f' & Hstep & Hok).
    exists (v', f'). now split.
  - split.
    + intros t. cbn [fst snd]. rewrite !lookup_empty. split; intros [x Hx]; discriminate.
    + intros t i. cbn [fst]. rewrite lookup_empty. discriminate.
  - exists v, f. now split.
Qed.

(** C9.  A token resolves to the UNKNOWN index whenever it is absent from
    the vocabulary or its recorded frequency is below [min_freq], whether
    or not it has an index; otherwise it resolves to its vocabulary
    index.  The frequency dictionary records every vocabulary token. *)
Theorem token_resolution (self : IntersectionDataset) (token : string) :
  (forall t, is_Some (vocab_term_2_idx self !! t) -> is_Some (vocab_term_2_freq self !! t)) ->
  ((vocab_term_2_idx self !! token = None
    \/ exists f, vocab_term_2_freq self !! token = Some f /\ f < min_freq self) ->
   token_idx_of self token = Ok (UNKNOWN_TOKEN_IDX self))
  /\ (~ (vocab_term_2_idx self !! token = None
         \/ exists f, vocab_term_2_freq self !! token = Some f /\ f < min_freq self) ->
      exists idx, vocab_term_2_idx self !! token = Some idx
                  /\ token_idx_of self token = Ok idx).
Proof.
  intros Hkeys. unfold token_idx_of.
  destruct (vocab_term_2_idx self !! token) as [idx |] eqn:Hv.
  - destruct (Hkeys token) as [f Hf]; [now rewrite Hv |]. rewrite Hf.
    destruct (min_freq self <=? f) eqn:Hle.
    + apply Z.leb_le in Hle. split.
      * intros [Habs | (f' & Hf' & Hlt)]; [discriminate |].
        injection Hf' as <-. lia.
      * intros _. now exists idx.
    + apply Z.leb_gt in Hle. split; [reflexivity |].
      intros Hn. exfalso. apply Hn. right. now exists f.
  - split; [reflexivity |]. intros Hn. exfalso. apply Hn. now left.
Qed.

(** ** The tokenized history *)

Section History.
Variable self : IntersectionDataset.
Hypothesis window_length_nonzero : history_len_records self <> 0.
Hypothesis frequencies_recorded :
  forall t, is_Some (vocab_term_2_idx self !! t) -> is_Some (vocab_term_2_freq self !! t).

Lemma token_idx_of_resolved (token : string) :
  token_idx_of self token = Ok (resolved self token).
Proof.
  unfold resolved, token_idx_of.
  destruct (vocab_term_2_idx self !! token) as [idx |] eqn:Hv; [| reflexivity].
  destruct (frequencies_recorded token) as [f ->]; [now rewrite Hv |].
  now destruct (min_freq self <=? f).
Qed.

Lemma history_token_run (h : history) (ev : string * token_type) :
  history_token self h ev
  = Ok (mk_history (tokens_list h ++ [resolved self (fst ev)])
                   (token_type_ohe_list h ++ [snd ev])
                   (token_timesteps_list h
                      ++ [(inject_Z (timestap h) / inject_Z (history_len_records self))%Q])
                   (timestap h)).
Proof.
  unfold history_token. destruct ev as [token ty].
  replace (history_len_records self =? 0) with false
    by (symmetry; now apply Z.eqb_neq).
  now rewrite token_idx_of_resolved.
Qed.

Lemma history_tokens_run (evs : list (string * token_type)) (h : history) :
  py_foldM (history_token self) evs h
  = Ok (mk_history
          (tokens_list h ++ map (fun ev => resolved self (fst ev)) evs)
          (token_type_ohe_list h ++ map snd evs)
          (token_timesteps_list h
             ++ repeat (inject_Z (timestap h) / inject_Z (history_len_records self))%Q
                       (length evs))
          (timestap h)).
Proof.
  revert h. induction evs as [| ev evs IH]; intros h; cbn [py_foldM].
  - cbn. rewrite !app_nil_r. now destruct h.
  - rewrite history_token_run. cbn [py_bind]. rewrite IH. cbn.
    now rewrite <- !app_assoc.
Qed.

(** The frames of a window whose first frame is [d] rows before the
    target: the counter [timestap] is [d + 1] there. *)
Lemma history_frames_run (F : Z -> list (string * token_type)) (n : nat) :
  forall (d : Z) (h : history),
    timestap h = d + 1 ->
    py_foldM (history_frame self) (map F (distances_from d n)) h
    = Ok (mk_history
            (tokens_list h
               ++ flat_map (fun d => map (fun ev => resolved self (fst ev)) (F d))
                           (distances_from d n))
            (token_type_ohe_list h ++ flat_map (fun d => map snd (F d)) (distances_from d n))
            (token_timesteps_list h
               ++ flat_map (fun d => repeat (recency_weight (history_len_records self) d)
                                            (length (F d)))
                           (distances_from d n))
            (d + 1 - Z.of_nat n)).
Proof.
  induction n as [| n IH]; intros d h Ht; cbn [distances_from map py_foldM flat_map].
  - rewrite !app_nil_r, Z.sub_0_r, <- Ht. now destruct h.
  - unfold history_frame at 1. rewrite history_tokens_run. cbn [py_bind].
    rewrite IH by (cbn; lia). cbn [tokens_list token_type_ohe_list token_timesteps_list].
    rewrite <- !app_assoc. unfold recency_weight at 2. rewrite Ht.
    do 2 f_equal. lia.
Qed.

End History.

Lemma distances_from_length (d : Z) (n : nat) : length (distances_from d n) = n.
Proof. revert d. induction n as [| n IH]; intros d; cbn; [reflexivity | now rewrite IH]. Qed.

Lemma distances_from_lookup (n : nat) :
  forall (d : Z) (k : nat), (k < n)%nat -> distances_from d n !! k = Some (d - Z.of_nat k).
Proof.
  induction n as [| n IH]; intros d k Hk; [lia |].
  destruct k as [| k]; cbn [distances_from].
  - cbn. f_equal. lia.
  - cbn [lookup list_lookup]. rewrite IH by lia. f_equal. lia.
Qed.

Lemma In_distances (vhl d : Z) : 0 <= vhl -> In d (distances vhl) <-> 0 <= d <= vhl.
Proof.
  intros Hv. unfold distances. rewrite <- list_elem_of_In, list_elem_of_lookup. split.
  - intros (k & Hk). pose proof (lookup_lt_Some _ _ _ Hk) as Hlt.
    rewrite distances_from_length in Hlt.
    rewrite distances_from_lookup in Hk by exact Hlt. injection Hk as <-. lia.
  - intros Hd. exists (Z.to_nat (vhl - d)).
    rewrite distances_from_lookup by lia. f_equal. lia.
Qed.

(** The slice of the table that [__getitem__] reads is the list of the
    frames at distances [vhl], ..., 0 from the target row. *)
Lemma window_frames (df : list row) (row_i vhl : Z) :
  0 <= vhl <= row_i -> row_i < len df ->
  iloc_slice (map rnn_inputs_raw df) (row_i - vhl) (row_i + 1)
  = map (frame_at df row_i) (distances vhl).
Proof.
  intros Hv Hrow. unfold iloc_slice, slice_bound, len in *.
  rewrite length_map.
  replace (row_i - vhl <? 0) with false by (symmetry; apply Z.ltb_ge; lia).
  replace (row_i + 1 <? 0) with false by (symmetry; apply Z.ltb_ge; lia).
  replace (Z.min (row_i + 1) (Z.of_nat (length df)) - Z.min (row_i - vhl) (Z.of_nat (length df)))
    with (vhl + 1) by lia.
  replace (Z.min (row_i - vhl) (Z.of_nat (length df))) with (row_i - vhl) by lia.
  apply list_eq. intros k. unfold distances.
  rewrite lookup_take, lookup_drop, !list_lookup_fmap.
  destruct (decide (k < Z.to_nat (vhl + 1))%nat) as [Hk | Hk].
  - rewrite distances_from_lookup by exact Hk. cbn [fmap option_fmap option_map].
    unfold frame_at.
    replace (Z.to_nat (row_i - (vhl - Z.of_nat k))) with (Z.to_nat (row_i - vhl) + k)%nat by lia.
    destruct (lookup_lt_is_Some_2 df (Z.to_nat (row_i - vhl) + k)%nat) as [r Hr]; [lia |].
    now rewrite Hr.
  - rewrite (lookup_ge_None_2 (distances_from vhl (Z.to_nat (vhl + 1))) k);
      [reflexivity | rewrite distances_from_length; lia].
Qed.

Lemma max_events_per_timestamp_nonneg (df : list row) : 0 <= max_events_per_timestamp df.
Proof.
  unfold max_events_per_timestamp. induction df as [| r df IH]; cbn; lia.
Qed.

Lemma max_events_per_timestamp_ge (df : list row) (j : nat) (r : row) :
  df !! j = Some r -> len (rnn_inputs_raw r) <= max_events_per_timestamp df.
Proof.
  unfold max_events_per_timestamp. revert j.
  induction df as [| r' df IH]; intros j Hj; [discriminate |].
  destruct j as [| j]; cbn in Hj |- *.
  - injection Hj as ->. lia.
  - specialize (IH j Hj). lia.
Qed.

Lemma frame_at_length (df : list row) (row_i d : Z) :
  len (frame_at df row_i d) <= max_events_per_timestamp df.
Proof.
  unfold frame_at. destruct (df !! Z.to_nat (row_i - d)) as [r |] eqn:Hr.
  - exact (max_events_per_timestamp_ge df _ r Hr).
  - apply max_events_per_timestamp_nonneg.
Qed.

Lemma flat_map_length_le {A B : Type} (f : A -> list B) (l : list A) (m : Z) :
  (forall a, len (f a) <= m) -> len (flat_map f l) <= len l * m.
Proof.
  intros Hf. unfold len in *. induction l as [| a l IH]; cbn [flat_map length]; [lia |].
  rewrite length_app. specialize (Hf a). lia.
Qed.

Lemma window_tokens_length (self : IntersectionDataset) (row_i vhl : Z) :
  0 <= vhl ->
  len (window_tokens self row_i vhl)
  <= (vhl + 1) * max_events_per_timestamp (tl_events_df self).
Proof.
  intros Hv. unfold window_tokens.
  etransitivity; [apply flat_map_length_le with (m := max_events_per_timestamp (tl_events_df self)) |].
  - intros d. unfold len. rewrite length_map. apply frame_at_length.
  - unfold len, distances. rewrite distances_from_length.
    pose proof (max_events_per_timestamp_nonneg (tl_events_df self)). nia.
Qed.

Lemma window_lengths (self : IntersectionDataset) (row_i vhl : Z) :
  length (window_types self row_i vhl) = length (window_tokens self row_i vhl)
  /\ length (window_weights self row_i vhl) = length (window_tokens self row_i vhl).
Proof.
  unfold window_types, window_weights, window_tokens.
  induction (distances vhl) as [| d l [IH1 IH2]]; cbn [flat_map]; [split; reflexivity |].
  rewrite !length_app, !length_map, repeat_length, IH1, IH2. split; reflexivity.
Qed.

Lemma window_tokens_nonempty (self : IntersectionDataset) (row_i vhl d : Z) :
  0 <= d <= vhl -> frame_at (tl_events_df self) row_i d <> [] ->
  window_tokens self row_i vhl <> [].
Proof.
  intros Hd Hne Hnil. unfold window_tokens in Hnil.
  assert (In d (distances vhl)) as Hin by (apply In_distances; lia).
  destruct (frame_at (tl_events_df self) row_i d) as [| ev evs] eqn:Hf; [congruence |].
  assert (In (resolved self (fst ev))
             (flat_map (fun d => map (fun ev => resolved self (fst ev))
                                     (frame_at (tl_events_df self) row_i d))
                       (distances vhl))) as Hx.
  { apply in_flat_map. exists d. split; [exact Hin |]. rewrite Hf. now left. }
  rewrite Hnil in Hx. exact Hx.
Qed.

Lemma recency_weight_increasing (hlr d d' : Z) :
  0 < hlr -> d < d' -> (recency_weight hlr d < recency_weight hlr d')%Q.
Proof.
  intros Hh Hd. unfold recency_weight.
  apply Qmult_lt_compat_r.
  - apply Qinv_lt_0_compat. change 0%Q with (inject_Z 0). now rewrite <- Zlt_Qlt.
  - rewrite <- Zlt_Qlt. lia.
Qed.

Lemma pad_tokens (pad_idx n : Z) :
  map (fun o => pad_idx * o) (np_ones n) = repeat pad_idx (Z.to_nat n).
Proof.
  unfold np_ones. induction (Z.to_nat n) as [| k IH]; cbn; [reflexivity |].
  rewrite IH. f_equal. lia.
Qed.

Lemma iloc_column {A : Type} (f : row -> A) (df : list row) (row_i : Z) (r : row) :
  0 <= row_i -> df !! Z.to_nat row_i = Some r -> iloc (map f df) row_i = Ok (f r).
Proof.
  intros Hi Hr. apply iloc_in_range; [exact Hi |].
  now rewrite list_lookup_fmap, Hr.
Qed.

(** What [__getitem__] returns for a row whose history window lies in
    the table, fits the window length and holds a token. *)
Lemma getitem_run (self : IntersectionDataset) (index row_i : Z) (r : row) :
  history_events_max self
    = history_len_records self * max_events_per_timestamp (tl_events_df self) ->
  iloc (valid_indices self) index = Ok row_i ->
  0 <= row_i ->
  tl_events_df self !! Z.to_nat row_i = Some r ->
  0 <= valid_hist_len r <= row_i ->
  valid_hist_len r < history_len_records self ->
  (forall t, is_Some (vocab_term_2_idx self !! t) -> is_Some (vocab_term_2_freq self !! t)) ->
  window_tokens self row_i (valid_hist_len r) <> [] ->
  exists s,
    __getitem__ self index = Ok s
    /\ seq_len s = len (window_tokens self row_i (valid_hist_len r))
    /\ 0 <= history_events_max self - seq_len s
    /\ tokens_np s
       = window_tokens self row_i (valid_hist_len r)
           ++ repeat (PAD_TOKEN_IDX self) (Z.to_nat (history_events_max self - seq_len s))
    /\ token_type_ohe_np s
       = window_types self row_i (valid_hist_len r)
           ++ repeat (0, 0, 0, 0) (Z.to_nat (history_events_max self - seq_len s))
    /\ token_timesteps_np s
       = window_weights self row_i (valid_hist_len r)
           ++ repeat 0%Q (Z.to_nat (history_events_max self - seq_len s)).
Proof.
  intros Hcap Hidx Hrow Hr Hvhl Hfit Hkeys Hne.
  assert (history_len_records self <> 0) as Hnz by lia.
  assert (row_i < len (tl_events_df self)) as Hlt.
  { pose proof (lookup_lt_Some _ _ _ Hr). unfold len. lia. }
  pose proof (window_tokens_length self row_i (valid_hist_len r) ltac:(lia)) as Hlen.
  pose proof (max_events_per_timestamp_nonneg (tl_events_df self)) as Hmax.
  assert (len (window_tokens self row_i (valid_hist_len r)) <= history_events_max self) as Hpad.
  { rewrite Hcap. nia. }
  assert (len (window_tokens self row_i (valid_hist_len r)) <> 0) as Hnonzero.
  { unfold len. destruct (window_tokens self row_i (valid_hist_len r)); [congruence | cbn; lia]. }
  assert (py_foldM (history_frame self)
            (map (frame_at (tl_events_df self) row_i) (distances (valid_hist_len r)))
            (mk_history [] [] [] (valid_hist_len r + 1))
          = Ok (mk_history (window_tokens self row_i (valid_hist_len r))
                           (window_types self row_i (valid_hist_len r))
                           (window_weights self row_i (valid_hist_len r))
                           (valid_hist_len r + 1
                            - Z.of_nat (Z.to_nat (valid_hist_len r + 1))))) as Hrun.
  { unfold distances. now rewrite (history_frames_run self Hnz Hkeys) by reflexivity. }
  unfold __getitem__. rewrite Hidx. cbn [py_bind].
  rewrite (iloc_column valid_hist_len _ _ r Hrow Hr). cbn [py_bind].
  rewrite Z.min_r by lia.
  rewrite window_frames by lia.
  rewrite Hrun.
  cbn [py_bind tokens_list token_type_ohe_list token_timesteps_list].
  replace (history_events_max self - len (window_tokens self row_i (valid_hist_len r)) <? 0)
    with false by (symmetry; apply Z.ltb_ge; lia).
  replace (len (window_tokens self row_i (valid_hist_len r)) =? 0)
    with false by (symmetry; now apply Z.eqb_neq).
  rewrite (iloc_column tl_signal_classes _ _ r Hrow Hr). cbn [py_bind].
  rewrite (iloc_column time_to_tl_change _ _ r Hrow Hr). cbn [py_bind].
  rewrite (iloc_column scene_idx _ _ r Hrow Hr).
  rewrite (iloc_column frame_idx _ _ r Hrow Hr).
  rewrite pad_tokens.
  destruct (return_indices self); cbn [py_bind];
    (eexists; split; [reflexivity |]; cbn [seq_len tokens_np token_type_ohe_np token_timesteps_np];
     repeat split; try reflexivity; lia).
Qed.

(** C2.  For a sample of a dataset with the default window length, whose
    history window lies in the table and holds a token: the builder
    walks the frames at distances [vhl], ..., 1, 0 from the target row
    (earliest frame first, target row last); a token of the frame at
    distance [d] is recorded with its resolved index, its type vector and
    the weight [(d + 1) / 100], which is smaller the closer the frame is
    to the target row; the three sequences are then padded on the right
    to the capacity 100 * (maximum number of events per frame) with the
    PAD index, zero type vectors and zero weights. *)
Theorem tokenized_history_sample (self : IntersectionDataset) (index row_i : Z) (r : row) :
  history_len_records self = HIST_LEN_FRAMES ->
  history_events_max self
    = HIST_LEN_FRAMES * max_events_per_timestamp (tl_events_df self) ->
  iloc (valid_indices self) index = Ok row_i ->
  0 <= row_i ->
  tl_events_df self !! Z.to_nat row_i = Some r ->
  0 <= valid_hist_len r <= row_i ->
  valid_hist_len r < HIST_LEN_FRAMES ->
  (forall t, is_Some (vocab_term_2_idx self !! t) -> is_Some (vocab_term_2_freq self !! t)) ->
  (exists d, 0 <= d <= valid_hist_len r /\ frame_at (tl_events_df self) row_i d <> []) ->
  exists (s : sample) (pad : nat),
    __getitem__ self index = Ok s
    /\ Z.of_nat pad
       = HIST_LEN_FRAMES * max_events_per_timestamp (tl_events_df self) - seq_len s
    /\ seq_len s = len (window_tokens self row_i (valid_hist_len r))
    /\ tokens_np s
       = flat_map (fun d => map (fun ev => resolved self (fst ev))
                                (frame_at (tl_events_df self) row_i d))
                  (distances (valid_hist_len r))
         ++ repeat (PAD_TOKEN_IDX self) pad
    /\ token_type_ohe_np s
       = flat_map (fun d => map snd (frame_at (tl_events_df self) row_i d))
                  (distances (valid_hist_len r))
         ++ repeat (0, 0, 0, 0) pad
    /\ token_timesteps_np s
       = flat_map (fun d => repeat (inject_Z (d + 1) / inject_Z 100)%Q
                                   (length (frame_at (tl_events_df self) row_i d)))
                  (distances (valid_hist_len r))
         ++ repeat 0%Q pad
    /\ len (tokens_np s) = HIST_LEN_FRAMES * max_events_per_timestamp (tl_events_df self)
    /\ len (token_type_ohe_np s) = len (tokens_np s)
    /\ len (token_timesteps_np s) = len (tokens_np s)
    /\ forall d d', d < d' ->
         (inject_Z (d + 1) / inject_Z 100 < inject_Z (d' + 1) / inject_Z 100)%Q.
Proof.
  intros Hhlr Hcap Hidx Hrow Hr Hvhl Hfit Hkeys (d & Hd & Hne).
  destruct (getitem_run self index row_i r) as (s & Hs & Hseq & Hpad & Htok & Hty & Hw);
    try assumption; try (rewrite Hhlr; assumption).
  { now apply (window_tokens_nonempty self row_i (valid_hist_len r) d). }
  destruct (window_lengths self row_i (valid_hist_len r)) as [Hlty Hlw].
  rewrite Hcap in Hpad, Htok, Hty, Hw.
  exists s, (Z.to_nat (HIST_LEN_FRAMES * max_events_per_timestamp (tl_events_df self) - seq_len s)).
  split; [exact Hs |]. split; [lia |]. split; [exact Hseq |].
  split; [exact Htok |]. split; [exact Hty |]. split.
  { rewrite Hw. unfold window_weights, recency_weight. rewrite Hhlr. reflexivity. }
  split.
  { rewrite Htok. unfold len in *. rewrite length_app, repeat_length. lia. }
  split.
  { rewrite Htok, Hty. unfold len. rewrite !length_app, !repeat_length. lia. }
  split.
  { rewrite Htok, Hw. unfold len. rewrite !length_app, !repeat_length. lia. }
  intros d1 d2 Hlt. apply (recency_weight_increasing 100 d1 d2); lia.
Qed.

(** ** Samples of a table prepared by the program *)

Lemma add_continuous_time_head (df : list row) (r : row) :
  add_continuous_time df !! 0%nat = Some r -> continuous_time r = false.
Proof.
  unfold add_continuous_time. destruct df as [| r0 df]; [discriminate |].
  cbn. now intros [= <-].
Qed.

(** The derived flag column makes [compute_last_valid_idx_for_seq] return. *)
Lemma compute_last_valid_idx_for_seq_returns (df : list row) :
  exists df', compute_last_valid_idx_for_seq (add_continuous_time df) = Ok df'.
Proof.
  destruct (valid_hist_len_rows (add_continuous_time df)) as (df' & Hrun & _).
  - apply add_continuous_time_head.
  - now exists df'.
Qed.

(** A valid index of a table whose history lengths the program computed
    has its history window inside the table, within the window length,
    and with a token in it. *)
Lemma valid_index_window (df0 df : list row) (is_inference : bool) (idxs : list Z) (i : Z) :
  (forall r, df0 !! 0%nat = Some r -> continuous_time r = false) ->
  compute_last_valid_idx_for_seq df0 = Ok df ->
  get_valid_indices df HIST_LEN_FRAMES is_inference = Ok idxs ->
  In i idxs ->
  exists r,
    0 <= i
    /\ df !! Z.to_nat i = Some r
    /\ 0 <= valid_hist_len r <= i
    /\ valid_hist_len r < HIST_LEN_FRAMES
    /\ exists d, 0 <= d <= valid_hist_len r /\ frame_at df i d <> [].
Proof.
  intros Hhead Hcomp Hget Hin.
  destruct (valid_hist_len_rows df0 Hhead) as (df' & Hrun & Hlen & Hrows).
  rewrite Hcomp in Hrun. injection Hrun as <-.
  destruct (get_valid_indices_spec df HIST_LEN_FRAMES is_inference) as (idxs' & Hg & Hspec);
    [unfold HIST_LEN_FRAMES; lia |].
  rewrite Hget in Hg. injection Hg as <-.
  apply Hspec in Hin as (Hi & (j & Hji & Hjw & (rj & Hrj & Hne) & Hall) & _).
  set (n := Z.to_nat i) in *.
  assert (n < length df0)%nat as Hn by (unfold len in Hi; lia).
  destruct (lookup_lt_is_Some_2 df0 n Hn) as [r0 Hr0].
  destruct (Hrows n r0 Hr0) as (v & Hv & _ & Hmin & _ & Hvi & Hcap).
  assert (forall m r, df !! m = Some r ->
                      map continuous_time df0 !! m = Some (continuous_time r)) as Hflag.
  { intros m r Hr. pose proof (lookup_lt_Some _ _ _ Hr) as Hm. rewrite Hlen in Hm.
    destruct (lookup_lt_is_Some_2 df0 m Hm) as [r0m Hr0m].
    destruct (Hrows m r0m Hr0m) as (vm & Hvm & _).
    rewrite Hr in Hvm. injection Hvm as ->.
    now rewrite list_lookup_fmap, Hr0m. }
  assert (n - j + 1 <= continuous_run (map continuous_time df0) n)%nat as Hge.
  { apply continuous_run_ge; [lia |]. intros d Hd.
    destruct (Hall (n - d)%nat ltac:(lia)) as (rm & Hrm & Hc).
    rewrite (Hflag _ _ Hrm). now rewrite Hc. }
  exists (set_valid_hist_len r0 v). cbn [valid_hist_len set_valid_hist_len].
  split; [lia |]. split; [exact Hv |]. split; [lia |].
  split; [unfold HIST_LEN_FRAMES in *; lia |].
  exists (Z.of_nat (n - j)). split; [unfold HIST_LEN_FRAMES in *; lia |].
  unfold frame_at. replace (Z.to_nat (i - Z.of_nat (n - j))) with j by lia.
  now rewrite Hrj.
Qed.

(** Every valid index of a table prepared by the program is built into a
    sample: [__getitem__] returns, with at least one real token and the
    three sequences at full capacity. *)
Lemma prepared_samples_built (raw df : list row) (is_inference : bool) (idxs : list Z)
    (inputs : list (list (string * token_type))) (train_vocab term_freq : gmap string Z)
    (signals : list nat) (min_freq : Z) (ret : bool) (index : Z) :
  compute_last_valid_idx_for_seq (add_continuous_time raw) = Ok df ->
  get_valid_indices df HIST_LEN_FRAMES is_inference = Ok idxs ->
  build_train_vocab inputs = Ok (train_vocab, term_freq) ->
  0 <= index < len idxs ->
  exists s,
    __getitem__ (IntersectionDataset__init__ df idxs train_vocab term_freq signals
                                             HIST_LEN_FRAMES min_freq ret) index = Ok s
    /\ 0 < seq_len s
    /\ len (tokens_np s) = HIST_LEN_FRAMES * max_events_per_timestamp df.
Proof.
  intros Hcomp Hget Hbuild Hindex.
  set (self := IntersectionDataset__init__ df idxs train_vocab term_freq signals
                                           HIST_LEN_FRAMES min_freq ret).
  destruct (lookup_lt_is_Some_2 idxs (Z.to_nat index)) as [row_i Hrow];
    [unfold len in Hindex; lia |].
  assert (In row_i idxs) as Hin.
  { apply list_elem_of_In, list_elem_of_lookup. now exists (Z.to_nat index). }
  destruct (valid_index_window (add_continuous_time raw) df is_inference idxs row_i
              (add_continuous_time_head raw) Hcomp Hget Hin)
    as (r & Hi & Hr & Hvhl & Hfit & Hwin).
  destruct (build_train_vocab_ok inputs) as (v & f & Hvf & Hkeys & _).
  rewrite Hbuild in Hvf. injection Hvf as <- <-.
  destruct Hwin as (d & Hd & Hne).
  pose proof (window_tokens_nonempty self row_i (valid_hist_len r) d Hd Hne) as Hnil.
  destruct (getitem_run self index row_i r)
    as (s & Hs & Hseq & Hpad & Htok & _); try assumption; try reflexivity.
  - apply iloc_in_range; [lia | exact Hrow].
  - intros t. apply Hkeys.
  - exists s. split; [exact Hs |]. split.
    + rewrite Hseq. unfold len.
      destruct (window_tokens self row_i (valid_hist_len r)); [congruence | cbn; lia].
    + rewrite Htok. unfold len in *. rewrite length_app, repeat_length.
      change (history_events_max self) with (HIST_LEN_FRAMES * max_events_per_timestamp df)
        in *.
      lia.
Qed.

(** ** Token indices and the embedding table *)

Lemma token_idx_of_cases (self : IntersectionDataset) (token : string) (idx : Z) :
  token_idx_of self token = Ok idx ->
  idx = UNKNOWN_TOKEN_IDX self \/ vocab_term_2_idx self !! token = Some idx.
Proof.
  unfold token_idx_of.
  destruct (vocab_term_2_idx self !! token) as [i |]; [| intros [= <-]; now left].
  destruct (vocab_term_2_freq self !! token) as [f |]; [| discriminate].
  destruct (min_freq self <=? f); intros [= <-]; [now right | now left].
Qed.

Lemma history_frame_tokens (self : IntersectionDataset) (P : Z -> Prop) :
  (forall token idx, token_idx_of self token = Ok idx -> P idx) ->
  forall h frame h',
    Forall P (tokens_list h) -> history_frame self h frame = Ok h' ->
    Forall P (tokens_list h').
Proof.
  intros HP h frame h' Hh. unfold history_frame.
  destruct (py_foldM (history_token self) frame h) as [h1 | |] eqn:Hrun;
    cbn [py_bind]; try discriminate.
  intros [= <-]. cbn [tokens_list].
  revert Hrun. apply (py_foldM_invariant (fun h => Forall P (tokens_list h))); [| exact Hh].
  intros s [token ty] s' Hs. unfold history_token.
  destruct (history_len_records self =? 0); [discriminate |].
  destruct (token_idx_of self token) as [idx | |] eqn:Hidx; cbn [py_bind]; try discriminate.
  intros [= <-]. cbn [tokens_list]. apply Forall_app. split; [exact Hs |].
  constructor; [| constructor]. revert Hidx. apply HP.
Qed.

(** Every index of a sample is a vocabulary index, UNKNOWN or PAD. *)
Lemma getitem_tokens (self : IntersectionDataset) (index : Z) (s : sample) :
  __getitem__ self index = Ok s ->
  Forall (fun idx => idx = UNKNOWN_TOKEN_IDX self
                     \/ idx = PAD_TOKEN_IDX self
                     \/ exists token, vocab_term_2_idx self !! token = Some idx)
         (tokens_np s).
Proof.
  unfold __getitem__.
  destruct (iloc (valid_indices self) index) as [row_i | |]; cbn [py_bind]; try discriminate.
  destruct (iloc (map valid_hist_len (tl_events_df self)) row_i) as [vhl | |];
    cbn [py_bind]; try discriminate.
  match goal with
  | |- context [py_foldM (history_frame self) ?fr ?h0] =>
      destruct (py_foldM (history_frame self) fr h0) as [h | |] eqn:Hrun
  end; cbn [py_bind]; try discriminate.
  destruct (history_events_max self - len (tokens_list h) <? 0); [discriminate |].
  destruct (len (tokens_list h) =? 0); [discriminate |].
  destruct (iloc (map tl_signal_classes (tl_events_df self)) row_i) as [kc | |];
    cbn [py_bind]; try discriminate.
  destruct (iloc (map time_to_tl_change (tl_events_df self)) row_i) as [kt | |];
    cbn [py_bind]; try discriminate.
  match goal with
  | |- context [py_bind ?m _] => destruct m as [sf | |]
  end; cbn [py_bind]; try discriminate.
  intros [= <-]. cbn [tokens_np]. apply Forall_app. split.
  - revert Hrun.
    apply (py_foldM_invariant
             (fun h => Forall (fun idx => idx = UNKNOWN_TOKEN_IDX self
                                          \/ idx = PAD_TOKEN_IDX self
                                          \/ exists token,
                                               vocab_term_2_idx self !! token = Some idx)
                              (tokens_list h))).
    + intros h0 frame h1 Hh0. apply history_frame_tokens; [| exact Hh0].
      intros token idx Hidx. apply token_idx_of_cases in Hidx as [-> | Hv].
      * now left.
      * right. right. now exists token.
    + constructor.
  - rewrite pad_tokens. apply Forall_forall. intros x Hx.
    apply list_elem_of_In, repeat_spec in Hx. right. now left.
Qed.

Lemma embedding_in_range {A : Type} (weight : list A) (tokens_seq : list Z) :
  Forall (fun idx => 0 <= idx < len weight) tokens_seq ->
  exists embedded,
    embedding weight tokens_seq = Ok embedded /\ length embedded = length tokens_seq.
Proof.
  unfold embedding. induction 1 as [| idx l Hidx _ (e & He & Hl)]; cbn [py_mapM].
  - now exists [].
  - replace ((0 <=? idx) && (idx <? len weight)) with true
      by (symmetry; apply andb_true_iff; split; [apply Z.leb_le | apply Z.ltb_lt]; lia).
    destruct (lookup_lt_is_Some_2 weight (Z.to_nat idx)) as [v Hv];
      [unfold len in Hidx; lia |].
    rewrite Hv. cbn [py_bind]. rewrite He. cbn [py_bind].
    exists (v :: e). split; [reflexivity | cbn; now rewrite Hl].
Qed.

(** C10.  With a vocabulary built by the vocabulary loop, the assigned
    indices are below the vocabulary size, UNKNOWN is the vocabulary
    size and PAD is one more; every index of every sample, padding
    included, lies in [0, vocab_size + 1], and the lookup of the sample's
    indices in an embedding table of [vocab_size + 2] rows succeeds. *)
Theorem token_indices_within_embedding
    (inputs : list (list (string * token_type))) (train_vocab term_freq : gmap string Z)
    (df : list row) (valid : list Z) (signals : list nat) (hlr min_freq : Z) (ret : bool)
    (index : Z) (s : sample) (A : Type) (weight : list A) :
  build_train_vocab inputs = Ok (train_vocab, term_freq) ->
  __getitem__ (IntersectionDataset__init__ df valid train_vocab term_freq signals
                                           hlr min_freq ret) index = Ok s ->
  len weight = num_embeddings (dict_len train_vocab) ->
  (forall token idx, train_vocab !! token = Some idx -> 0 <= idx < dict_len train_vocab)
  /\ UNKNOWN_TOKEN_IDX (IntersectionDataset__init__ df valid train_vocab term_freq signals
                                                    hlr min_freq ret)
     = dict_len train_vocab
  /\ PAD_TOKEN_IDX (IntersectionDataset__init__ df valid train_vocab term_freq signals
                                                hlr min_freq ret)
     = dict_len train_vocab + 1
  /\ Forall (fun idx => 0 <= idx <= dict_len train_vocab + 1) (tokens_np s)
  /\ exists embedded,
      embedding weight (tokens_np s) = Ok embedded
      /\ length embedded = length (tokens_np s).
Proof.
  intros Hbuild Hs Hweight.
  destruct (build_train_vocab_ok inputs) as (v & f & Hvf & _ & Hidx).
  rewrite Hbuild in Hvf. injection Hvf as <- <-.
  assert (0 <= dict_len train_vocab) as Hsize by (unfold dict_len; lia).
  assert (Forall (fun idx => 0 <= idx <= dict_len train_vocab + 1) (tokens_np s)) as Hrange.
  { eapply Forall_impl; [apply (getitem_tokens _ _ _ Hs) |].
    cbn [UNKNOWN_TOKEN_IDX PAD_TOKEN_IDX vocab_term_2_idx IntersectionDataset__init__].
    intros idx [-> | [-> | (token & Htok)]]; try lia.
    apply Hidx in Htok. lia. }
  split; [exact Hidx |]. split; [reflexivity |]. split; [reflexivity |].
  split; [exact Hrange |].
  apply embedding_in_range. eapply Forall_impl; [exact Hrange |].
  intros idx Hi. cbn beta in Hi. rewrite Hweight. unfold num_embeddings. lia.
Qed.

(** ** Gradient sanitization *)

Lemma clamp_replace_explosure_range (x : float) :
  exists q, clamp (-(1 # 4)) (1 # 4) (replace_explosure x) = Fin q
            /\ (-(1 # 4) <= q <= 1 # 4)%Q.
Proof.
  destruct x as [q | | |]; cbn; try (exists 0%Q; split; [reflexivity | split; discriminate]).
  destruct (Qle_bool (-(1 # 4)) q) eqn:Hlo.
  - destruct (Qle_bool q (1 # 4)) eqn:Hhi.
    + exists q. split; [reflexivity |]. split; now apply Qle_bool_iff.
    + exists (1 # 4)%Q. split; [reflexivity |]. split; discriminate.
  - exists (-(1 # 4))%Q. split; [reflexivity |]. split; discriminate.
Qed.

(** C5.  The hook maps every entry through "non-finite to zero" and then
    through the clamp to [-0.25, 0.25]: a NaN or infinite entry becomes
    0, a finite entry is clamped, every entry of the result is finite
    and within the bounds; the entries NaN, +inf, 1.5 become 0, 0, 0.25;
    and every parameter that requires a gradient receives its gradient
    through the hook. *)
Theorem gradient_sanitization :
  (forall grad,
      clip_and_replace_explosures grad
      = map (fun g => clamp (-(1 # 4)) (1 # 4) (if isnan g || isinf g then Fin 0 else g)) grad)
  /\ (forall grad,
         Forall (fun g => exists q, g = Fin q /\ (-(1 # 4) <= q <= 1 # 4)%Q)
                (clip_and_replace_explosures grad))
  /\ clip_and_replace_explosures [NaN; PInf; NInf] = [Fin 0; Fin 0; Fin 0]
  /\ clip_and_replace_explosures [NaN; PInf; Fin (3 # 2)] = [Fin 0; Fin 0; Fin (1 # 4)]
  /\ (forall flags : list bool,
         register_gradient_hooks (map (fun rg => mk_parameter rg []) flags)
         = map (fun rg : bool =>
                  mk_parameter rg (if rg then [clip_and_replace_explosures] else []))
               flags)
  /\ (forall grad,
         received_grad (mk_parameter true [clip_and_replace_explosures]) grad
         = clip_and_replace_explosures grad).
Proof.
  split.
  { intros grad. unfold clip_and_replace_explosures. now rewrite map_map. }
  split.
  { intros grad. unfold clip_and_replace_explosures. rewrite map_map.
    apply Forall_forall. intros g Hg. apply list_elem_of_In, in_map_iff in Hg as (x & <- & _).
    apply clamp_replace_explosure_range. }
  split; [reflexivity |]. split; [reflexivity |]. split; [| reflexivity].
  intros flags. unfold register_gradient_hooks. rewrite map_map.
  apply map_ext. now intros [|].
Qed.

(** ** Weibull decoding *)

Section WeibullProofs.
Local Open Scope R_scope.

Lemma torch_div_nonzero (a b : R) : b <> 0 -> torch_div a b = Some (a / b).
Proof. intros Hb. unfold torch_div. now destruct (Req_dec_T b 0). Qed.

Lemma torch_pow_positive (base e : R) : 0 < base -> torch_pow base e = Some (Rpower base e).
Proof. intros Hb. unfold torch_pow. now destruct (Rlt_dec 0 base). Qed.

Lemma torch_log_positive (x : R) : 0 < x -> torch_log x = Some (ln x).
Proof. intros Hx. unfold torch_log. now destruct (Rlt_dec 0 x). Qed.

Lemma get_weibull_mode_above_one (weibull_lambda weibull_k : R) :
  1 < weibull_k ->
  get_weibull_mode weibull_lambda weibull_k
  = Some (weibull_lambda * Rpower ((weibull_k - 1) / weibull_k) (1 / weibull_k)).
Proof.
  intros Hk. unfold get_weibull_mode.
  destruct (Rle_dec weibull_k 1) as [Hle | _]; [lra |].
  rewrite !torch_div_nonzero by lra. cbn.
  rewrite torch_pow_positive; [reflexivity |].
  apply Rdiv_lt_0_compat; lra.
Qed.

Lemma get_weibull_mode_up_to_one (weibull_lambda weibull_k : R) :
  weibull_k <= 1 -> get_weibull_mode weibull_lambda weibull_k = Some 0.
Proof.
  intros Hk. unfold get_weibull_mode. now destruct (Rle_dec weibull_k 1).
Qed.

(** C6.  For a shape [k > 0] and a scale [lambda > 0] the decoded mode is
    [lambda * ((k - 1) / k) ^ (1 / k)] when [k > 1] and 0 when [k <= 1];
    it is 0 at [k = 1], and [3 * 0.5 ^ 0.5] (that is [3 * sqrt 0.5]) at
    [k = 2], [lambda = 3]. *)
Theorem weibull_mode_decoded (weibull_lambda weibull_k : R) :
  0 < weibull_k -> 0 < weibull_lambda ->
  (1 < weibull_k ->
   get_weibull_mode weibull_lambda weibull_k
   = Some (weibull_lambda * Rpower ((weibull_k - 1) / weibull_k) (1 / weibull_k)))
  /\ (weibull_k <= 1 -> get_weibull_mode weibull_lambda weibull_k = Some 0)
  /\ get_weibull_mode weibull_lambda 1 = Some 0
  /\ get_weibull_mode 3 2 = Some (3 * Rpower (1 / 2) (1 / 2))
  /\ get_weibull_mode 3 2 = Some (3 * sqrt (1 / 2)).
Proof.
  intros Hk Hl.
  assert (get_weibull_mode 3 2 = Some (3 * Rpower (1 / 2) (1 / 2))) as H32.
  { rewrite get_weibull_mode_above_one by lra.
    now replace ((2 - 1) / 2) with (1 / 2) by lra. }
  split; [apply get_weibull_mode_above_one |].
  split; [apply get_weibull_mode_up_to_one |].
  split; [apply get_weibull_mode_up_to_one; lra |].
  split; [exact H32 |].
  rewrite H32. do 2 f_equal.
  replace (1 / 2) with (/ 2) by lra. apply Rpower_sqrt. lra.
Qed.

(** C7.  For a shape [k > 0], a scale [lambda > 0] and a probability [p]
    in (0, 1) the decoded quantile is [lambda * (- ln (1 - p)) ^ (1 / k)];
    at [k = 1], [lambda = 10], [p = 0.5] it is [10 * (- ln 0.5)]. *)
Theorem weibull_quantile_decoded (weibull_lambda weibull_k quantile : R) :
  0 < weibull_k -> 0 < weibull_lambda -> 0 < quantile < 1 ->
  get_weibull_quantiles weibull_lambda weibull_k quantile
  = Some (weibull_lambda * Rpower (- ln (1 - quantile)) (1 / weibull_k))
  /\ get_weibull_quantiles 10 1 (1 / 2) = Some (10 * (- ln (1 / 2))).
Proof.
  assert (forall l k p, 0 < k -> 0 < p < 1 ->
            get_weibull_quantiles l k p = Some (l * Rpower (- ln (1 - p)) (1 / k))) as Hgen.
  { intros l k p Hk Hp. unfold get_weibull_quantiles.
    rewrite torch_log_positive by lra. cbn.
    rewrite torch_div_nonzero by lra. cbn.
    rewrite torch_pow_positive; [reflexivity |].
    pose proof (ln_increasing (1 - p) 1 ltac:(lra) ltac:(lra)) as Hln.
    rewrite ln_1 in Hln. lra. }
  intros Hk Hl Hp. split; [now apply Hgen |].
  rewrite Hgen by lra.
  replace (1 - 1 / 2) with (1 / 2) by lra.
  replace (1 / 1) with 1 by lra.
  rewrite Rpower_1; [reflexivity |].
  pose proof (ln_increasing (1 / 2) 1 ltac:(lra) ltac:(lra)) as Hln.
  rewrite ln_1 in Hln. lra.
Qed.

End WeibullProofs.

(** ** Masked losses *)

Section MaskedLosses.
Context {B : nat}.
Variable binary_crossentropy : Q -> Q -> Q.
Variable log_prob : Q * Q -> Q -> py float.

Lemma tensor_sum_flags (flags : list bool) :
  (Loss.tensor_sum (map float_of_bool flags) == inject_Z (Z.of_nat (available flags)))%Q.
Proof.
  unfold available. induction flags as [| a flags IH]; [reflexivity |].
  cbn [map Loss.tensor_sum fold_right List.filter]. fold (Loss.tensor_sum (map float_of_bool flags)).
  rewrite IH. destruct a; cbn [float_of_bool length].
  - rewrite Nat2Z.inj_succ, <- Z.add_1_l, inject_Z_plus. reflexivity.
  - apply Qplus_0_l.
Qed.

Lemma tensor_sum_masked (values : list Q) (flags : list bool) :
  (Loss.tensor_sum (zip_with Qmult values (map float_of_bool flags))
   == Loss.tensor_sum (zip_with masked values flags))%Q.
Proof.
  revert flags. induction values as [| v values IH]; intros [| a flags]; try reflexivity.
  cbn [map zip_with Loss.tensor_sum fold_right].
  fold (Loss.tensor_sum (zip_with Qmult values (map float_of_bool flags))).
  fold (Loss.tensor_sum (zip_with masked values flags)).
  rewrite IH. apply Qplus_comp; [| reflexivity].
  destruct a; cbn [float_of_bool masked]; [apply Qmult_1_r | apply Qmult_0_r].
Qed.

Lemma finite_value_masked (x : float) (a : bool) :
  (Loss.finite_value (Loss.float_mul x (float_of_bool a)) == masked (Loss.finite_value x) a)%Q.
Proof.
  destruct x as [q | | |], a; cbn; try reflexivity; [apply Qmult_1_r | apply Qmult_0_r].
Qed.

Lemma tensor_sum_masked_log_prob (values : list float) (flags : list bool) :
  (Loss.tensor_sum (map Loss.finite_value
                        (zip_with Loss.float_mul values (map float_of_bool flags)))
   == Loss.tensor_sum (zip_with masked (map Loss.finite_value values) flags))%Q.
Proof.
  revert flags. induction values as [| v values IH]; intros [| a flags]; try reflexivity.
  cbn [map zip_with Loss.tensor_sum fold_right].
  fold (Loss.tensor_sum
          (map Loss.finite_value (zip_with Loss.float_mul values (map float_of_bool flags)))).
  fold (Loss.tensor_sum (zip_with masked (map Loss.finite_value values) flags)).
  rewrite IH. apply Qplus_comp; [apply finite_value_masked | reflexivity].
Qed.

Lemma tensor_sum_none_available (values : list Q) (flags : list bool) :
  available flags = 0%nat -> (Loss.tensor_sum (zip_with masked values flags) == 0)%Q.
Proof.
  unfold available. revert flags.
  induction values as [| v values IH]; intros [| a flags] Hn; try reflexivity.
  destruct a; cbn [List.filter length] in Hn; [discriminate |].
  cbn [zip_with Loss.tensor_sum fold_right masked].
  fold (Loss.tensor_sum (zip_with masked values flags)).
  rewrite (IH flags Hn). reflexivity.
Qed.

(** The squeezed input keeps the size of the target unless the batch
    has one sample. *)
Lemma squeeze_shape_batch : Loss.squeeze_shape B = [B] <-> B <> 1%nat.
Proof.
  unfold Loss.squeeze_shape. destruct (B =? 1)%nat eqn:HB.
  - apply Nat.eqb_eq in HB. split; [discriminate | intros H; now destruct H].
  - apply Nat.eqb_neq in HB. split; [intros _; exact HB | reflexivity].
Qed.

Lemma squeezed_bce_inv (pred ys : vec Q B) (l : list Q) :
  Loss.squeezed_bce binary_crossentropy pred ys = Ok l ->
  B <> 1%nat /\ l = zip_with binary_crossentropy pred ys.
Proof.
  unfold Loss.squeezed_bce.
  destruct (decide (Loss.squeeze_shape B = [B])) as [Hs | Hs]; [| discriminate].
  intros [= <-]. split; [now apply squeeze_shape_batch | reflexivity].
Qed.

Lemma squeezed_bce_returns (pred ys : vec Q B) :
  B <> 1%nat ->
  Loss.squeezed_bce binary_crossentropy pred ys = Ok (zip_with binary_crossentropy pred ys).
Proof.
  intros HB. unfold Loss.squeezed_bce.
  destruct (decide (Loss.squeeze_shape B = [B])) as [Hs | Hs]; [reflexivity |].
  destruct Hs. now apply squeeze_shape_batch.
Qed.

Lemma squeezed_bce_one_sample (pred ys : vec Q B) :
  B = 1%nat -> Loss.squeezed_bce binary_crossentropy pred ys = Raise ValueError.
Proof.
  intros HB. unfold Loss.squeezed_bce.
  destruct (decide (Loss.squeeze_shape B = [B])) as [Hs | Hs]; [| reflexivity].
  apply squeeze_shape_batch in Hs. contradiction.
Qed.

Lemma log_prob_entries_inv (dxs : list ((Q * Q) * Q)) (l : list float) :
  py_mapM (fun dx => log_prob (fst dx) (snd dx)) dxs = Ok l ->
  l = map (fun dx => log_prob_entry log_prob (fst dx) (snd dx)) dxs.
Proof.
  revert l. induction dxs as [| [d x] dxs IH]; intros l; cbn [py_mapM].
  - now intros [= <-].
  - cbn [fst snd].
    destruct (log_prob d x) as [v | |] eqn:Hv; cbn [py_bind]; try discriminate.
    destruct (py_mapM _ dxs) as [vs | |]; cbn [py_bind]; try discriminate.
    intros [= <-]. cbn [map fst snd]. rewrite <- (IH vs eq_refl).
    unfold log_prob_entry. now rewrite Hv.
Qed.

Lemma log_prob_entries_return (dxs : list ((Q * Q) * Q)) :
  (forall d x, In (d, x) dxs -> exists v, log_prob d x = Ok v) ->
  exists l, py_mapM (fun dx => log_prob (fst dx) (snd dx)) dxs = Ok l.
Proof.
  induction dxs as [| [d x] dxs IH]; intros Hret; cbn [py_mapM].
  - now eexists.
  - destruct (Hret d x ltac:(now left)) as [v Hv]. cbn [fst snd]. rewrite Hv. cbn [py_bind].
    destruct IH as [l ->]; [intros d' x' Hin; apply Hret; now right |].
    cbn [py_bind]. now eexists.
Qed.

Lemma zip_with_zip_map {X Y Z : Type} (f : X -> Y -> Z) (xs : list X) (ys : list Y) :
  map (fun xy => f (fst xy) (snd xy)) (zip xs ys) = zip_with f xs ys.
Proof.
  revert ys. induction xs as [| x xs IH]; intros [| y ys]; try reflexivity.
  cbn. now rewrite IH.
Qed.

Lemma squeezed_log_prob_inv (distr : vec (Q * Q) B) (ys : vec Q B) (l : list float) :
  Loss.squeezed_log_prob log_prob distr ys = Ok l ->
  l = zip_with (log_prob_entry log_prob) distr ys.
Proof.
  unfold Loss.squeezed_log_prob. intros H.
  rewrite (log_prob_entries_inv _ _ H). apply zip_with_zip_map.
Qed.

Lemma entries_lookup {A : Type} (d : gmap nat (vec A B)) (tl_id : nat) (v : vec A B) :
  d !! tl_id = Some v -> entries d tl_id = vec_to_list v.
Proof. unfold entries. now intros ->. Qed.

(** What the colour loop has accumulated when it returns. *)
Lemma bce_fold_inv (b : Loss.batch B) (items : list (nat * vec Q B)) (acc acc' : Q * Q) :
  py_foldM (Loss.bce_signal binary_crossentropy b) items acc = Ok acc' ->
  (fst acc' == fst acc + masked_bce_total binary_crossentropy b items)%Q
  /\ (snd acc' == snd acc
                  + inject_Z (Z.of_nat (available_labels (Loss.classes_availabilities b) items)))%Q
  /\ (items = [] \/ B <> 1%nat).
Proof.
  revert acc. induction items as [| [tl_id pred] items IH]; intros [s c]; cbn [py_foldM].
  - intros [= <-]. cbn [fst snd masked_bce_total available_labels fold_right].
    split; [symmetry; apply Qplus_0_r |]. split; [symmetry; apply Qplus_0_r | now left].
  - unfold Loss.bce_signal at 1, Loss.dict_get.
    destruct (Loss.all_true_classes b !! tl_id) as [ys |] eqn:Hys; cbn [py_bind];
      [| discriminate].
    destruct (Loss.squeezed_bce binary_crossentropy pred ys) as [l | |] eqn:Hl;
      cbn [py_bind]; try discriminate.
    destruct (Loss.classes_availabilities b !! tl_id) as [flags |] eqn:Hfl; cbn [py_bind];
      [| discriminate].
    apply squeezed_bce_inv in Hl as [HB ->].
    intros Hfold. destruct (IH _ Hfold) as (Hs & Hc & _). cbn [fst snd] in Hs, Hc.
    cbn [masked_bce_total available_labels fold_right fst snd].
    fold (masked_bce_total binary_crossentropy b items).
    fold (available_labels (Loss.classes_availabilities b) items).
    rewrite (entries_lookup _ _ _ Hys), (entries_lookup _ _ _ Hfl).
    split; [| split; [| now right]].
    + rewrite Hs, tensor_sum_masked. ring.
    + rewrite Hc, tensor_sum_flags, Nat2Z.inj_add, inject_Z_plus. ring.
Qed.

Lemma bce_fold_returns (b : Loss.batch B) (items : list (nat * vec Q B)) :
  signals_in_batch (Loss.all_true_classes b) (Loss.classes_availabilities b) items ->
  B <> 1%nat ->
  forall acc, exists acc', py_foldM (Loss.bce_signal binary_crossentropy b) items acc = Ok acc'.
Proof.
  intros Hin HB. induction items as [| [tl_id pred] items IH]; intros [s c]; cbn [py_foldM].
  - now eexists.
  - destruct (Hin (tl_id, pred) ltac:(now left)) as [[ys Hys] [flags Hfl]].
    cbn [fst] in Hys, Hfl.
    unfold Loss.bce_signal at 1, Loss.dict_get. rewrite Hys. cbn [py_bind].
    rewrite squeezed_bce_returns by exact HB. cbn [py_bind]. rewrite Hfl. cbn [py_bind].
    apply IH. intros item Hitem. apply Hin. now right.
Qed.

(** A batch of one sample does not get past the first predicted
    signal: its label is looked up, then [nn.BCELoss] refuses the
    squeezed input. *)
Lemma bce_fold_one_sample (b : Loss.batch B) (items : list (nat * vec Q B)) (acc : Q * Q) :
  B = 1%nat ->
  match items with
  | [] => py_foldM (Loss.bce_signal binary_crossentropy b) items acc = Ok acc
  | (tl_id, _) :: _ =>
      py_foldM (Loss.bce_signal binary_crossentropy b) items acc
      = match Loss.all_true_classes b !! tl_id with
        | Some _ => Raise ValueError
        | None => Raise KeyError
        end
  end.
Proof.
  intros HB. destruct items as [| [tl_id pred] items]; [reflexivity |].
  destruct acc as [s c]. cbn [py_foldM]. unfold Loss.bce_signal at 1, Loss.dict_get.
  destruct (Loss.all_true_classes b !! tl_id) as [ys |]; cbn [py_bind]; [| reflexivity].
  now rewrite squeezed_bce_one_sample.
Qed.

(** What the time-to-event loop has accumulated when it returns. *)
Lemma tte_fold_inv (b : Loss.batch B) (items : list (nat * vec (Q * Q) B)) (acc acc' : Q * Q) :
  py_foldM (Loss.tte_signal log_prob b) items acc = Ok acc' ->
  (fst acc' == fst acc - masked_log_prob_total log_prob b items)%Q
  /\ (snd acc' == snd acc
                  + inject_Z (Z.of_nat (available_labels (Loss.tte_availabilities b) items)))%Q.
Proof.
  revert acc. induction items as [| [tl_id distr] items IH]; intros [s c]; cbn [py_foldM].
  - intros [= <-]. cbn [fst snd masked_log_prob_total available_labels fold_right].
    split; [unfold Qminus; symmetry; apply Qplus_0_r | symmetry; apply Qplus_0_r].
  - unfold Loss.tte_signal at 1, Loss.dict_get.
    destruct (Loss.all_tte b !! tl_id) as [ys |] eqn:Hys; cbn [py_bind]; [| discriminate].
    destruct (Loss.squeezed_log_prob log_prob distr ys) as [l | |] eqn:Hl;
      cbn [py_bind]; try discriminate.
    destruct (Loss.tte_availabilities b !! tl_id) as [flags |] eqn:Hfl; cbn [py_bind];
      [| discriminate].
    apply squeezed_log_prob_inv in Hl as ->.
    intros Hfold. destruct (IH _ Hfold) as (Hs & Hc). cbn [fst snd] in Hs, Hc.
    cbn [masked_log_prob_total available_labels fold_right fst snd].
    fold (masked_log_prob_total log_prob b items).
    fold (available_labels (Loss.tte_availabilities b) items).
    rewrite (entries_lookup _ _ _ Hys), (entries_lookup _ _ _ Hfl). split.
    + rewrite Hs, tensor_sum_masked_log_prob. ring.
    + rewrite Hc, tensor_sum_flags, Nat2Z.inj_add, inject_Z_plus. ring.
Qed.

Lemma tte_fold_returns (b : Loss.batch B) (items : list (nat * vec (Q * Q) B)) :
  signals_in_batch (Loss.all_tte b) (Loss.tte_availabilities b) items ->
  log_prob_returns log_prob b items ->
  forall acc, exists acc', py_foldM (Loss.tte_signal log_prob b) items acc = Ok acc'.
Proof.
  intros Hin Hret. induction items as [| [tl_id distr] items IH]; intros [s c];
    cbn [py_foldM].
  - now eexists.
  - destruct (Hin (tl_id, distr) ltac:(now left)) as [[ys Hys] [flags Hfl]].
    cbn [fst] in Hys, Hfl.
    unfold Loss.tte_signal at 1, Loss.dict_get. rewrite Hys. cbn [py_bind].
    destruct (log_prob_entries_return (zip distr ys)) as [l Hl].
    { intros d x Hdx. apply (Hret (tl_id, distr) d x); [now left |].
      cbn [fst snd]. now rewrite (entries_lookup _ _ _ Hys). }
    unfold Loss.squeezed_log_prob. rewrite Hl. cbn [py_bind]. rewrite Hfl. cbn [py_bind].
    apply IH.
    + intros item Hitem. apply Hin. now right.
    + intros item d x Hitem. apply Hret. now right.
Qed.

Lemma masked_bce_total_none (b : Loss.batch B) (items : list (nat * vec Q B)) :
  available_labels (Loss.classes_availabilities b) items = 0%nat ->
  (masked_bce_total binary_crossentropy b items == 0)%Q.
Proof.
  induction items as [| item items IH]; intros Hn; [reflexivity |].
  cbn [available_labels fold_right] in Hn.
  fold (available_labels (Loss.classes_availabilities b) items) in Hn.
  cbn [masked_bce_total fold_right]. fold (masked_bce_total binary_crossentropy b items).
  rewrite IH by lia. rewrite tensor_sum_none_available by lia. reflexivity.
Qed.

Lemma masked_log_prob_total_none (b : Loss.batch B) (items : list (nat * vec (Q * Q) B)) :
  available_labels (Loss.tte_availabilities b) items = 0%nat ->
  (masked_log_prob_total log_prob b items == 0)%Q.
Proof.
  induction items as [| item items IH]; intros Hn; [reflexivity |].
  cbn [available_labels fold_right] in Hn.
  fold (available_labels (Loss.tte_availabilities b) items) in Hn.
  cbn [masked_log_prob_total fold_right]. fold (masked_log_prob_total log_prob b items).
  rewrite IH by lia. rewrite tensor_sum_none_available by lia. reflexivity.
Qed.

(** The two guards agree on a count of labels. *)
Lemma guards_on_count (c : Q) (n : nat) :
  (c == inject_Z (Z.of_nat n))%Q ->
  Loss.gt0 c = negb (n =? 0)%nat /\ Loss.truthy c = negb (n =? 0)%nat.
Proof.
  intros Hc. unfold Loss.gt0, Loss.truthy.
  rewrite (Qeqb_comp c _ Hc 0%Q 0%Q (Qeq_refl 0)).
  rewrite (Qcompare_comp 0%Q 0%Q (Qeq_refl 0) c _ Hc).
  destruct n as [| n]; [split; reflexivity |].
  cbn [Nat.eqb negb]. split.
  - replace (0 ?= inject_Z (Z.of_nat (S n)))%Q with Lt; [reflexivity |].
    symmetry. apply Qlt_alt.
    change (inject_Z 0 < inject_Z (Z.of_nat (S n)))%Q. rewrite <- Zlt_Qlt. lia.
  - destruct (Qeq_bool (inject_Z (Z.of_nat (S n))) 0) eqn:He; [| reflexivity].
    apply Qeq_bool_eq in He. unfold Qeq, inject_Z in He. cbn [Qnum Qden] in He. lia.
Qed.

(** The guarded division of an accumulated total by its count. *)
Lemma guarded_average (guard : bool) (s c total : Q) (n : nat) :
  guard = negb (n =? 0)%nat ->
  (s == total)%Q -> (c == inject_Z (Z.of_nat n))%Q ->
  (n = 0%nat -> (total == 0)%Q) ->
  ((if guard then s / c else s) == masked_average total n)%Q.
Proof.
  intros -> Hs Hc Hzero. unfold masked_average.
  destruct n as [| n]; cbn [Nat.eqb negb].
  - rewrite Hs. now apply Hzero.
  - now rewrite Hs, Hc.
Qed.


(** The two loops of a step that returns. *)
Lemma step_folds (tl_2_color_class : list (nat * vec Q B))
    (tl_2_tte_distr : list (nat * vec (Q * Q) B)) (b : Loss.batch B) (r : Loss.losses) :
  Loss.train binary_crossentropy log_prob tl_2_color_class tl_2_tte_distr b = Ok r
  \/ Loss.validate binary_crossentropy log_prob tl_2_color_class tl_2_tte_distr b = Ok r
  \/ Loss.predict binary_crossentropy log_prob tl_2_color_class tl_2_tte_distr b = Ok r ->
  exists sb cb st ct,
    py_foldM (Loss.bce_signal binary_crossentropy b) tl_2_color_class (0%Q, 0%Q) = Ok (sb, cb)
    /\ py_foldM (Loss.tte_signal log_prob b) tl_2_tte_distr (0%Q, 0%Q) = Ok (st, ct)
    /\ Loss.loss_bce r = (if Loss.gt0 cb then sb / cb else sb)%Q
    /\ Loss.loss_bce_terms_count r = cb
    /\ Loss.loss_tte_log_prob r = (if Loss.gt0 ct then st / ct else st)%Q
    /\ Loss.loss_tte_log_prob_terms_count r = ct
    /\ Loss.gt0 cb = Loss.truthy cb /\ Loss.gt0 ct = Loss.truthy ct
    /\ (sb == masked_bce_total binary_crossentropy b tl_2_color_class)%Q
    /\ (cb == inject_Z (Z.of_nat
                          (available_labels (Loss.classes_availabilities b) tl_2_color_class)))%Q
    /\ (st == - masked_log_prob_total log_prob b tl_2_tte_distr)%Q
    /\ (ct == inject_Z (Z.of_nat
                          (available_labels (Loss.tte_availabilities b) tl_2_tte_distr)))%Q
    /\ (tl_2_color_class = [] \/ B <> 1%nat).
Proof.
  intros Hr. unfold Loss.train, Loss.validate, Loss.predict in Hr.
  destruct (py_foldM (Loss.bce_signal binary_crossentropy b) tl_2_color_class (0%Q, 0%Q))
    as [[sb cb] | |] eqn:Hb; cbn [py_bind] in Hr;
    [| destruct Hr as [Hr | [Hr | Hr]]; discriminate
     | destruct Hr as [Hr | [Hr | Hr]]; discriminate].
  destruct (py_foldM (Loss.tte_signal log_prob b) tl_2_tte_distr (0%Q, 0%Q))
    as [[st ct] | |] eqn:Ht; cbn [py_bind] in Hr;
    [| destruct Hr as [Hr | [Hr | Hr]]; discriminate
     | destruct Hr as [Hr | [Hr | Hr]]; discriminate].
  destruct (bce_fold_inv _ _ _ _ Hb) as (Hsb & Hcb & Hone).
  destruct (tte_fold_inv _ _ _ _ Ht) as (Hst & Hct).
  cbn [fst snd] in Hsb, Hcb, Hst, Hct.
  rewrite Qplus_0_l in Hsb, Hcb, Hct.
  assert (st == - masked_log_prob_total log_prob b tl_2_tte_distr)%Q as Hst'
      by (rewrite Hst; ring).
  destruct (guards_on_count cb _ Hcb) as [Hgb Htb].
  destruct (guards_on_count ct _ Hct) as [Hgt Htt].
  exists sb, cb, st, ct. split; [reflexivity |]. split; [reflexivity |].
  assert (Loss.gt0 cb = Loss.truthy cb) as Hb2 by congruence.
  assert (Loss.gt0 ct = Loss.truthy ct) as Ht2 by congruence.
  destruct Hr as [Hr | [Hr | Hr]]; injection Hr as <-;
    cbn [Loss.loss_bce Loss.loss_bce_terms_count Loss.loss_tte_log_prob
         Loss.loss_tte_log_prob_terms_count];
    rewrite <- ?Hb2, <- ?Ht2; repeat (split; [reflexivity || assumption |]); assumption.
Qed.

Lemma averaged_terms (tl_2_color_class : list (nat * vec Q B))
    (tl_2_tte_distr : list (nat * vec (Q * Q) B)) (b : Loss.batch B)
    (sb cb st ct : Q) (gb gt : bool) (l : Q) :
  let n_classes := available_labels (Loss.classes_availabilities b) tl_2_color_class in
  let n_tte := available_labels (Loss.tte_availabilities b) tl_2_tte_distr in
  (sb == masked_bce_total binary_crossentropy b tl_2_color_class)%Q ->
  (cb == inject_Z (Z.of_nat n_classes))%Q ->
  (st == - masked_log_prob_total log_prob b tl_2_tte_distr)%Q ->
  (ct == inject_Z (Z.of_nat n_tte))%Q ->
  gb = negb (n_classes =? 0)%nat ->
  gt = negb (n_tte =? 0)%nat ->
  averaged_over_available binary_crossentropy log_prob tl_2_color_class tl_2_tte_distr b
    (Loss.mk_losses (if gb then sb / cb else sb)%Q cb (if gt then st / ct else st)%Q ct l).
Proof.
  intros n_classes n_tte Hsb Hcb Hst Hct Hgb Hgt.
  assert (n_classes = 0%nat ->
          (masked_bce_total binary_crossentropy b tl_2_color_class == 0)%Q) as Hzb
      by apply masked_bce_total_none.
  assert (n_tte = 0%nat ->
          (- masked_log_prob_total log_prob b tl_2_tte_distr == 0)%Q) as Hzt.
  { intros Hn. rewrite (masked_log_prob_total_none b tl_2_tte_distr Hn). reflexivity. }
  pose proof (guarded_average gb sb cb _ n_classes Hgb Hsb Hcb Hzb) as Hb.
  pose proof (guarded_average gt st ct _ n_tte Hgt Hst Hct Hzt) as Ht.
  unfold averaged_over_available. fold n_classes n_tte.
  cbn [Loss.loss_bce Loss.loss_bce_terms_count Loss.loss_tte_log_prob
       Loss.loss_tte_log_prob_terms_count].
  split; [exact Hcb |]. split; [exact Hct |]. split; [exact Hb |]. split; [exact Ht |].
  split.
  - intros Hn. rewrite Hb. unfold masked_average. now rewrite Hn.
  - intros Hn. rewrite Ht. unfold masked_average. now rewrite Hn.
Qed.

(** A step that returns has averaged over the available labels. *)
Lemma step_averaged (tl_2_color_class : list (nat * vec Q B))
    (tl_2_tte_distr : list (nat * vec (Q * Q) B)) (b : Loss.batch B) (r : Loss.losses) :
  Loss.train binary_crossentropy log_prob tl_2_color_class tl_2_tte_distr b = Ok r
  \/ Loss.validate binary_crossentropy log_prob tl_2_color_class tl_2_tte_distr b = Ok r
  \/ Loss.predict binary_crossentropy log_prob tl_2_color_class tl_2_tte_distr b = Ok r ->
  averaged_over_available binary_crossentropy log_prob tl_2_color_class tl_2_tte_distr b r.
Proof.
  intros Hr.
  destruct (step_folds _ _ _ _ Hr)
    as (sb & cb & st & ct & _ & _ & Hlb & Hcb' & Hlt & Hct' & _ & _ & Hsb & Hcb & Hst & Hct & _).
  destruct (guards_on_count cb _ Hcb) as [Hgb _].
  destruct (guards_on_count ct _ Hct) as [Hgt _].
  destruct r as [lb cb0 lt ct0 l].
  cbn [Loss.loss_bce Loss.loss_bce_terms_count Loss.loss_tte_log_prob
       Loss.loss_tte_log_prob_terms_count] in Hlb, Hcb', Hlt, Hct'.
  subst lb cb0 lt ct0. now apply averaged_terms.
Qed.

(** The three steps return on a batch that holds every predicted signal
    and whose labels the library accepts, unless it has one sample and
    a colour is predicted. *)
Lemma steps_return (tl_2_color_class : list (nat * vec Q B))
    (tl_2_tte_distr : list (nat * vec (Q * Q) B)) (b : Loss.batch B) :
  signals_in_batch (Loss.all_true_classes b) (Loss.classes_availabilities b) tl_2_color_class ->
  signals_in_batch (Loss.all_tte b) (Loss.tte_availabilities b) tl_2_tte_distr ->
  log_prob_returns log_prob b tl_2_tte_distr ->
  tl_2_color_class = [] \/ B <> 1%nat ->
  exists rt rv rp,
    Loss.train binary_crossentropy log_prob tl_2_color_class tl_2_tte_distr b = Ok rt
    /\ Loss.validate binary_crossentropy log_prob tl_2_color_class tl_2_tte_distr b = Ok rv
    /\ Loss.predict binary_crossentropy log_prob tl_2_color_class tl_2_tte_distr b = Ok rp.
Proof.
  intros Hc Ht Hret Hone.
  assert (exists acc,
             py_foldM (Loss.bce_signal binary_crossentropy b) tl_2_color_class (0%Q, 0%Q)
             = Ok acc) as [[sb cb] Hb].
  { destruct Hone as [-> | HB]; [now eexists | now apply bce_fold_returns]. }
  destruct (tte_fold_returns b tl_2_tte_distr Ht Hret (0%Q, 0%Q)) as [[st ct] Htt].
  unfold Loss.train, Loss.validate, Loss.predict. rewrite Hb, Htt. cbn [py_bind].
  eexists _, _, _. repeat split; reflexivity.
Qed.


(** C8.  For one and the same batch and the same predictions, the
    training step returns exactly when the validation step does, and
    then the two compute the same classification term and the same
    survival term; the training loss is their plain sum, the validation
    loss is the classification term plus half the survival term.  Both
    return on every batch that holds the predicted signals and whose
    labels the library accepts, provided the batch does not consist of
    a single sample. *)
Theorem train_validation_weighting (tl_2_color_class : list (nat * vec Q B))
    (tl_2_tte_distr : list (nat * vec (Q * Q) B)) (b : Loss.batch B) :
  (forall rt rv,
      Loss.train binary_crossentropy log_prob tl_2_color_class tl_2_tte_distr b = Ok rt ->
      Loss.validate binary_crossentropy log_prob tl_2_color_class tl_2_tte_distr b = Ok rv ->
      Loss.loss_bce rv = Loss.loss_bce rt
      /\ Loss.loss_tte_log_prob rv = Loss.loss_tte_log_prob rt
      /\ Loss.loss rt = (Loss.loss_bce rt + Loss.loss_tte_log_prob rt)%Q
      /\ Loss.loss rv = (Loss.loss_bce rt + Loss.loss_tte_log_prob rt / 2)%Q)
  /\ ((exists rt,
          Loss.train binary_crossentropy log_prob tl_2_color_class tl_2_tte_distr b = Ok rt)
      <-> (exists rv,
              Loss.validate binary_crossentropy log_prob tl_2_color_class tl_2_tte_distr b
              = Ok rv))
  /\ (signals_in_batch (Loss.all_true_classes b) (Loss.classes_availabilities b)
                       tl_2_color_class ->
      signals_in_batch (Loss.all_tte b) (Loss.tte_availabilities b) tl_2_tte_distr ->
      log_prob_returns log_prob b tl_2_tte_distr ->
      B <> 1%nat ->
      exists rt rv,
        Loss.train binary_crossentropy log_prob tl_2_color_class tl_2_tte_distr b = Ok rt
        /\ Loss.validate binary_crossentropy log_prob tl_2_color_class tl_2_tte_distr b
           = Ok rv).
Proof.
  split; [| split].
  - intros rt rv Hrt Hrv.
    destruct (step_folds _ _ _ rt (or_introl Hrt))
      as (sb & cb & st & ct & Hb & Htt & Hlb & _ & Hlt & _ & Hgb & Hgt & _).
    unfold Loss.train in Hrt. unfold Loss.validate in Hrv.
    rewrite Hb, Htt in Hrt, Hrv. cbn [py_bind] in Hrt, Hrv.
    injection Hrt as <-. injection Hrv as <-.
    cbn [Loss.loss_bce Loss.loss_tte_log_prob Loss.loss].
    rewrite <- Hgb, <- Hgt. repeat split; reflexivity.
  - unfold Loss.train, Loss.validate.
    destruct (py_foldM (Loss.bce_signal binary_crossentropy b) tl_2_color_class (0%Q, 0%Q))
      as [[sb cb] | |]; cbn [py_bind];
      [| split; intros [? ?]; discriminate | split; intros [? ?]; discriminate].
    destruct (py_foldM (Loss.tte_signal log_prob b) tl_2_tte_distr (0%Q, 0%Q))
      as [[st ct] | |]; cbn [py_bind];
      [| split; intros [? ?]; discriminate | split; intros [? ?]; discriminate].
    split; intros _; eexists; reflexivity.
  - intros Hc Ht Hret HB.
    destruct (steps_return tl_2_color_class tl_2_tte_distr b Hc Ht Hret (or_intror HB))
      as (rt & rv & _ & Htrain & Hval & _).
    now exists rt, rv.
Qed.

End MaskedLosses.

(** ** Concrete instances *)

Lemma three_rows_dataset_built :
  training_dataset three_rows_raw 0 [7%nat] = Ok three_rows_dataset.
Proof. vm_compute. reflexivity. Qed.

Lemma three_rows_vocab_built :
  build_train_vocab (map rnn_inputs_raw (tl_events_df three_rows_dataset))
  = Ok (vocab_term_2_idx three_rows_dataset, vocab_term_2_freq three_rows_dataset).
Proof. vm_compute. reflexivity. Qed.

Lemma three_rows_frequencies_recorded (t : string) :
  is_Some (vocab_term_2_idx three_rows_dataset !! t) ->
  is_Some (vocab_term_2_freq three_rows_dataset !! t).
Proof.
  destruct (build_train_vocab_ok (map rnn_inputs_raw (tl_events_df three_rows_dataset)))
    as (v & f & Hvf & Hkeys & _).
  rewrite three_rows_vocab_built in Hvf. injection Hvf as <- <-.
  apply Hkeys.
Qed.

Lemma valid_hist_len_computed_witness :
  (forall r, three_rows !! 0%nat = Some r -> continuous_time r = false)
  /\ exists df',
      compute_last_valid_idx_for_seq three_rows = Ok df'
      /\ length df' = length three_rows
      /\ forall (i : nat) (r : row),
          three_rows !! i = Some r ->
          exists (r' : row) (v : Z),
            df' !! i = Some r'
            /\ valid_hist_len r' = v
            /\ same_but_valid_hist_len r r'
            /\ (continuous_time r = false -> v = 0)
            /\ v = Z.min (Z.of_nat (continuous_run (map continuous_time three_rows) i))
                         (HIST_LEN_FRAMES - 1)
            /\ (forall d, (d < Z.to_nat v)%nat ->
                          exists p, three_rows !! (i - d)%nat = Some p
                                    /\ continuous_time p = true)
            /\ 0 <= v <= Z.of_nat i
            /\ v + 1 <= HIST_LEN_FRAMES.
Proof.
  assert (forall r, three_rows !! 0%nat = Some r -> continuous_time r = false) as H.
  { intros r Hr. vm_compute in Hr. injection Hr as <-. reflexivity. }
  split; [exact H | exact (valid_hist_len_computed three_rows H)].
Defined.

Lemma token_resolution_witness :
  (forall t, is_Some (vocab_term_2_idx three_rows_dataset !! t) ->
             is_Some (vocab_term_2_freq three_rows_dataset !! t))
  /\ ((vocab_term_2_idx three_rows_dataset !! "a" = None
       \/ exists f, vocab_term_2_freq three_rows_dataset !! "a" = Some f
                    /\ f < min_freq three_rows_dataset) ->
      token_idx_of three_rows_dataset "a" = Ok (UNKNOWN_TOKEN_IDX three_rows_dataset))
  /\ (~ (vocab_term_2_idx three_rows_dataset !! "a" = None
         \/ exists f, vocab_term_2_freq three_rows_dataset !! "a" = Some f
                      /\ f < min_freq three_rows_dataset) ->
      exists idx, vocab_term_2_idx three_rows_dataset !! "a" = Some idx
                  /\ token_idx_of three_rows_dataset "a" = Ok idx).
Proof.
  split; [exact three_rows_frequencies_recorded |].
  exact (token_resolution three_rows_dataset "a" three_rows_frequencies_recorded).
Defined.

Lemma tokenized_history_sample_witness :
  history_len_records three_rows_dataset = HIST_LEN_FRAMES
  /\ history_events_max three_rows_dataset
     = HIST_LEN_FRAMES * max_events_per_timestamp (tl_events_df three_rows_dataset)
  /\ iloc (valid_indices three_rows_dataset) 0 = Ok 2
  /\ 0 <= 2
  /\ tl_events_df three_rows_dataset !! Z.to_nat 2 = Some three_rows_target
  /\ 0 <= valid_hist_len three_rows_target <= 2
  /\ valid_hist_len three_rows_target < HIST_LEN_FRAMES
  /\ (forall t, is_Some (vocab_term_2_idx three_rows_dataset !! t) ->
                is_Some (vocab_term_2_freq three_rows_dataset !! t))
  /\ (exists d, 0 <= d <= valid_hist_len three_rows_target
                /\ frame_at (tl_events_df three_rows_dataset) 2 d <> [])
  /\ exists (s : sample) (pad : nat),
    __getitem__ three_rows_dataset 0 = Ok s
    /\ Z.of_nat pad
       = HIST_LEN_FRAMES * max_events_per_timestamp (tl_events_df three_rows_dataset)
         - seq_len s
    /\ seq_len s = len (window_tokens three_rows_dataset 2 (valid_hist_len three_rows_target))
    /\ tokens_np s
       = flat_map (fun d => map (fun ev => resolved three_rows_dataset (fst ev))
                                (frame_at (tl_events_df three_rows_dataset) 2 d))
                  (distances (valid_hist_len three_rows_target))
         ++ repeat (PAD_TOKEN_IDX three_rows_dataset) pad
    /\ token_type_ohe_np s
       = flat_map (fun d => map snd (frame_at (tl_events_df three_rows_dataset) 2 d))
                  (distances (valid_hist_len three_rows_target))
         ++ repeat (0, 0, 0, 0) pad
    /\ token_timesteps_np s
       = flat_map (fun d => repeat (inject_Z (d + 1) / inject_Z 100)%Q
                                   (length (frame_at (tl_events_df three_rows_dataset) 2 d)))
                  (distances (valid_hist_len three_rows_target))
         ++ repeat 0%Q pad
    /\ len (tokens_np s)
       = HIST_LEN_FRAMES * max_events_per_timestamp (tl_events_df three_rows_dataset)
    /\ len (token_type_ohe_np s) = len (tokens_np s)
    /\ len (token_timesteps_np s) = len (tokens_np s)
    /\ forall d d', d < d' ->
         (inject_Z (d + 1) / inject_Z 100 < inject_Z (d' + 1) / inject_Z 100)%Q.
Proof.
  assert (history_len_records three_rows_dataset = HIST_LEN_FRAMES) as H1
      by (vm_compute; reflexivity).
  assert (history_events_max three_rows_dataset
          = HIST_LEN_FRAMES * max_events_per_timestamp (tl_events_df three_rows_dataset))
    as H2 by (vm_compute; reflexivity).
  assert (iloc (valid_indices three_rows_dataset) 0 = Ok 2) as H3
      by (vm_compute; reflexivity).
  assert (0 <= 2) as H4 by lia.
  assert (tl_events_df three_rows_dataset !! Z.to_nat 2 = Some three_rows_target) as H5
      by (vm_compute; reflexivity).
  assert (0 <= valid_hist_len three_rows_target <= 2) as H6
      by (vm_compute; split; discriminate).
  assert (valid_hist_len three_rows_target < HIST_LEN_FRAMES) as H7
      by (vm_compute; reflexivity).
  assert (exists d, 0 <= d <= valid_hist_len three_rows_target
                    /\ frame_at (tl_events_df three_rows_dataset) 2 d <> []) as H9.
  { exists 0. split; [vm_compute; split; discriminate | vm_compute; discriminate]. }
  repeat (split; [assumption || exact three_rows_frequencies_recorded |]).
  exact (tokenized_history_sample three_rows_dataset 0 2 three_rows_target
           H1 H2 H3 H4 H5 H6 H7 three_rows_frequencies_recorded H9).
Defined.

Lemma token_indices_within_embedding_witness :
  build_train_vocab (map rnn_inputs_raw (tl_events_df three_rows_dataset))
  = Ok (vocab_term_2_idx three_rows_dataset, vocab_term_2_freq three_rows_dataset)
  /\ __getitem__
       (IntersectionDataset__init__ (tl_events_df three_rows_dataset) [2]
          (vocab_term_2_idx three_rows_dataset) (vocab_term_2_freq three_rows_dataset)
          [7%nat] HIST_LEN_FRAMES 5 false) 0
     = Ok three_rows_sample
  /\ len (repeat [0%Q] 5) = num_embeddings (dict_len (vocab_term_2_idx three_rows_dataset))
  /\ Forall (fun idx => 0 <= idx <= dict_len (vocab_term_2_idx three_rows_dataset) + 1)
            (tokens_np three_rows_sample)
  /\ exists embedded,
      embedding (repeat [0%Q] 5) (tokens_np three_rows_sample) = Ok embedded
      /\ length embedded = length (tokens_np three_rows_sample).
Proof.
  assert (__getitem__
            (IntersectionDataset__init__ (tl_events_df three_rows_dataset) [2]
               (vocab_term_2_idx three_rows_dataset) (vocab_term_2_freq three_rows_dataset)
               [7%nat] HIST_LEN_FRAMES 5 false) 0
          = Ok three_rows_sample) as H2 by (vm_compute; reflexivity).
  assert (len (repeat [0%Q] 5)
          = num_embeddings (dict_len (vocab_term_2_idx three_rows_dataset))) as H3
      by (vm_compute; reflexivity).
  split; [exact three_rows_vocab_built |]. split; [exact H2 |]. split; [exact H3 |].
  apply (token_indices_within_embedding
           (map rnn_inputs_raw (tl_events_df three_rows_dataset))
           (vocab_term_2_idx three_rows_dataset) (vocab_term_2_freq three_rows_dataset)
           (tl_events_df three_rows_dataset) [2] [7%nat] HIST_LEN_FRAMES 5 false
           0 three_rows_sample (list Q) (repeat [0%Q] 5)
           three_rows_vocab_built H2 H3).
Defined.

Lemma example_batch_classes :
  signals_in_batch (Loss.all_true_classes example_batch)
                   (Loss.classes_availabilities example_batch) example_colors.
Proof.
  intros item [<- | [<- | []]]; split; eexists; vm_compute; reflexivity.
Qed.

Lemma example_batch_tte :
  signals_in_batch (Loss.all_tte example_batch)
                   (Loss.tte_availabilities example_batch) example_distrs.
Proof.
  intros item [<- | [<- | []]]; split; eexists; vm_compute; reflexivity.
Qed.

Lemma example_log_prob_returns {B : nat} (b : Loss.batch B)
    (items : list (nat * vec (Q * Q) B)) :
  log_prob_returns example_log_prob b items.
Proof.
  intros item d x _ _. unfold example_log_prob.
  destruct (Qle_bool 99 x); eexists; reflexivity.
Qed.


Lemma train_validation_weighting_witness :
  signals_in_batch (Loss.all_true_classes example_batch)
                   (Loss.classes_availabilities example_batch) example_colors
  /\ signals_in_batch (Loss.all_tte example_batch)
                      (Loss.tte_availabilities example_batch) example_distrs
  /\ log_prob_returns example_log_prob example_batch example_distrs
  /\ 2%nat <> 1%nat
  /\ exists rt rv,
    Loss.train example_bce example_log_prob example_colors example_distrs example_batch = Ok rt
    /\ Loss.validate example_bce example_log_prob example_colors example_distrs example_batch
       = Ok rv
    /\ Loss.loss_bce rv = Loss.loss_bce rt
    /\ Loss.loss_tte_log_prob rv = Loss.loss_tte_log_prob rt
    /\ Loss.loss rt = (Loss.loss_bce rt + Loss.loss_tte_log_prob rt)%Q
    /\ Loss.loss rv = (Loss.loss_bce rt + Loss.loss_tte_log_prob rt / 2)%Q.
Proof.
  assert (2%nat <> 1%nat) as H2 by discriminate.
  split; [exact example_batch_classes |]. split; [exact example_batch_tte |].
  split; [exact (example_log_prob_returns example_batch example_distrs) |].
  split; [exact H2 |].
  destruct (train_validation_weighting example_bce example_log_prob
              example_colors example_distrs example_batch) as (Hrel & _ & Hret).
  destruct (Hret example_batch_classes example_batch_tte
              (example_log_prob_returns example_batch example_distrs) H2)
    as (rt & rv & Hrt & Hrv).
  exists rt, rv. split; [exact Hrt |]. split; [exact Hrv |].
  exact (Hrel rt rv Hrt Hrv).
Defined.

Lemma weibull_mode_decoded_witness :
  (0 < 2)%R /\ (0 < 3)%R
  /\ get_weibull_mode 3 2 = Some (3 * Rpower ((2 - 1) / 2) (1 / 2))%R.
Proof.
  split; [lra |]. split; [lra |].
  apply (weibull_mode_decoded 3 2); lra.
Defined.

Lemma weibull_quantile_decoded_witness :
  (0 < 1)%R /\ (0 < 10)%R /\ (0 < 1 / 2 < 1)%R
  /\ get_weibull_quantiles 10 1 (1 / 2) = Some (10 * Rpower (- ln (1 - 1 / 2)) (1 / 1))%R.
Proof.
  split; [lra |]. split; [lra |]. split; [lra |].
  apply (weibull_quantile_decoded 10 1 (1 / 2)); lra.
Defined.

(* ===================================================================== *)
(** * Part III.  Further properties of the program *)
(* ===================================================================== *)

(** ** The continuity flag and the valid history length *)

Lemma continuous_time_column_lookup (df : list row) :
  forall (prev : option row) (i : nat) (r : row),
    df !! i = Some r ->
    continuous_time_column prev df !! i
    = Some (match match i with O => prev | S i' => df !! i' end with
            | None => false
            | Some p =>
                (timestamp r - timestamp p <? continuity_gap)
                && (master_intersection_idx p =? master_intersection_idx r)
            end).
Proof.
  induction df as [| r0 df IH]; intros prev i r Hr; [discriminate |].
  destruct i as [| i]; cbn in Hr.
  - injection Hr as ->. reflexivity.
  - etransitivity; [exact (IH (Some r0) i r Hr) |].
    destruct i; reflexivity.
Qed.

Lemma continuous_time_column_length (df : list row) :
  forall prev, length (continuous_time_column prev df) = length df.
Proof.
  induction df as [| r df IH]; intros prev; cbn; [reflexivity | now rewrite IH].
Qed.

Lemma add_continuous_time_lookup (df : list row) (i : nat) (r : row) :
  df !! i = Some r ->
  add_continuous_time df !! i
  = Some (set_continuous_time r
            match i with
            | O => false
            | S i' =>
                match df !! i' with
                | Some p =>
                    (timestamp r - timestamp p <? continuity_gap)
                    && (master_intersection_idx p =? master_intersection_idx r)
                | None => false
                end
            end).
Proof.
  intros Hr. unfold add_continuous_time. rewrite lookup_zip_with, Hr. cbn.
  rewrite (continuous_time_column_lookup df None i r Hr). cbn.
  destruct i; reflexivity.
Qed.

Lemma add_continuous_time_length (df : list row) :
  length (add_continuous_time df) = length df.
Proof.
  unfold add_continuous_time. rewrite length_zip_with, continuous_time_column_length. lia.
Qed.

Lemma set_continuous_time_twice (r : row) (b b' : bool) :
  set_continuous_time (set_continuous_time r b) b' = set_continuous_time r b'.
Proof. reflexivity. Qed.

Lemma add_continuous_time_again (df : list row) :
  add_continuous_time (add_continuous_time df) = add_continuous_time df.
Proof.
  apply list_eq. intros i.
  destruct (df !! i) as [r |] eqn:Hr.
  - rewrite (add_continuous_time_lookup df i r Hr).
    erewrite add_continuous_time_lookup
      by (rewrite (add_continuous_time_lookup df i r Hr); reflexivity).
    rewrite set_continuous_time_twice. do 2 f_equal.
    destruct i as [| i]; [reflexivity |].
    destruct (df !! i) as [p |] eqn:Hp.
    + rewrite (add_continuous_time_lookup df i p Hp). reflexivity.
    + apply lookup_ge_None in Hp. apply lookup_lt_Some in Hr. lia.
  - apply lookup_ge_None in Hr.
    rewrite !(proj2 (lookup_ge_None _ _)); [reflexivity | |];
      rewrite ?add_continuous_time_length; exact Hr.
Qed.

(** X1.  Lines 79-85, run on a table that lacks the column, derive the
    flag row by row from the timestamps and the intersections alone:
    the column [continuous_time] of the result is false in the first
    row; in a later row it is true exactly when the row comes less than
    0.31 s after the row before it and that row belongs to the same
    intersection.  Every other column keeps its value, no row is added
    or lost, and deriving the flag again from the result gives the same
    table. *)
Theorem add_continuous_time_rows (df : list row) :
  length (add_continuous_time df) = length df
  /\ (forall (i : nat) (r : row),
         df !! i = Some r ->
         exists r',
           add_continuous_time df !! i = Some r'
           /\ same_but_continuous_time r r'
           /\ continuous_time r'
              = match i with
                | O => false
                | S i' =>
                    match df !! i' with
                    | Some p =>
                        (timestamp r - timestamp p <? continuity_gap)
                        && (master_intersection_idx p =? master_intersection_idx r)
                    | None => false
                    end
                end)
  /\ add_continuous_time (add_continuous_time df) = add_continuous_time df.
Proof.
  split; [apply add_continuous_time_length |].
  split; [| apply add_continuous_time_again].
  intros i r Hr. eexists. split; [exact (add_continuous_time_lookup df i r Hr) |].
  split; [repeat split | reflexivity].
Qed.

Lemma py_mapM_inv {A B : Type} (f : A -> py B) (l : list A) :
  forall out,
    py_mapM f l = Ok out ->
    length out = length l
    /\ forall (i : nat) (a : A), l !! i = Some a -> exists b, out !! i = Some b /\ f a = Ok b.
Proof.
  induction l as [| a l IH]; intros out; cbn [py_mapM].
  - intros [= <-]. split; [reflexivity |]. intros i a Hi. discriminate.
  - destruct (f a) as [b | |] eqn:Hf; cbn [py_bind]; try discriminate.
    destruct (py_mapM f l) as [bs | |]; cbn [py_bind]; try discriminate.
    intros [= <-]. destruct (IH bs eq_refl) as [Hlen Hall]. split; [cbn; now rewrite Hlen |].
    intros [| i] a' Hi; cbn in Hi.
    + injection Hi as <-. now exists b.
    + now apply Hall.
Qed.

(** Whatever the flags are, the loop stops within the window length, and
    it moves at all only from a row whose flag is set. *)
Lemma last_valid_idx_loop_bounds (ct : list bool) (row_i : Z) (fuel : nat) :
  forall last l',
    last <= row_i ->
    row_i - last <= HIST_LEN_FRAMES - 1 ->
    last_valid_idx_loop fuel ct row_i last = Ok l' ->
    l' <= last /\ row_i - l' <= HIST_LEN_FRAMES - 1
    /\ (l' = last -> row_i - last + 1 < HIST_LEN_FRAMES -> iloc ct last = Ok false)
    /\ (l' < last -> iloc ct last = Ok true).
Proof.
  unfold HIST_LEN_FRAMES.
  induction fuel as [| fuel IH]; intros last l' Hle Hcap; cbn [last_valid_idx_loop];
    [discriminate |].
  unfold HIST_LEN_FRAMES.
  destruct (row_i - last + 1 <? 100) eqn:Hlt.
  - apply Z.ltb_lt in Hlt.
    destruct (iloc ct last) as [c | |] eqn:Hc; cbn [py_bind]; try discriminate.
    destruct c.
    + intros Hrun. destruct (IH (last - 1) l' ltac:(lia) ltac:(lia) Hrun) as (H1 & H2 & _).
      repeat split; try lia; intros; reflexivity.
    + intros [= <-]. repeat split; try lia; intros; reflexivity.
  - apply Z.ltb_ge in Hlt. intros [= <-]. repeat split; lia.
Qed.

(** The rows of a table on which [compute_last_valid_idx_for_seq]
    returns, whatever the continuity column holds. *)
Lemma stored_hist_len_rows (tl_events_df df' : list row) :
  compute_last_valid_idx_for_seq tl_events_df = Ok df' ->
  length df' = length tl_events_df
  /\ forall (i : nat) (r : row),
      tl_events_df !! i = Some r ->
      exists v,
        df' !! i = Some (set_valid_hist_len r v)
        /\ 0 <= v <= HIST_LEN_FRAMES - 1
        /\ (v = 0 <-> continuous_time r = false).
Proof.
  unfold compute_last_valid_idx_for_seq.
  set (ct := map continuous_time tl_events_df).
  destruct (py_mapM (valid_hist_len_at ct) (range (len tl_events_df))) as [col | |] eqn:Hcol;
    cbn [py_bind]; try discriminate.
  intros [= <-]. apply py_mapM_inv in Hcol as [Hlen Hall].
  rewrite range_length in Hlen. unfold len in Hlen. rewrite Nat2Z.id in Hlen.
  split; [rewrite length_zip_with; lia |].
  intros i r Hr. pose proof (lookup_lt_Some _ _ _ Hr) as Hi.
  destruct (Hall i (Z.of_nat i)) as (v & Hv & Hat);
    [apply range_lookup; unfold len; lia |].
  exists v. split; [now rewrite lookup_zip_with, Hr, Hv |].
  unfold valid_hist_len_at in Hat.
  destruct (last_valid_idx_loop (Z.to_nat HIST_LEN_FRAMES) ct (Z.of_nat i) (Z.of_nat i))
    as [l' | |] eqn:Hloop; cbn [py_bind] in Hat; try discriminate.
  injection Hat as <-.
  destruct (last_valid_idx_loop_bounds ct (Z.of_nat i) (Z.to_nat HIST_LEN_FRAMES)
              (Z.of_nat i) l' ltac:(lia) ltac:(unfold HIST_LEN_FRAMES; lia) Hloop)
    as (H1 & H2 & Hstay & Hmove).
  assert (iloc ct (Z.of_nat i) = Ok (continuous_time r)) as Hflag.
  { apply iloc_in_range; [lia |]. unfold ct. now rewrite Nat2Z.id, list_lookup_fmap, Hr. }
  split; [lia |]. split.
  - intros Hz. assert (l' = Z.of_nat i) as Heq by lia.
    specialize (Hstay Heq ltac:(unfold HIST_LEN_FRAMES; lia)). congruence.
  - intros Hfalse. destruct (Z_lt_dec l' (Z.of_nat i)) as [Hlt | Hge]; [| lia].
    specialize (Hmove Hlt). congruence.
Qed.

(** X2.  Whenever [compute_last_valid_idx_for_seq] returns, and whatever
    the continuity column holds: the table keeps its rows and its other
    columns, and the column [valid_hist_len] it has stored holds, in
    every row, a number in [0, 99] that is 0 exactly when the continuity
    flag of the row is false. *)
Theorem valid_hist_len_range (tl_events_df df' : list row) :
  compute_last_valid_idx_for_seq tl_events_df = Ok df' ->
  length df' = length tl_events_df
  /\ forall (i : nat) (r : row),
      tl_events_df !! i = Some r ->
      exists r',
        df' !! i = Some r'
        /\ same_but_valid_hist_len r r'
        /\ 0 <= valid_hist_len r' <= HIST_LEN_FRAMES - 1
        /\ (valid_hist_len r' = 0 <-> continuous_time r' = false).
Proof.
  intros Hrun. destruct (stored_hist_len_rows tl_events_df df' Hrun) as [Hlen Hrows].
  split; [exact Hlen |]. intros i r Hr.
  destruct (Hrows i r Hr) as (v & Hv & Hrange & Hzero).
  exists (set_valid_hist_len r v). split; [exact Hv |].
  split; [repeat split |]. split; [exact Hrange | exact Hzero].
Qed.

(** A row of a prepared table that is flagged continuous follows, in the
    raw table, a row of the same intersection by less than 0.31 s. *)
Lemma prepared_rows (raw : list row) :
  exists df,
    compute_last_valid_idx_for_seq (add_continuous_time raw) = Ok df
    /\ length df = length raw
    /\ forall (i : nat) (r0 : row),
        raw !! i = Some r0 ->
        exists b v,
          df !! i = Some (set_valid_hist_len (set_continuous_time r0 b) v)
          /\ map continuous_time (add_continuous_time raw) !! i = Some b
          /\ 0 <= v <= Z.of_nat i
          /\ v <= HIST_LEN_FRAMES - 1
          /\ v = Z.min (Z.of_nat (continuous_run
                                     (map continuous_time (add_continuous_time raw)) i))
                       (HIST_LEN_FRAMES - 1)
          /\ (b = true ->
              exists i' p,
                i = S i' /\ raw !! i' = Some p
                /\ timestamp r0 - timestamp p < continuity_gap
                /\ master_intersection_idx p = master_intersection_idx r0)
          /\ (forall d, (d < Z.to_nat v)%nat ->
                        exists rd, df !! (i - d)%nat = Some rd /\ continuous_time rd = true).
Proof.
  destruct (valid_hist_len_rows (add_continuous_time raw) (add_continuous_time_head raw))
    as (df & Hrun & Hlen & Hrows).
  exists df. split; [exact Hrun |]. rewrite add_continuous_time_length in Hlen.
  split; [exact Hlen |].
  assert (forall m rm, df !! m = Some rm ->
                       exists r1, add_continuous_time raw !! m = Some r1
                                  /\ continuous_time rm = continuous_time r1) as Hback.
  { intros m rm Hm. pose proof (lookup_lt_Some _ _ _ Hm) as Hlt. rewrite Hlen in Hlt.
    destruct (lookup_lt_is_Some_2 raw m Hlt) as [r0 Hr0].
    pose proof (add_continuous_time_lookup raw m r0 Hr0) as H1.
    destruct (Hrows m _ H1) as (v & Hv & _). rewrite Hm in Hv. injection Hv as ->.
    eexists. split; [exact H1 | reflexivity]. }
  intros i r0 Hr0.
  pose proof (add_continuous_time_lookup raw i r0 Hr0) as H1.
  destruct (Hrows i _ H1) as (v & Hv & _ & Hmin & Hwalk & Hvi & Hcap).
  eexists _, v. split; [exact Hv |].
  split; [now rewrite list_lookup_fmap, H1 |]. split; [exact Hvi |].
  split; [unfold HIST_LEN_FRAMES in *; lia |]. split; [exact Hmin |]. split.
  - destruct i as [| i']; [discriminate |].
    destruct (raw !! i') as [p |] eqn:Hp; [| discriminate].
    intros Hb. apply andb_true_iff in Hb as [Hgap Hsame].
    exists i', p. repeat split; [exact Hp | now apply Z.ltb_lt | now apply Z.eqb_eq].
  - intros d Hd. destruct (Hwalk d Hd) as (r' & Hr' & Hc).
    pose proof (lookup_lt_Some _ _ _ Hr') as Hlt.
    rewrite add_continuous_time_length, <- Hlen in Hlt.
    destruct (lookup_lt_is_Some_2 df (i - d)%nat Hlt) as [rd Hrd].
    exists rd. split; [exact Hrd |].
    destruct (Hback _ _ Hrd) as (r1 & Hr1 & ->). congruence.
Qed.

(** The rows of a history on a prepared table. *)
Lemma prepared_history (raw : list row) :
  exists df,
    compute_last_valid_idx_for_seq (add_continuous_time raw) = Ok df
    /\ forall (i : nat) (r : row),
        df !! i = Some r ->
        forall d : nat,
          Z.of_nat d <= valid_hist_len r ->
          exists r',
            (d <= i)%nat
            /\ df !! (i - d)%nat = Some r'
            /\ master_intersection_idx r' = master_intersection_idx r
            /\ timestamp r - timestamp r' <= Z.of_nat d * (continuity_gap - 1).
Proof.
  destruct (prepared_rows raw) as (df & Hrun & Hlen & Hrows).
  exists df. split; [exact Hrun |].
  intros i r Hr.
  pose proof (lookup_lt_Some _ _ _ Hr) as Hi. rewrite Hlen in Hi.
  destruct (lookup_lt_is_Some_2 raw i Hi) as [r0 Hr0].
  destruct (Hrows i r0 Hr0) as (b & v & Hv & _ & Hvi & _ & _ & _ & Hwalk).
  rewrite Hr in Hv. injection Hv as ->. cbn [valid_hist_len set_valid_hist_len].
  induction d as [| d IH]; intros Hd.
  - exists (set_valid_hist_len (set_continuous_time r0 b) v).
    rewrite Nat.sub_0_r. repeat split; [lia | exact Hr | lia].
  - destruct (IH ltac:(lia)) as (rd & Hdi & Hrd & Hsame & Htime).
    destruct (Hwalk d ltac:(lia)) as (rd' & Hrd' & Hflag).
    rewrite Hrd in Hrd'. injection Hrd' as <-.
    pose proof (lookup_lt_Some _ _ _ Hrd) as Hlt. rewrite Hlen in Hlt.
    destruct (lookup_lt_is_Some_2 raw (i - d)%nat Hlt) as [q0 Hq0].
    destruct (Hrows (i - d)%nat q0 Hq0) as (bq & vq & Hq & _ & _ & _ & _ & Hpred & _).
    rewrite Hrd in Hq. injection Hq as ->.
    cbn [continuous_time set_valid_hist_len set_continuous_time] in Hflag.
    destruct (Hpred Hflag) as (i' & p & Hi' & Hp & Hgap & Hint).
    destruct (Hrows i' p Hp) as (bp & vp & Hdp & _).
    replace (i - S d)%nat with i' by lia.
    eexists. split; [lia |]. split; [exact Hdp |].
    cbn [master_intersection_idx timestamp set_valid_hist_len set_continuous_time] in *.
    split; [congruence |]. unfold continuity_gap in *. lia.
Qed.

(** X3.  On a table prepared by the program (flag derived, then history
    lengths computed), the history of a row never leaves its
    intersection: each of the [valid_hist_len] rows before a row exists,
    belongs to the same intersection, and the row [d] places back is
    at most [d] times (0.31 s less one nanosecond) older. *)
Theorem history_within_intersection (raw : list row) :
  exists df,
    compute_last_valid_idx_for_seq (add_continuous_time raw) = Ok df
    /\ forall (i : nat) (r : row),
        df !! i = Some r ->
        forall d : nat,
          Z.of_nat d <= valid_hist_len r ->
          exists r',
            (d <= i)%nat
            /\ df !! (i - d)%nat = Some r'
            /\ master_intersection_idx r' = master_intersection_idx r
            /\ timestamp r - timestamp r' <= Z.of_nat d * (continuity_gap - 1).
Proof. exact (prepared_history raw). Qed.

(** ** The valid-window selector *)

(** X4.  The integer code of a row round-trips: decoding the code of
    (number of tokens, flag) gives back "has a token" and the flag, the
    code is one of 0..3, and every such code is the code of what it
    decodes to. *)
Theorem len_continuity_round_trip :
  (forall (records_len : Z) (is_continuous : bool),
      decode_len_continuity (encode_len_continuity records_len is_continuous)
      = (1 <=? records_len, is_continuous)
      /\ 0 <= encode_len_continuity records_len is_continuous <= 3)
  /\ (forall num : Z,
         0 <= num <= 3 ->
         encode_len_continuity (if fst (decode_len_continuity num) then 1 else 0)
                               (snd (decode_len_continuity num))
         = num).
Proof.
  split.
  - intros records_len is_continuous. split; [apply decode_encode_len_continuity |].
    unfold encode_len_continuity.
    destruct (1 <=? records_len), is_continuous; vm_compute; split; discriminate.
  - intros num Hnum.
    assert (num = 0 \/ num = 1 \/ num = 2 \/ num = 3) as [-> | [-> | [-> | ->]]] by lia;
      reflexivity.
Qed.

Lemma boolean_index_positions (n : nat) :
  forall (s : nat) (mask : list bool),
    Forall (fun x => Z.of_nat s <= x < Z.of_nat (s + n))
           (boolean_index (map Z.of_nat (seq s n)) mask)
    /\ (length (boolean_index (map Z.of_nat (seq s n)) mask) <= n)%nat
    /\ forall (a b : nat) (x y : Z),
        boolean_index (map Z.of_nat (seq s n)) mask !! a = Some x ->
        boolean_index (map Z.of_nat (seq s n)) mask !! b = Some y ->
        (a < b)%nat -> x < y.
Proof.
  induction n as [| n IH]; intros s mask; cbn [seq map boolean_index].
  - repeat split; [constructor | cbn; lia | intros a b x y Ha; discriminate].
  - destruct mask as [| m mask].
    { repeat split; [constructor | cbn; lia | intros a b x y Ha; discriminate]. }
    destruct (IH (S s) mask) as (Hrange & Hlen & Hsorted).
    assert (Forall (fun x => Z.of_nat s <= x < Z.of_nat (s + S n))
                   (boolean_index (map Z.of_nat (seq (S s) n)) mask)) as Hrange'.
    { eapply Forall_impl; [exact Hrange |]. intros x Hx. cbn beta in Hx. lia. }
    destruct m.
    + split; [constructor; [lia | exact Hrange'] |]. split; [cbn; lia |].
      intros [| a] [| b] x y Ha Hb Hab; cbn in Ha, Hb; try lia.
      * injection Ha as <-.
        apply list_elem_of_lookup_2 in Hb.
        rewrite Forall_forall in Hrange. specialize (Hrange y Hb). cbn beta in Hrange. lia.
      * apply (Hsorted a b); [exact Ha | exact Hb | lia].
    + split; [exact Hrange' |]. split; [lia | exact Hsorted].
Qed.

(** X5.  With the window size the program uses, the selector never
    raises, and its result is a strictly increasing list of positions of
    the table: no position outside the table, none twice, at most as
    many as there are rows. *)
Theorem valid_indices_are_positions (df : list row) (is_inference : bool) :
  exists idxs,
    get_valid_indices df HIST_LEN_FRAMES is_inference = Ok idxs
    /\ Forall (fun i => 0 <= i < len df) idxs
    /\ len idxs <= len df
    /\ forall (a b : nat) (x y : Z),
        idxs !! a = Some x -> idxs !! b = Some y -> (a < b)%nat -> x < y.
Proof.
  unfold get_valid_indices, rolling_agg. cbn [py_bind Z.ltb Z.compare Z.sub Z.add].
  replace (HIST_LEN_FRAMES - 1 <? 1) with false by reflexivity. cbn [py_bind].
  eexists. split; [reflexivity |].
  unfold range.
  match goal with
  | |- context [boolean_index _ ?m] =>
      destruct (boolean_index_positions (Z.to_nat (len df)) 0 m) as (Hrange & Hlen & Hsorted)
  end.
  split; [| split; [| exact Hsorted]].
  - eapply Forall_impl; [exact Hrange |]. intros x Hx. cbn beta in Hx. unfold len in *. lia.
  - unfold len in *. lia.
Qed.

(** X6.  A row whose own continuity flag is false is never a valid
    sample, in training or in inference mode, whatever tokens and labels
    it has; so the first row of a table whose flag the program derived is
    never one. *)
Theorem discontinuous_row_never_valid (df : list row) (is_inference : bool) :
  exists idxs,
    get_valid_indices df HIST_LEN_FRAMES is_inference = Ok idxs
    /\ (forall i, In i idxs ->
                  exists r, df !! Z.to_nat i = Some r /\ continuous_time r = true)
    /\ exists idxs0,
        get_valid_indices (add_continuous_time df) HIST_LEN_FRAMES is_inference = Ok idxs0
        /\ ~ In 0 idxs0.
Proof.
  destruct (get_valid_indices_spec df HIST_LEN_FRAMES is_inference)
    as (idxs & Hget & Hspec); [unfold HIST_LEN_FRAMES; lia |].
  destruct (get_valid_indices_spec (add_continuous_time df) HIST_LEN_FRAMES is_inference)
    as (idxs0 & Hget0 & Hspec0); [unfold HIST_LEN_FRAMES; lia |].
  exists idxs. split; [exact Hget |]. split.
  - intros i Hi. apply Hspec in Hi as (_ & (j & Hji & _ & _ & Hall) & _).
    apply (Hall (Z.to_nat i)). lia.
  - exists idxs0. split; [exact Hget0 |]. intros H0.
    apply Hspec0 in H0 as (_ & (j & Hji & _ & _ & Hall) & _).
    destruct (Hall (Z.to_nat 0) ltac:(lia)) as (r & Hr & Hc).
    apply add_continuous_time_head in Hr. congruence.
Qed.

(** X7.  Inference mode only drops the label requirement: every index
    valid for training is valid for inference, and an index valid for
    inference is valid for training exactly when its row has a labelled
    signal. *)
Theorem inference_mode_keeps_training_indices (df : list row) :
  exists trn inf,
    get_valid_indices df HIST_LEN_FRAMES false = Ok trn
    /\ get_valid_indices df HIST_LEN_FRAMES true = Ok inf
    /\ (forall i, In i trn -> In i inf)
    /\ (forall i, In i inf -> (In i trn <-> has_label df (Z.to_nat i))).
Proof.
  destruct (get_valid_indices_spec df HIST_LEN_FRAMES false)
    as (trn & Htrn & Hspec_t); [unfold HIST_LEN_FRAMES; lia |].
  destruct (get_valid_indices_spec df HIST_LEN_FRAMES true)
    as (inf & Hinf & Hspec_i); [unfold HIST_LEN_FRAMES; lia |].
  exists trn, inf. split; [exact Htrn |]. split; [exact Hinf |]. split.
  - intros i Hi. apply Hspec_t in Hi as (H1 & H2 & _). apply Hspec_i. now auto.
  - intros i Hi. apply Hspec_i in Hi as (H1 & H2 & _). rewrite Hspec_t. split.
    + intros (_ & _ & [Hl | Hf]); [exact Hl | discriminate].
    + intros Hl. now auto.
Qed.

(** X8.  The dataset [get_dataloader] builds holds the rows of the
    requested intersection only, in table order, uses the window length
    100 and the frequency threshold 5, reserves the two indices after
    the vocabulary, and lists as valid indices positions of that
    filtered table; when the intersection has a row, its capacity is
    100 times the largest number of events of a frame.  With a number
    of workers that is not negative and a positive batch size,
    [get_dataloader] returns the loader over that dataset, unless it is
    to shuffle a dataset without any valid index: then it raises
    [ValueError], as it does in particular for an intersection without
    a row in the table.  It also raises [ValueError] for a negative
    number of workers and for a batch size that is not positive. *)
Theorem dataloader_dataset (table : list row) (intersection_idx : Z) (shuffling : bool)
    (train_vocab term_freq : gmap string Z) (tl_signal_indices : list nat)
    (samples_per_batch workers : Z) (return_indices is_inference : bool) :
  exists ds,
    get_dataloader_dataset table intersection_idx train_vocab term_freq tl_signal_indices
                           return_indices is_inference = Ok ds
    /\ tl_events_df ds
       = List.filter (fun r => master_intersection_idx r =? intersection_idx) table
    /\ Forall (fun i => 0 <= i < len (tl_events_df ds)) (valid_indices ds)
    /\ history_len_records ds = 100
    /\ min_freq ds = 5
    /\ UNKNOWN_TOKEN_IDX ds = dict_len train_vocab
    /\ PAD_TOKEN_IDX ds = dict_len train_vocab + 1
    /\ (tl_events_df ds <> [] ->
        history_events_max ds = 100 * max_events_per_timestamp (tl_events_df ds))
    /\ (0 <= workers -> 0 < samples_per_batch ->
        shuffling = false \/ valid_indices ds <> [] ->
        get_dataloader table intersection_idx shuffling train_vocab term_freq
                       tl_signal_indices samples_per_batch workers
                       return_indices is_inference
        = Ok (mk_DataLoader ds shuffling samples_per_batch workers))
    /\ (valid_indices ds = [] ->
        get_dataloader table intersection_idx true train_vocab term_freq
                       tl_signal_indices samples_per_batch workers
                       return_indices is_inference
        = Raise ValueError)
    /\ (workers < 0 \/ samples_per_batch <= 0 ->
        get_dataloader table intersection_idx shuffling train_vocab term_freq
                       tl_signal_indices samples_per_batch workers
                       return_indices is_inference
        = Raise ValueError)
    /\ (Forall (fun r => master_intersection_idx r <> intersection_idx) table ->
        valid_indices ds = []).
Proof.
  unfold get_dataloader, get_dataloader_dataset.
  set (df := List.filter (fun r => master_intersection_idx r =? intersection_idx) table).
  destruct (get_valid_indices_spec df HIST_LEN_FRAMES is_inference)
    as (idxs & Hget & Hspec); [unfold HIST_LEN_FRAMES; lia |].
  rewrite Hget. cbn [py_bind]. eexists. split; [reflexivity |].
  unfold DataLoader__init__, __len__.
  cbn [IntersectionDataset__init__ tl_events_df valid_indices history_len_records min_freq
       UNKNOWN_TOKEN_IDX PAD_TOKEN_IDX history_events_max].
  assert (Forall (fun i => 0 <= i < len df) idxs) as Hrange.
  { apply Forall_forall. intros i Hi. apply list_elem_of_In in Hi.
    apply Hspec in Hi. tauto. }
  split; [reflexivity |]. split; [exact Hrange |].
  do 4 (split; [reflexivity |]). split; [reflexivity |].
  split; [| split; [| split]].
  - intros Hw Hb Hidx.
    destruct (workers <? 0) eqn:Hw0; [apply Z.ltb_lt in Hw0; lia |].
    destruct (samples_per_batch <=? 0) eqn:Hb0; [apply Z.leb_le in Hb0; lia |].
    destruct Hidx as [-> | Hidx]; [reflexivity |].
    destruct idxs as [| i idxs]; [contradiction |].
    replace (len (i :: idxs) =? 0) with false
      by (symmetry; apply Z.eqb_neq; unfold len; cbn [length]; lia).
    rewrite andb_false_r. reflexivity.
  - intros ->. destruct (workers <? 0); reflexivity.
  - intros Hbad. destruct (workers <? 0) eqn:Hw0; [reflexivity |].
    apply Z.ltb_ge in Hw0.
    destruct (shuffling && (len idxs =? 0)); [reflexivity |].
    destruct (samples_per_batch <=? 0) eqn:Hb0; [reflexivity |].
    apply Z.leb_gt in Hb0. lia.
  - intros Hnone.
    assert (List.filter (fun r => master_intersection_idx r =? intersection_idx) table = [])
      as Hdf.
    { clear -Hnone. induction Hnone as [| r table' Hr _ IH]; [reflexivity |].
      cbn [List.filter]. rewrite (proj2 (Z.eqb_neq _ _) Hr). exact IH. }
    unfold df in Hrange. rewrite Hdf in Hrange. destruct idxs as [| i idxs]; [reflexivity |].
    apply Forall_cons in Hrange as [Hi _]. unfold len in Hi. cbn [length] in Hi. lia.
Qed.

(** ** The vocabulary *)

Lemma distinct_tokens_snoc (tokens : list string) (t : string) :
  distinct_tokens (tokens ++ [t])
  = if bool_decide (t ∈ distinct_tokens tokens)
    then distinct_tokens tokens
    else distinct_tokens tokens ++ [t].
Proof. unfold distinct_tokens. now rewrite fold_left_app. Qed.

Lemma occurrences_snoc (token t : string) (tokens : list string) :
  occurrences token (tokens ++ [t])
  = occurrences token tokens + (if String.eqb t token then 1 else 0).
Proof.
  induction tokens as [| t' tokens IH]; cbn [app occurrences]; [lia |].
  rewrite IH. lia.
Qed.

Lemma occurrences_nonneg (token : string) (tokens : list string) :
  0 <= occurrences token tokens.
Proof.
  induction tokens as [| t tokens IH]; cbn [occurrences]; [lia |].
  destruct (String.eqb t token); lia.
Qed.

Lemma vocab_of_nil : vocab_of [] ∅ ∅.
Proof.
  unfold vocab_of. cbn. split; [constructor |]. split.
  - intros t i. rewrite lookup_empty. split; [discriminate | intros [_ H]; discriminate].
  - split; [reflexivity |]. split; [intros t; apply lookup_empty |].
    intros t. split; [intros H; inversion H | lia].
Qed.

Lemma train_vocab_step_vocab_of (tokens : list string) (v f : gmap string Z) (t : string) :
  vocab_of tokens v f ->
  exists v' f',
    train_vocab_step (v, f) t = Ok (v', f') /\ vocab_of (tokens ++ [t]) v' f'.
Proof.
  intros (Hnd & Hidx & Hsize & Hfreq & Hocc).
  assert (forall t0, is_Some (v !! t0) <-> t0 ∈ distinct_tokens tokens) as Hdom.
  { intros t0. split.
    - intros [i Hi]. apply Hidx in Hi as [_ Hi]. now apply list_elem_of_lookup_2 in Hi.
    - intros Hin. apply list_elem_of_lookup_1 in Hin as [k Hk].
      exists (Z.of_nat k). apply Hidx. split; [lia |]. now rewrite Nat2Z.id. }
  unfold train_vocab_step.
  destruct (v !! t) as [i |] eqn:Hv.
  - assert (t ∈ distinct_tokens tokens) as Hin by (apply Hdom; now rewrite Hv).
    pose proof (proj1 (Hocc t) Hin) as Hpos.
    rewrite Hfreq. replace (occurrences t tokens =? 0) with false
      by (symmetry; apply Z.eqb_neq; lia).
    eexists _, _. split; [reflexivity |].
    unfold vocab_of. rewrite distinct_tokens_snoc, bool_decide_eq_true_2 by exact Hin.
    split; [exact Hnd |]. split; [exact Hidx |]. split; [exact Hsize |]. split.
    + intros t0. rewrite occurrences_snoc.
      destruct (String.eqb_spec t t0) as [<- | Hne].
      * rewrite lookup_insert_eq.
        replace (occurrences t tokens + 1 =? 0) with false
          by (symmetry; apply Z.eqb_neq; lia).
        reflexivity.
      * rewrite lookup_insert_ne by exact Hne. rewrite Z.add_0_r. apply Hfreq.
    + intros t0. rewrite occurrences_snoc. rewrite Hocc.
      destruct (String.eqb_spec t t0) as [<- | Hne]; lia.
  - assert (t ∉ distinct_tokens tokens) as Hnin.
    { intros Hin. apply Hdom in Hin as [i Hi]. congruence. }
    assert (occurrences t tokens = 0) as Hzero.
    { pose proof (occurrences_nonneg t tokens). pose proof (Hocc t). 
      destruct (Z_lt_dec 0 (occurrences t tokens)) as [Hlt | Hge]; [| lia].
      exfalso. apply Hnin. tauto. }
    eexists _, _. split; [reflexivity |].
    unfold vocab_of. rewrite distinct_tokens_snoc, bool_decide_eq_false_2 by exact Hnin.
    split.
    { apply NoDup_app. split; [exact Hnd |]. split; [| apply NoDup_singleton].
      intros x Hx Hx'. apply list_elem_of_singleton in Hx'. subst x. now apply Hnin. }
    split.
    { intros t0 i. unfold dict_len. destruct (decide (t = t0)) as [<- | Hne].
      - rewrite lookup_insert_eq. split.
        + intros [= <-]. split; [lia |]. rewrite Nat2Z.id, Hsize.
          rewrite lookup_app_r by lia. now rewrite Nat.sub_diag.
        + intros [Hi Hlook]. f_equal.
          destruct (Nat.lt_ge_cases (Z.to_nat i) (length (distinct_tokens tokens)))
            as [Hlt | Hge].
          * rewrite lookup_app_l in Hlook by exact Hlt.
            apply list_elem_of_lookup_2 in Hlook. now apply Hnin in Hlook.
          * pose proof (lookup_lt_Some _ _ _ Hlook) as Hlen.
            rewrite length_app in Hlen. cbn in Hlen. lia.
      - rewrite lookup_insert_ne by exact Hne. rewrite Hidx. split.
        + intros [Hi Hlook]. split; [exact Hi |].
          rewrite lookup_app_l; [exact Hlook | now apply lookup_lt_Some in Hlook].
        + intros [Hi Hlook]. split; [exact Hi |].
          destruct (Nat.lt_ge_cases (Z.to_nat i) (length (distinct_tokens tokens)))
            as [Hlt | Hge].
          * now rewrite lookup_app_l in Hlook by exact Hlt.
          * rewrite lookup_app_r in Hlook by exact Hge.
            destruct (Z.to_nat i - length (distinct_tokens tokens))%nat; cbn in Hlook;
              [congruence | discriminate]. }
    split.
    { rewrite map_size_insert_None by exact Hv. rewrite length_app. cbn. lia. }
    split.
    + intros t0. rewrite occurrences_snoc.
      destruct (String.eqb_spec t t0) as [<- | Hne].
      * rewrite lookup_insert_eq, Hzero. reflexivity.
      * rewrite lookup_insert_ne by exact Hne. rewrite Z.add_0_r. apply Hfreq.
    + intros t0. rewrite occurrences_snoc, elem_of_app, list_elem_of_singleton, Hocc.
      destruct (String.eqb_spec t t0) as [<- | Hne].
      * split; [intros _; lia | intros _; now right].
      * split; [intros [H | H]; [lia | congruence] | intros H; left; lia].
Qed.

Lemma train_vocab_fold_vocab_of (rest : list string) :
  forall (tokens : list string) (v f : gmap string Z),
    vocab_of tokens v f ->
    exists v' f',
      py_foldM train_vocab_step rest (v, f) = Ok (v', f')
      /\ vocab_of (tokens ++ rest) v' f'.
Proof.
  induction rest as [| t rest IH]; intros tokens v f Hvf; cbn [py_foldM].
  - exists v, f. now rewrite app_nil_r.
  - destruct (train_vocab_step_vocab_of tokens v f t Hvf) as (v1 & f1 & -> & H1).
    cbn [py_bind]. destruct (IH _ _ _ H1) as (v' & f' & Hrun & H').
    exists v', f'. split; [exact Hrun |]. now rewrite <- app_assoc in H'.
Qed.

(** The double loop reads the tokens of the inputs in reading order. *)
Lemma build_train_vocab_flat (inputs : list (list (string * token_type))) :
  forall st,
    py_foldM
      (fun st rnn_input_raw => py_foldM (fun st tk => train_vocab_step st (fst tk)) rnn_input_raw st)
      inputs st
    = py_foldM train_vocab_step (corpus_tokens inputs) st.
Proof.
  assert (forall (frame : list (string * token_type)) (rest : list string) st,
             py_foldM train_vocab_step (map fst frame ++ rest) st
             = do st' <~ py_foldM (fun st tk => train_vocab_step st (fst tk)) frame st;
               py_foldM train_vocab_step rest st') as Hframe.
  { induction frame as [| tk frame IHf]; intros rest st; cbn [map app py_foldM];
      [reflexivity |].
    destruct (train_vocab_step st (fst tk)); cbn [py_bind]; [apply IHf | reflexivity ..]. }
  induction inputs as [| frame inputs IH]; intros st; cbn [py_foldM corpus_tokens flat_map];
    [reflexivity |].
  rewrite Hframe.
  destruct (py_foldM (fun st tk => train_vocab_step st (fst tk)) frame st); cbn [py_bind];
    [apply IH | reflexivity ..].
Qed.

Lemma build_train_vocab_vocab_of (inputs : list (list (string * token_type))) :
  exists train_vocab term_freq,
    build_train_vocab inputs = Ok (train_vocab, term_freq)
    /\ vocab_of (corpus_tokens inputs) train_vocab term_freq.
Proof.
  unfold build_train_vocab. rewrite build_train_vocab_flat.
  exact (train_vocab_fold_vocab_of (corpus_tokens inputs) [] ∅ ∅ vocab_of_nil).
Qed.

(** X9.  The vocabulary loop never raises, and the vocabulary it leaves
    is the list of distinct tokens of the training inputs in the order
    of their first occurrence: a token has index [i] exactly when it is
    the [i]-th distinct token read (counting from 0). *)
Theorem vocabulary_in_first_seen_order (inputs : list (list (string * token_type))) :
  exists train_vocab term_freq,
    build_train_vocab inputs = Ok (train_vocab, term_freq)
    /\ dict_len train_vocab = len (distinct_tokens (corpus_tokens inputs))
    /\ forall (t : string) (i : Z),
        train_vocab !! t = Some i
        <-> 0 <= i /\ distinct_tokens (corpus_tokens inputs) !! Z.to_nat i = Some t.
Proof.
  destruct (build_train_vocab_vocab_of inputs) as (v & f & Hrun & _ & Hidx & Hsize & _).
  exists v, f. split; [exact Hrun |]. split; [| exact Hidx].
  unfold dict_len, len. now rewrite Hsize.
Qed.

(** X10.  The frequency the loop records for a token is the number of
    its occurrences in the training inputs; a token has a frequency, and
    an index, exactly when it occurs at least once, and then the two
    dictionaries both hold it. *)
Theorem term_frequencies_count_occurrences (inputs : list (list (string * token_type))) :
  exists train_vocab term_freq,
    build_train_vocab inputs = Ok (train_vocab, term_freq)
    /\ forall t : string,
        (0 < occurrences t (corpus_tokens inputs) ->
         term_freq !! t = Some (occurrences t (corpus_tokens inputs))
         /\ is_Some (train_vocab !! t))
        /\ (occurrences t (corpus_tokens inputs) = 0 ->
            term_freq !! t = None /\ train_vocab !! t = None).
Proof.
  destruct (build_train_vocab_vocab_of inputs)
    as (v & f & Hrun & _ & Hidx & _ & Hfreq & Hocc).
  exists v, f. split; [exact Hrun |]. intros t. split.
  - intros Hpos. split.
    + rewrite Hfreq. now replace (occurrences t (corpus_tokens inputs) =? 0) with false
        by (symmetry; apply Z.eqb_neq; lia).
    + apply Hocc in Hpos. apply list_elem_of_lookup_1 in Hpos as [k Hk].
      exists (Z.of_nat k). apply Hidx. split; [lia |]. now rewrite Nat2Z.id.
  - intros Hzero. split.
    + rewrite Hfreq, Hzero. reflexivity.
    + destruct (v !! t) as [i |] eqn:Hv; [| reflexivity].
      apply Hidx in Hv as [_ Hv]. apply list_elem_of_lookup_2, Hocc in Hv. lia.
Qed.

(** X11.  The indices of the vocabulary are exactly 0, ..., size - 1,
    each given to one token: two tokens never share an index, every
    index below the size is taken, and the two reserved indices (UNKNOWN
    = size, PAD = size + 1) are never the index of a token. *)
Theorem vocabulary_indices_dense (inputs : list (list (string * token_type))) :
  exists train_vocab term_freq,
    build_train_vocab inputs = Ok (train_vocab, term_freq)
    /\ (forall (t t' : string) (i : Z),
           train_vocab !! t = Some i -> train_vocab !! t' = Some i -> t = t')
    /\ (forall i : Z, 0 <= i < dict_len train_vocab ->
                      exists t, train_vocab !! t = Some i)
    /\ (forall (t : string) (i : Z),
           train_vocab !! t = Some i ->
           i <> dict_len train_vocab /\ i <> dict_len train_vocab + 1).
Proof.
  destruct (build_train_vocab_vocab_of inputs) as (v & f & Hrun & _ & Hidx & Hsize & _).
  exists v, f. split; [exact Hrun |]. split.
  - intros t t' i Ht Ht'. apply Hidx in Ht as [_ Ht]. apply Hidx in Ht' as [_ Ht']. congruence.
  - split.
    + intros i Hi. unfold dict_len in Hi. rewrite Hsize in Hi.
      destruct (lookup_lt_is_Some_2 (distinct_tokens (corpus_tokens inputs)) (Z.to_nat i))
        as [t Ht]; [lia |].
      exists t. apply Hidx. split; [lia | exact Ht].
    + intros t i Ht. apply Hidx in Ht as [Hi Ht]. apply lookup_lt_Some in Ht.
      unfold dict_len. rewrite Hsize. lia.
Qed.

(** X12.  Vocabulary and resolution together: with the vocabulary built
    from the training inputs, a token of a history resolves to its
    vocabulary index exactly when it occurs in the training inputs at
    least once and at least [min_freq] times; every other token, seen
    too rarely or never, resolves to UNKNOWN; the lookup never raises. *)
Theorem resolution_by_training_frequency (inputs : list (list (string * token_type))) :
  exists train_vocab term_freq,
    build_train_vocab inputs = Ok (train_vocab, term_freq)
    /\ forall (df : list row) (valid : list Z) (signals : list nat)
              (hlr threshold : Z) (ret : bool) (t : string),
        (0 < occurrences t (corpus_tokens inputs) ->
         threshold <= occurrences t (corpus_tokens inputs) ->
         exists i,
           train_vocab !! t = Some i
           /\ token_idx_of (IntersectionDataset__init__ df valid train_vocab term_freq
                                                        signals hlr threshold ret) t
              = Ok i)
        /\ (occurrences t (corpus_tokens inputs) = 0
            \/ occurrences t (corpus_tokens inputs) < threshold ->
            token_idx_of (IntersectionDataset__init__ df valid train_vocab term_freq
                                                      signals hlr threshold ret) t
            = Ok (dict_len train_vocab)).
Proof.
  destruct (build_train_vocab_vocab_of inputs)
    as (v & f & Hrun & _ & Hidx & _ & Hfreq & Hocc).
  exists v, f. split; [exact Hrun |].
  intros df valid signals hlr threshold ret t.
  unfold token_idx_of.
  cbn [vocab_term_2_idx vocab_term_2_freq min_freq UNKNOWN_TOKEN_IDX IntersectionDataset__init__].
  rewrite Hfreq.
  pose proof (occurrences_nonneg t (corpus_tokens inputs)) as Hnn.
  destruct (v !! t) as [i |] eqn:Hv.
  - assert (0 < occurrences t (corpus_tokens inputs)) as Hpos.
    { apply Hocc. apply Hidx in Hv as [_ Hv]. now apply list_elem_of_lookup_2 in Hv. }
    replace (occurrences t (corpus_tokens inputs) =? 0) with false
      by (symmetry; apply Z.eqb_neq; lia).
    split.
    + intros _ Hmin. exists i. split; [reflexivity |].
      now replace (threshold <=? occurrences t (corpus_tokens inputs)) with true
        by (symmetry; apply Z.leb_le; lia).
    + intros [Hz | Hlt]; [lia |].
      now replace (threshold <=? occurrences t (corpus_tokens inputs)) with false
        by (symmetry; apply Z.leb_gt; lia).
  - split; [| reflexivity].
    intros Hpos _. exfalso. apply Hocc in Hpos. apply list_elem_of_lookup_1 in Hpos as [k Hk].
    assert (v !! t = Some (Z.of_nat k)) as Hv'
        by (apply Hidx; split; [lia | now rewrite Nat2Z.id]).
    congruence.
Qed.

(** ** The samples of a dataset *)

(** The three lists of the history loop grow together. *)
Lemma history_frame_lengths (self : IntersectionDataset) (frame : list (string * token_type))
    (h h' : history) :
  length (token_type_ohe_list h) = length (tokens_list h)
  /\ length (token_timesteps_list h) = length (tokens_list h) ->
  history_frame self h frame = Ok h' ->
  length (token_type_ohe_list h') = length (tokens_list h')
  /\ length (token_timesteps_list h') = length (tokens_list h').
Proof.
  intros Hh. unfold history_frame.
  destruct (py_foldM (history_token self) frame h) as [h1 | |] eqn:Hrun;
    cbn [py_bind]; try discriminate.
  intros [= <-]. cbn [tokens_list token_type_ohe_list token_timesteps_list].
  revert Hrun.
  apply (py_foldM_invariant
           (fun h => length (token_type_ohe_list h) = length (tokens_list h)
                     /\ length (token_timesteps_list h) = length (tokens_list h)));
    [| exact Hh].
  intros s [token ty] s' [Hs1 Hs2]. unfold history_token.
  destruct (history_len_records self =? 0); [discriminate |].
  destruct (token_idx_of self token); cbn [py_bind]; try discriminate.
  intros [= <-]. cbn [tokens_list token_type_ohe_list token_timesteps_list].
  rewrite !length_app. cbn. lia.
Qed.

(** What a returning call of [__getitem__] went through. *)
Lemma getitem_inv (self : IntersectionDataset) (index : Z) (s : sample) :
  __getitem__ self index = Ok s ->
  exists (row_i vhl : Z) (h : history) (kc kt : gmap nat Q),
    iloc (valid_indices self) index = Ok row_i
    /\ iloc (map valid_hist_len (tl_events_df self)) row_i = Ok vhl
    /\ py_foldM (history_frame self)
         (iloc_slice (map rnn_inputs_raw (tl_events_df self))
                     (row_i - Z.min (history_len_records self) vhl) (row_i + 1))
         (mk_history [] [] [] (Z.min (history_len_records self) vhl + 1)) = Ok h
    /\ 0 < len (tokens_list h) <= history_events_max self
    /\ iloc (map tl_signal_classes (tl_events_df self)) row_i = Ok kc
    /\ iloc (map time_to_tl_change (tl_events_df self)) row_i = Ok kt
    /\ seq_len s = len (tokens_list h)
    /\ tokens_np s
       = tokens_list h
           ++ repeat (PAD_TOKEN_IDX self)
                     (Z.to_nat (history_events_max self - len (tokens_list h)))
    /\ token_type_ohe_np s
       = token_type_ohe_list h
           ++ repeat (0, 0, 0, 0) (Z.to_nat (history_events_max self - len (tokens_list h)))
    /\ token_timesteps_np s
       = token_timesteps_list h
           ++ repeat 0%Q (Z.to_nat (history_events_max self - len (tokens_list h)))
    /\ all_true_classes s
       = map (fun tl_id => (tl_id, default 0%Q (kc !! tl_id))) (tl_signal_indices self)
    /\ all_tte s
       = map (fun tl_id => (tl_id, default 99%Q (kt !! tl_id))) (tl_signal_indices self)
    /\ classes_availabilities s
       = map (fun tl_id => (tl_id, bool_decide (is_Some (kc !! tl_id))))
             (tl_signal_indices self)
    /\ tte_availabilities s
       = map (fun tl_id => (tl_id, bool_decide (is_Some (kt !! tl_id))))
             (tl_signal_indices self)
    /\ (return_indices self = false -> scene_frame s = None)
    /\ (return_indices self = true ->
        exists sc fr,
          iloc (map scene_idx (tl_events_df self)) row_i = Ok sc
          /\ iloc (map frame_idx (tl_events_df self)) row_i = Ok fr
          /\ scene_frame s = Some (sc, fr)).
Proof.
  unfold __getitem__.
  destruct (iloc (valid_indices self) index) as [row_i | |] eqn:Hidx;
    cbn [py_bind]; try discriminate.
  destruct (iloc (map valid_hist_len (tl_events_df self)) row_i) as [vhl | |] eqn:Hvhl;
    cbn [py_bind]; try discriminate.
  match goal with
  | |- context [py_foldM (history_frame self) ?fr ?h0] =>
      destruct (py_foldM (history_frame self) fr h0) as [h | |] eqn:Hrun
  end; cbn [py_bind]; try discriminate.
  destruct (history_events_max self - len (tokens_list h) <? 0) eqn:Hpad; [discriminate |].
  destruct (len (tokens_list h) =? 0) eqn:Hzero; [discriminate |].
  apply Z.ltb_ge in Hpad. apply Z.eqb_neq in Hzero.
  destruct (iloc (map tl_signal_classes (tl_events_df self)) row_i) as [kc | |] eqn:Hkc;
    cbn [py_bind]; try discriminate.
  destruct (iloc (map time_to_tl_change (tl_events_df self)) row_i) as [kt | |] eqn:Hkt;
    cbn [py_bind]; try discriminate.
  pose proof (len_nonneg (tokens_list h)) as Hnn.
  destruct (return_indices self).
  - destruct (iloc (map scene_idx (tl_events_df self)) row_i) as [sc | |] eqn:Hsc;
      cbn [py_bind]; try discriminate.
    destruct (iloc (map frame_idx (tl_events_df self)) row_i) as [fr | |] eqn:Hfr;
      cbn [py_bind]; try discriminate.
    intros [= <-]. exists row_i, vhl, h, kc, kt. rewrite pad_tokens.
    cbn [seq_len tokens_np token_type_ohe_np token_timesteps_np all_true_classes all_tte
         classes_availabilities tte_availabilities scene_frame].
    do 3 (split; [reflexivity || assumption |]). split; [lia |].
    do 2 (split; [assumption |]). do 8 (split; [reflexivity |]).
    split; [discriminate |]. intros _. now exists sc, fr.
  - cbn [py_bind]. intros [= <-]. exists row_i, vhl, h, kc, kt. rewrite pad_tokens.
    cbn [seq_len tokens_np token_type_ohe_np token_timesteps_np all_true_classes all_tte
         classes_availabilities tte_availabilities scene_frame].
    do 3 (split; [reflexivity || assumption |]). split; [lia |].
    do 2 (split; [assumption |]). do 8 (split; [reflexivity |]).
    split; [reflexivity | discriminate].
Qed.

Lemma history_lengths (self : IntersectionDataset) (frames : list (list (string * token_type)))
    (t : Z) (h : history) :
  py_foldM (history_frame self) frames (mk_history [] [] [] t) = Ok h ->
  length (token_type_ohe_list h) = length (tokens_list h)
  /\ length (token_timesteps_list h) = length (tokens_list h).
Proof.
  apply (py_foldM_invariant
           (fun h => length (token_type_ohe_list h) = length (tokens_list h)
                     /\ length (token_timesteps_list h) = length (tokens_list h))).
  - intros h0 frame h1 Hh0. now apply history_frame_lengths.
  - split; reflexivity.
Qed.

(** X13.  Every sample [__getitem__] returns has at least one real token
    and at most as many as the capacity; its three sequences all have
    the capacity as length; the real entries come first and everything
    from position [seq_len] on is padding: the PAD index, the zero type
    vector and the weight 0. *)
Theorem sample_shape (self : IntersectionDataset) (index : Z) (s : sample) :
  __getitem__ self index = Ok s ->
  1 <= seq_len s <= history_events_max self
  /\ len (tokens_np s) = history_events_max self
  /\ len (token_type_ohe_np s) = history_events_max self
  /\ len (token_timesteps_np s) = history_events_max self
  /\ drop (Z.to_nat (seq_len s)) (tokens_np s)
     = repeat (PAD_TOKEN_IDX self) (Z.to_nat (history_events_max self - seq_len s))
  /\ drop (Z.to_nat (seq_len s)) (token_type_ohe_np s)
     = repeat (0, 0, 0, 0) (Z.to_nat (history_events_max self - seq_len s))
  /\ drop (Z.to_nat (seq_len s)) (token_timesteps_np s)
     = repeat 0%Q (Z.to_nat (history_events_max self - seq_len s)).
Proof.
  intros Hs.
  destruct (getitem_inv self index s Hs)
    as (row_i & vhl & h & kc & kt & _ & _ & Hrun & Hlen & _ & _ & Hseq & Htok & Hty & Hw & _).
  destruct (history_lengths self _ _ h Hrun) as [Hlty Hlw].
  rewrite Hseq, Htok, Hty, Hw. unfold len in *.
  rewrite !length_app, !repeat_length, Hlty, Hlw.
  split; [lia |]. split; [lia |]. split; [lia |]. split; [lia |].
  rewrite Nat2Z.id.
  split; [| split].
  - now rewrite drop_app_length.
  - rewrite <- Hlty. now rewrite drop_app_length.
  - rewrite <- Hlw. now rewrite drop_app_length.
Qed.

Lemma history_frames_empty (self : IntersectionDataset)
    (frames : list (list (string * token_type))) :
  Forall (fun frame => frame = []) frames ->
  forall h,
    py_foldM (history_frame self) frames h
    = Ok (mk_history (tokens_list h) (token_type_ohe_list h) (token_timesteps_list h)
                     (timestap h - len frames)).
Proof.
  induction 1 as [| frame frames -> _ IH]; intros h; cbn [py_foldM].
  - unfold len. cbn. rewrite Z.sub_0_r. now destruct h.
  - unfold history_frame at 1. cbn [py_foldM py_bind]. rewrite IH.
    cbn [tokens_list token_type_ohe_list token_timesteps_list timestap].
    do 2 f_equal. unfold len. cbn [length]. lia.
Qed.

(** X14.  A window without any token is not turned into an all-padding
    sample: when none of the frames that [__getitem__] reads for a valid
    index holds a token, the call raises [ValueError]. *)
Theorem empty_window_raises (self : IntersectionDataset) (index row_i vhl : Z) :
  iloc (valid_indices self) index = Ok row_i ->
  iloc (map valid_hist_len (tl_events_df self)) row_i = Ok vhl ->
  Forall (fun frame => frame = [])
         (iloc_slice (map rnn_inputs_raw (tl_events_df self))
                     (row_i - Z.min (history_len_records self) vhl) (row_i + 1)) ->
  __getitem__ self index = Raise ValueError.
Proof.
  intros Hidx Hvhl Hempty. unfold __getitem__. rewrite Hidx. cbn [py_bind].
  rewrite Hvhl. cbn [py_bind]. rewrite (history_frames_empty self _ Hempty).
  cbn [py_bind tokens_list]. change (len (@nil Z)) with 0.
  now destruct (history_events_max self - 0 <? 0).
Qed.

(** X15.  The label part of a sample: the four label lists follow the
    signal list of the dataset entry by entry; a signal's availability
    flag is set exactly when the target row has a value for it, the
    value is then that value, and otherwise it is the sentinel, 0 for
    the class and 99 for the time to change. *)
Theorem sample_labels (self : IntersectionDataset) (index : Z) (s : sample) :
  __getitem__ self index = Ok s ->
  exists (row_i : Z) (kc kt : gmap nat Q),
    iloc (valid_indices self) index = Ok row_i
    /\ iloc (map tl_signal_classes (tl_events_df self)) row_i = Ok kc
    /\ iloc (map time_to_tl_change (tl_events_df self)) row_i = Ok kt
    /\ map fst (all_true_classes s) = tl_signal_indices self
    /\ map fst (classes_availabilities s) = tl_signal_indices self
    /\ map fst (all_tte s) = tl_signal_indices self
    /\ map fst (tte_availabilities s) = tl_signal_indices self
    /\ forall (k : nat) (tl_id : nat),
        tl_signal_indices self !! k = Some tl_id ->
        exists (c t : Q) (a b : bool),
          all_true_classes s !! k = Some (tl_id, c)
          /\ classes_availabilities s !! k = Some (tl_id, a)
          /\ all_tte s !! k = Some (tl_id, t)
          /\ tte_availabilities s !! k = Some (tl_id, b)
          /\ (if a then kc !! tl_id = Some c else kc !! tl_id = None /\ c = 0%Q)
          /\ (if b then kt !! tl_id = Some t else kt !! tl_id = None /\ t = 99%Q).
Proof.
  intros Hs.
  destruct (getitem_inv self index s Hs)
    as (row_i & vhl & h & kc & kt & Hidx & _ & _ & _ & Hkc & Hkt & _ & _ & _ & _
        & Hc & Ht & Hca & Hta & _).
  exists row_i, kc, kt. rewrite Hc, Ht, Hca, Hta, !map_map. cbn [fst].
  do 3 (split; [assumption |]). do 4 (split; [apply map_id |]).
  intros k tl_id Hk.
  exists (default 0%Q (kc !! tl_id)), (default 99%Q (kt !! tl_id)),
         (bool_decide (is_Some (kc !! tl_id))), (bool_decide (is_Some (kt !! tl_id))).
  rewrite !list_lookup_fmap, Hk. cbn.
  do 4 (split; [reflexivity |]). split.
  - destruct (kc !! tl_id) as [c |]; [reflexivity | now split].
  - destruct (kt !! tl_id) as [t |]; [reflexivity | now split].
Qed.

(** X16.  With a vocabulary built by the vocabulary loop, the PAD index
    marks the padding and nothing else: an entry of a sample's index
    sequence is the PAD index exactly when its position is at or after
    [seq_len]. *)
Theorem pad_index_marks_padding (inputs : list (list (string * token_type))) :
  exists train_vocab term_freq,
    build_train_vocab inputs = Ok (train_vocab, term_freq)
    /\ forall (df : list row) (valid : list Z) (signals : list nat) (hlr threshold : Z)
              (ret : bool) (index : Z) (s : sample) (k : nat) (x : Z),
        __getitem__ (IntersectionDataset__init__ df valid train_vocab term_freq signals
                                                 hlr threshold ret) index = Ok s ->
        tokens_np s !! k = Some x ->
        (x = dict_len train_vocab + 1 <-> seq_len s <= Z.of_nat k).
Proof.
  destruct (build_train_vocab_ok inputs) as (v & f & Hrun & _ & Hidx).
  exists v, f. split; [exact Hrun |].
  intros df valid signals hlr threshold ret index s k x Hs Hk.
  set (self := IntersectionDataset__init__ df valid v f signals hlr threshold ret) in *.
  destruct (getitem_inv self index s Hs)
    as (row_i & vhl & h & kc & kt & _ & _ & Hloop & _ & _ & _ & Hseq & Htok & _).
  assert (Forall (fun idx => 0 <= idx <= dict_len v) (tokens_list h)) as Hreal.
  { revert Hloop.
    apply (py_foldM_invariant (fun h => Forall (fun idx => 0 <= idx <= dict_len v)
                                               (tokens_list h))); [| constructor].
    intros h0 frame h1 Hh0. apply history_frame_tokens; [| exact Hh0].
    intros token idx Htoken. apply token_idx_of_cases in Htoken as [-> | Hv].
    - cbn. unfold dict_len. lia.
    - apply Hidx in Hv. lia. }
  rewrite Htok in Hk. rewrite Hseq. unfold len.
  destruct (Nat.lt_ge_cases k (length (tokens_list h))) as [Hlt | Hge].
  - rewrite lookup_app_l in Hk by exact Hlt.
    apply list_elem_of_lookup_2 in Hk. rewrite Forall_forall in Hreal.
    specialize (Hreal x Hk). cbn beta in Hreal. lia.
  - rewrite lookup_app_r in Hk by exact Hge.
    apply list_elem_of_lookup_2, list_elem_of_In, repeat_spec in Hk. subst x.
    cbn [PAD_TOKEN_IDX self IntersectionDataset__init__]. split; [lia | reflexivity].
Qed.

(** ** Samples of the training dataset, through the intersection filter *)

Section FilterPositions.
Context {A : Type}.
Variable P : A -> bool.

(** The rows of a filtered table and their positions in the full one:
    the [p]-th row, if kept, sits at the number of kept rows before it. *)
Lemma filter_lookup_rank (l : list A) (p : nat) (x : A) :
  l !! p = Some x -> P x = true ->
  List.filter P l !! length (List.filter P (take p l)) = Some x.
Proof.
  intros Hp Hx.
  replace (List.filter P l) with (List.filter P (take p l ++ x :: drop (S p) l))
    by now rewrite take_drop_middle.
  rewrite List.filter_app. cbn [List.filter]. rewrite Hx.
  rewrite lookup_app_r by lia. now rewrite Nat.sub_diag.
Qed.

Lemma filter_lookup_inv (l : list A) :
  forall (n : nat) (x : A),
    List.filter P l !! n = Some x ->
    exists p, l !! p = Some x /\ P x = true /\ length (List.filter P (take p l)) = n.
Proof.
  induction l as [| y l IH]; intros n x Hn; [discriminate |].
  cbn [List.filter] in Hn. destruct (P y) eqn:Hy.
  - destruct n as [| n]; cbn in Hn.
    + injection Hn as <-. exists 0%nat. repeat split; assumption || reflexivity.
    + destruct (IH n x Hn) as (p & Hp & Hx & Hr). exists (S p).
      repeat split; [exact Hp | exact Hx |]. cbn [take List.filter]. rewrite Hy. cbn. now rewrite Hr.
  - destruct (IH n x Hn) as (p & Hp & Hx & Hr). exists (S p).
    repeat split; [exact Hp | exact Hx |]. cbn [take List.filter]. now rewrite Hy.
Qed.

Lemma filter_rank_succ (l : list A) (p : nat) (x : A) :
  l !! p = Some x ->
  length (List.filter P (take (S p) l))
  = (length (List.filter P (take p l)) + if P x then 1 else 0)%nat.
Proof.
  intros Hp. rewrite (take_S_r l p x Hp), List.filter_app, length_app. cbn [List.filter].
  now destruct (P x).
Qed.

(** A run of kept rows ending at [p] is a run of the filtered table. *)
Lemma filter_rank_run (l : list A) (p : nat) :
  forall d : nat,
    (d <= p)%nat ->
    (forall k, (k < d)%nat -> exists x, l !! (p - S k)%nat = Some x /\ P x = true) ->
    length (List.filter P (take p l))
    = (length (List.filter P (take (p - d) l)) + d)%nat.
Proof.
  induction d as [| d IH]; intros Hd Hall.
  - now rewrite Nat.sub_0_r, Nat.add_0_r.
  - rewrite IH by (lia || (intros k Hk; apply Hall; lia)).
    destruct (Hall d ltac:(lia)) as (x & Hx & HP).
    replace (p - d)%nat with (S (p - S d)) by lia.
    rewrite (filter_rank_succ l (p - S d) x Hx), HP. lia.
Qed.

End FilterPositions.

(** A valid index of the filtered, prepared table: its history window
    lies in the filtered table, within the window length, and holds a
    token.  The rows of a continuous run all belong to one intersection,
    so the filter keeps them together. *)
Lemma filtered_window (raw : list row) (intersection_idx : Z) :
  exists T,
    compute_last_valid_idx_for_seq (add_continuous_time raw) = Ok T
    /\ forall (is_inference : bool) (idxs : list Z) (i : Z),
        get_valid_indices
          (List.filter (fun r => master_intersection_idx r =? intersection_idx) T)
          HIST_LEN_FRAMES is_inference = Ok idxs ->
        In i idxs ->
        exists r,
          0 <= i
          /\ List.filter (fun r => master_intersection_idx r =? intersection_idx) T
             !! Z.to_nat i = Some r
          /\ 0 <= valid_hist_len r <= i
          /\ valid_hist_len r < HIST_LEN_FRAMES
          /\ exists d,
              0 <= d <= valid_hist_len r
              /\ frame_at (List.filter (fun r => master_intersection_idx r =? intersection_idx) T)
                          i d <> [].
Proof.
  destruct (prepared_rows raw) as (T & Hrun & Hlen & Hrows).
  destruct (prepared_history raw) as (T' & Hrun' & Hhist).
  rewrite Hrun in Hrun'. injection Hrun' as <-.
  exists T. split; [exact Hrun |].
  set (P := fun r => master_intersection_idx r =? intersection_idx).
  set (F := List.filter P T).
  set (ct := map continuous_time (add_continuous_time raw)) in *.
  intros is_inference idxs i Hget Hin.
  destruct (get_valid_indices_spec F HIST_LEN_FRAMES is_inference) as (idxs' & Hg & Hspec);
    [unfold HIST_LEN_FRAMES; lia |].
  rewrite Hget in Hg. injection Hg as <-.
  apply Hspec in Hin as (Hi & (j & Hji & Hjw & (rj & Hrj & Hne) & Hall) & _).
  set (n := Z.to_nat i) in *.
  assert (forall m rm, T !! m = Some rm ->
            exists r0 b v,
              raw !! m = Some r0
              /\ rm = set_valid_hist_len (set_continuous_time r0 b) v
              /\ ct !! m = Some b
              /\ 0 <= v <= Z.of_nat m
              /\ v = Z.min (Z.of_nat (continuous_run ct m)) (HIST_LEN_FRAMES - 1)
              /\ (b = true ->
                  exists i' p0, m = S i' /\ raw !! i' = Some p0
                                /\ master_intersection_idx p0 = master_intersection_idx r0))
    as HT.
  { intros m rm Hm. pose proof (lookup_lt_Some _ _ _ Hm) as Hlt. rewrite Hlen in Hlt.
    destruct (lookup_lt_is_Some_2 raw m Hlt) as [r0 Hr0].
    destruct (Hrows m r0 Hr0) as (b & v & Hv & Hb & Hvm & _ & Hmin & Hpred & _).
    rewrite Hm in Hv. injection Hv as ->.
    exists r0, b, v. repeat split; try assumption; try lia.
    intros Hbt. destruct (Hpred Hbt) as (i' & p0 & H1 & H2 & _ & H3). now exists i', p0. }
  assert (n < length F)%nat as Hn by (unfold len in Hi; lia).
  destruct (lookup_lt_is_Some_2 F n Hn) as [r Hr].
  destruct (filter_lookup_inv P T n r Hr) as (p & Hp & HPr & Hrank).
  (* the history of [r] lies in the filtered table *)
  assert (Z.to_nat (valid_hist_len r) <= n)%nat as Hvn.
  { assert (Z.to_nat (valid_hist_len r) <= p)%nat as Hvp.
    { destruct (Hhist p r Hp (Z.to_nat (valid_hist_len r))) as (r' & Hle & _); [| exact Hle].
      destruct (HT p r Hp) as (r0 & b & v & _ & -> & _ & Hv & _). cbn. lia. }
    pose proof (filter_rank_run P T p (Z.to_nat (valid_hist_len r)) Hvp) as Hrr.
    rewrite Hrank in Hrr. rewrite Hrr; [lia |].
    intros k Hk. destruct (Hhist p r Hp (S k)) as (r' & _ & Hr' & Hsame & _); [lia |].
    exists r'. split; [exact Hr' |]. unfold P in *. now rewrite Hsame. }
  (* the rows [j .. n] of the filtered table are adjacent in the full one *)
  assert (forall k, (k <= n - j)%nat ->
            (k <= p)%nat
            /\ length (List.filter P (take (p - k) T)) = (n - k)%nat
            /\ exists rk, T !! (p - k)%nat = Some rk /\ F !! (n - k)%nat = Some rk) as Hadj.
  { induction k as [| k IH]; intros Hk.
    - rewrite !Nat.sub_0_r. repeat split; [lia | exact Hrank |]. now exists r.
    - destruct (IH ltac:(lia)) as (Hkp & Hrk & rk & HTk & HFk).
      destruct (Hall (n - k)%nat ltac:(lia)) as (rk' & HFk' & Hflag).
      rewrite HFk in HFk'. injection HFk' as <-.
      destruct (filter_lookup_inv P T _ rk HFk) as (_ & _ & HPk & _).
      destruct (HT _ rk HTk) as (r0 & b & v & Hr0 & Heq & _ & _ & _ & Hpred).
      assert (b = true) as Hb by (subst rk; exact Hflag).
      destruct (Hpred Hb) as (i' & p0 & Hi' & Hp0 & Hsame).
      assert (i' < length T)%nat as Hi'T
          by (rewrite Hlen; now apply lookup_lt_Some in Hp0).
      destruct (lookup_lt_is_Some_2 T i' Hi'T) as [q Hq].
      destruct (HT _ q Hq) as (q0 & bq & vq & Hq0 & Hqeq & _).
      rewrite Hp0 in Hq0. injection Hq0 as <-.
      assert (P q = true) as HPq.
      { unfold P in *. subst q rk. cbn in *. now rewrite Hsame. }
      pose proof (filter_rank_succ P T i' q Hq) as Hsucc. rewrite HPq in Hsucc.
      replace (S i') with (p - k)%nat in Hsucc by lia. rewrite Hrk in Hsucc.
      replace (p - S k)%nat with i' by lia.
      split; [lia |]. split; [lia |]. exists q. split; [exact Hq |].
      replace (n - S k)%nat with (length (List.filter P (take i' T))) by lia.
      now apply filter_lookup_rank. }
  destruct (HT p r Hp) as (r0 & b & v & Hr0 & Heq & _ & Hvp & Hmin & _).
  assert (valid_hist_len r = v) as Hv by (subst r; reflexivity).
  assert (n - j + 1 <= continuous_run ct p)%nat as Hge.
  { destruct (Hadj (n - j)%nat ltac:(lia)) as (Hjp & _).
    apply continuous_run_ge; [lia |]. intros d Hd.
    destruct (Hadj d ltac:(lia)) as (_ & _ & rk & HTk & HFk).
    destruct (Hall (n - d)%nat ltac:(lia)) as (rk' & HFk' & Hflag).
    rewrite HFk in HFk'. injection HFk' as <-.
    destruct (HT _ rk HTk) as (rk0 & bk & vk & _ & Hkeq & Hct & _).
    rewrite Hct. subst rk. cbn in Hflag. now rewrite Hflag. }
  exists r. split; [lia |]. split; [exact Hr |].
  split; [lia |]. split; [unfold HIST_LEN_FRAMES in *; lia |].
  exists (Z.of_nat (n - j)). split; [unfold HIST_LEN_FRAMES in *; lia |].
  unfold frame_at. fold F. replace (Z.to_nat (i - Z.of_nat (n - j))) with j by lia.
  now rewrite Hrj.
Qed.

(** The samples of a dataset that [get_dataloader] builds from a
    prepared table, with a vocabulary from the vocabulary loop. *)
Lemma dataloader_sample_run (raw : list row) (intersection_idx : Z)
    (inputs : list (list (string * token_type))) (signals : list nat)
    (ret is_inference : bool) :
  exists T train_vocab term_freq ds,
    compute_last_valid_idx_for_seq (add_continuous_time raw) = Ok T
    /\ build_train_vocab inputs = Ok (train_vocab, term_freq)
    /\ get_dataloader_dataset T intersection_idx train_vocab term_freq signals ret
                              is_inference
       = Ok ds
    /\ history_len_records ds = HIST_LEN_FRAMES
    /\ history_events_max ds
       = HIST_LEN_FRAMES * max_events_per_timestamp (tl_events_df ds)
    /\ forall index,
        0 <= index < len (valid_indices ds) ->
        exists row_i r s,
          iloc (valid_indices ds) index = Ok row_i
          /\ tl_events_df ds !! Z.to_nat row_i = Some r
          /\ 0 <= valid_hist_len r <= row_i
          /\ valid_hist_len r < HIST_LEN_FRAMES
          /\ __getitem__ ds index = Ok s
          /\ seq_len s = len (window_tokens ds row_i (valid_hist_len r))
          /\ 0 < seq_len s
          /\ 0 <= history_events_max ds - seq_len s
          /\ tokens_np s
             = window_tokens ds row_i (valid_hist_len r)
                 ++ repeat (PAD_TOKEN_IDX ds) (Z.to_nat (history_events_max ds - seq_len s))
          /\ token_timesteps_np s
             = window_weights ds row_i (valid_hist_len r)
                 ++ repeat 0%Q (Z.to_nat (history_events_max ds - seq_len s)).
Proof.
  destruct (filtered_window raw intersection_idx) as (T & Hrun & Hwin).
  destruct (build_train_vocab_ok inputs) as (v & f & Hbuild & Hkeys & _).
  set (F := List.filter (fun r => master_intersection_idx r =? intersection_idx) T) in *.
  destruct (get_valid_indices_spec F HIST_LEN_FRAMES is_inference) as (idxs & Hget & _);
    [unfold HIST_LEN_FRAMES; lia |].
  exists T, v, f, (IntersectionDataset__init__ F idxs v f signals HIST_LEN_FRAMES 5 ret).
  split; [exact Hrun |]. split; [exact Hbuild |].
  split; [unfold get_dataloader_dataset; fold F; now rewrite Hget |].
  split; [reflexivity |]. split; [reflexivity |].
  set (self := IntersectionDataset__init__ F idxs v f signals HIST_LEN_FRAMES 5 ret).
  intros index Hindex. cbn [valid_indices self IntersectionDataset__init__] in Hindex.
  destruct (lookup_lt_is_Some_2 idxs (Z.to_nat index)) as [row_i Hrow];
    [unfold len in Hindex; lia |].
  assert (In row_i idxs) as Hin.
  { apply list_elem_of_In, list_elem_of_lookup. now exists (Z.to_nat index). }
  destruct (Hwin is_inference idxs row_i Hget Hin) as (r & Hi & Hr & Hvhl & Hfit & d & Hd & Hne).
  pose proof (window_tokens_nonempty self row_i (valid_hist_len r) d Hd Hne) as Hnil.
  assert (iloc (valid_indices self) index = Ok row_i) as Hidx
      by (apply iloc_in_range; [lia | exact Hrow]).
  destruct (getitem_run self index row_i r)
    as (s & Hs & Hseq & Hpad & Htok & _ & Hw); try assumption; try reflexivity.
  { intros t. apply Hkeys. }
  exists row_i, r, s. repeat split; try assumption; try lia.
  rewrite Hseq. unfold len.
  destruct (window_tokens self row_i (valid_hist_len r)); [congruence | cbn; lia].
Qed.

(** X17.  From the raw table to the samples, in training and in
    prediction mode, for any intersection and any vocabulary the
    vocabulary loop produced: the flag derivation, the history lengths,
    the intersection filter and the selector fit together so that
    [__getitem__] returns a sample for every index of the dataset that
    [get_dataloader] builds at lines 483-500, with at least one real
    token and sequences of the full capacity. *)
Theorem dataloader_samples_all_built (raw : list row) (intersection_idx : Z)
    (inputs : list (list (string * token_type))) (signals : list nat)
    (ret is_inference : bool) :
  exists T train_vocab term_freq ds,
    compute_last_valid_idx_for_seq (add_continuous_time raw) = Ok T
    /\ build_train_vocab inputs = Ok (train_vocab, term_freq)
    /\ get_dataloader_dataset T intersection_idx train_vocab term_freq signals ret
                              is_inference
       = Ok ds
    /\ forall index,
        0 <= index < len (valid_indices ds) ->
        exists s,
          __getitem__ ds index = Ok s
          /\ 1 <= seq_len s
          /\ len (tokens_np s) = 100 * max_events_per_timestamp (tl_events_df ds).
Proof.
  destruct (dataloader_sample_run raw intersection_idx inputs signals ret is_inference)
    as (T & v & f & ds & Hrun & Hbuild & Hds & _ & Hcap & Hall).
  exists T, v, f, ds. do 3 (split; [assumption |]).
  intros index Hindex.
  destruct (Hall index Hindex)
    as (row_i & r & s & _ & _ & _ & _ & Hs & Hseq & Hpos & Hpad & Htok & _).
  exists s. split; [exact Hs |]. split; [lia |].
  rewrite Htok. unfold len in *. rewrite length_app, repeat_length.
  rewrite Hcap in Hpad. unfold HIST_LEN_FRAMES in *. lia.
Qed.

(** ** Recency weights *)

Lemma recency_weight_range (d : Z) :
  0 <= d < HIST_LEN_FRAMES ->
  (0 < recency_weight HIST_LEN_FRAMES d /\ recency_weight HIST_LEN_FRAMES d <= 1)%Q.
Proof.
  intros Hd. unfold recency_weight, HIST_LEN_FRAMES in *.
  unfold Qlt, Qle, Qdiv, Qmult, Qinv, inject_Z. cbn. lia.
Qed.

Lemma recency_weight_monotone (hlr d d' : Z) :
  0 < hlr -> d <= d' -> (recency_weight hlr d <= recency_weight hlr d')%Q.
Proof.
  intros Hh Hd. destruct (Z.eq_dec d d') as [-> | Hne]; [apply Qle_refl |].
  apply Qlt_le_weak, recency_weight_increasing; lia.
Qed.

Lemma block_weights_elems (hlr : Z) (m : Z -> nat) (n : nat) :
  forall (d : Z) (w : Q),
    In w (flat_map (fun d => repeat (recency_weight hlr d) (m d)) (distances_from d n)) ->
    exists d', d - Z.of_nat n < d' <= d /\ w = recency_weight hlr d'.
Proof.
  induction n as [| n IH]; intros d w Hw; cbn [distances_from flat_map] in Hw; [contradiction |].
  apply in_app_or in Hw as [Hw | Hw].
  - apply repeat_spec in Hw. exists d. split; [lia | exact Hw].
  - destruct (IH (d - 1) w Hw) as (d' & Hd' & ->). exists d'. split; [lia | reflexivity].
Qed.

(** Along the frames of a window the weights never increase. *)
Lemma block_weights_sorted (hlr : Z) (m : Z -> nat) (n : nat) :
  0 < hlr ->
  forall (d : Z) (a b : nat) (wa wb : Q),
    flat_map (fun d => repeat (recency_weight hlr d) (m d)) (distances_from d n) !! a = Some wa ->
    flat_map (fun d => repeat (recency_weight hlr d) (m d)) (distances_from d n) !! b = Some wb ->
    (a <= b)%nat -> (wb <= wa)%Q.
Proof.
  intros Hh. induction n as [| n IH]; intros d a b wa wb Ha Hb Hab;
    cbn [distances_from flat_map] in Ha, Hb; [discriminate |].
  destruct (Nat.lt_ge_cases a (length (repeat (recency_weight hlr d) (m d)))) as [Hla | Hga].
  - rewrite lookup_app_l in Ha by exact Hla.
    apply list_elem_of_lookup_2, list_elem_of_In, repeat_spec in Ha. subst wa.
    destruct (Nat.lt_ge_cases b (length (repeat (recency_weight hlr d) (m d)))) as [Hlb | Hgb].
    + rewrite lookup_app_l in Hb by exact Hlb.
      apply list_elem_of_lookup_2, list_elem_of_In, repeat_spec in Hb. subst wb. apply Qle_refl.
    + rewrite lookup_app_r in Hb by exact Hgb.
      apply list_elem_of_lookup_2, list_elem_of_In, block_weights_elems in Hb
        as (d' & Hd' & ->).
      apply recency_weight_monotone; lia.
  - rewrite lookup_app_r in Ha by exact Hga. rewrite lookup_app_r in Hb by lia.
    apply (IH (d - 1) _ _ wa wb Ha Hb). lia.
Qed.

(** X18.  The recency weights of a sample of such a dataset: every real
    token has a weight in (0, 1], the weights never increase along the
    sequence (older frames first, the target row last and lightest), and
    every padding position has weight 0, so a weight is 0 exactly on the
    padding. *)
Theorem sample_recency_weights (raw : list row) (intersection_idx : Z)
    (inputs : list (list (string * token_type))) (signals : list nat)
    (ret is_inference : bool) :
  exists T train_vocab term_freq ds,
    compute_last_valid_idx_for_seq (add_continuous_time raw) = Ok T
    /\ build_train_vocab inputs = Ok (train_vocab, term_freq)
    /\ get_dataloader_dataset T intersection_idx train_vocab term_freq signals ret
                              is_inference
       = Ok ds
    /\ forall index,
        0 <= index < len (valid_indices ds) ->
        exists s,
          __getitem__ ds index = Ok s
          /\ (forall (k : nat) (w : Q),
                 token_timesteps_np s !! k = Some w ->
                 (Z.of_nat k < seq_len s -> (0 < w /\ w <= 1)%Q)
                 /\ (seq_len s <= Z.of_nat k -> w = 0%Q))
          /\ (forall (a b : nat) (wa wb : Q),
                 token_timesteps_np s !! a = Some wa ->
                 token_timesteps_np s !! b = Some wb ->
                 (a <= b)%nat -> (wb <= wa)%Q).
Proof.
  destruct (dataloader_sample_run raw intersection_idx inputs signals ret is_inference)
    as (T & v & f & ds & Hrun & Hbuild & Hds & Hhlr & Hcap & Hall).
  exists T, v, f, ds. do 3 (split; [assumption |]).
  intros index Hindex.
  destruct (Hall index Hindex)
    as (row_i & r & s & _ & _ & Hvhl & Hfit & Hs & Hseq & Hpos & Hpad & _ & Hw).
  destruct (window_lengths ds row_i (valid_hist_len r)) as [_ Hlw].
  assert (length (window_weights ds row_i (valid_hist_len r)) = Z.to_nat (seq_len s)) as Hlen
      by (rewrite Hlw, Hseq; unfold len; lia).
  assert (forall w, In w (window_weights ds row_i (valid_hist_len r)) ->
                    (0 < w /\ w <= 1)%Q) as Hreal.
  { intros w Hin. unfold window_weights, distances in Hin. rewrite Hhlr in Hin.
    apply block_weights_elems in Hin as (d' & Hd' & ->).
    apply recency_weight_range. lia. }
  exists s. split; [exact Hs |]. rewrite Hw. split.
  - intros k w Hk. split.
    + intros Hlt. rewrite lookup_app_l in Hk by lia.
      apply list_elem_of_lookup_2, list_elem_of_In in Hk. now apply Hreal.
    + intros Hge. rewrite lookup_app_r in Hk by lia.
      now apply list_elem_of_lookup_2, list_elem_of_In, repeat_spec in Hk.
  - intros a b wa wb Ha Hb Hab.
    destruct (Nat.lt_ge_cases b (length (window_weights ds row_i (valid_hist_len r))))
      as [Hlb | Hgb].
    + rewrite lookup_app_l in Ha by lia. rewrite lookup_app_l in Hb by lia.
      unfold window_weights, distances in Ha, Hb.
      assert (0 < history_len_records ds) as Hh by (rewrite Hhlr; reflexivity).
      apply (block_weights_sorted _ _ _ Hh _ a b wa wb Ha Hb Hab).
    + rewrite lookup_app_r in Hb by exact Hgb.
      apply list_elem_of_lookup_2, list_elem_of_In, repeat_spec in Hb. subst wb.
      destruct (Nat.lt_ge_cases a (length (window_weights ds row_i (valid_hist_len r))))
        as [Hla | Hga].
      * rewrite lookup_app_l in Ha by exact Hla.
        apply list_elem_of_lookup_2, list_elem_of_In, Hreal in Ha. now apply Qlt_le_weak.
      * rewrite lookup_app_r in Ha by exact Hga.
        apply list_elem_of_lookup_2, list_elem_of_In, repeat_spec in Ha. subst wa.
        apply Qle_refl.
Qed.

(** ** The gradient hook *)

Lemma clamp_replace_explosure_fixed (q : Q) :
  (-(1 # 4) <= q <= 1 # 4)%Q ->
  clamp (-(1 # 4)) (1 # 4) (replace_explosure (Fin q)) = Fin q.
Proof.
  intros [Hlo Hhi]. cbn.
  rewrite (proj2 (Qle_bool_iff _ _) Hlo), (proj2 (Qle_bool_iff _ _) Hhi). reflexivity.
Qed.

(** X19.  The hook keeps the shape of the gradient, leaves a gradient
    that is already finite and within [-0.25, 0.25] untouched, and is
    idempotent: sanitizing twice is sanitizing once. *)
Theorem gradient_hook_idempotent :
  (forall grad, length (clip_and_replace_explosures grad) = length grad)
  /\ (forall grad,
         Forall (fun g => exists q, g = Fin q /\ (-(1 # 4) <= q <= 1 # 4)%Q) grad ->
         clip_and_replace_explosures grad = grad)
  /\ (forall grad,
         clip_and_replace_explosures (clip_and_replace_explosures grad)
         = clip_and_replace_explosures grad).
Proof.
  assert (forall grad,
             Forall (fun g => exists q, g = Fin q /\ (-(1 # 4) <= q <= 1 # 4)%Q) grad ->
             clip_and_replace_explosures grad = grad) as Hfix.
  { intros grad Hgrad. unfold clip_and_replace_explosures. rewrite map_map.
    induction Hgrad as [| g grad (q & -> & Hq) _ IH]; [reflexivity |].
    cbn [map]. rewrite IH. f_equal. now apply clamp_replace_explosure_fixed. }
  split; [intros grad; unfold clip_and_replace_explosures; now rewrite !length_map |].
  split; [exact Hfix |].
  intros grad. apply Hfix. unfold clip_and_replace_explosures. rewrite map_map.
  apply Forall_forall. intros g Hg. apply list_elem_of_In, in_map_iff in Hg as (x & <- & _).
  apply clamp_replace_explosure_range.
Qed.

(** ** The fold of the artifacts *)

(** X23.  The fold whose artifacts a prediction run loads is always 0 or
    1, is never the run's own fold (modulo 2), and taking it twice gives
    the run's fold back: the folds 0 and 1 are paired with each other. *)
Theorem model_fold_complement (fold_i : Z) :
  0 <= model_fold_i fold_i <= 1
  /\ model_fold_i fold_i <> fold_i mod 2
  /\ model_fold_i (model_fold_i fold_i) = fold_i mod 2
  /\ (0 <= fold_i <= 1 -> model_fold_i fold_i = 1 - fold_i).
Proof.
  unfold model_fold_i.
  pose proof (Z.mod_pos_bound fold_i 2 ltac:(lia)) as H1.
  pose proof (Z.mod_pos_bound (fold_i + 1) 2 ltac:(lia)) as H2.
  pose proof (Z.div_mod fold_i 2 ltac:(lia)) as H3.
  pose proof (Z.div_mod (fold_i + 1) 2 ltac:(lia)) as H4.
  assert ((fold_i + 1) mod 2 = 1 - fold_i mod 2) as Heq.
  { rewrite <- Zplus_mod_idemp_l.
    assert (fold_i mod 2 = 0 \/ fold_i mod 2 = 1) as [-> | ->] by lia; reflexivity. }
  rewrite Heq. split; [lia |]. split; [lia |]. split.
  - replace (1 - fold_i mod 2 + 1) with (2 - fold_i mod 2) by lia.
    assert (fold_i mod 2 = 0 \/ fold_i mod 2 = 1) as [-> | ->] by lia; reflexivity.
  - intros Hf. rewrite Z.mod_small by lia. reflexivity.
Qed.

(** ** The losses of a pass over the batches *)

Section LossLists.
Variable binary_crossentropy : Q -> Q -> Q.
Variable log_prob : Q * Q -> Q -> py float.

(** The two guards of a step that returns tell whether the batch has an
    available label. *)
Lemma step_guards {B : nat} (tl_2_color_class : list (nat * vec Q B))
    (tl_2_tte_distr : list (nat * vec (Q * Q) B)) (b : Loss.batch B) (r : Loss.losses) :
  Loss.train binary_crossentropy log_prob tl_2_color_class tl_2_tte_distr b = Ok r
  \/ Loss.validate binary_crossentropy log_prob tl_2_color_class tl_2_tte_distr b = Ok r
  \/ Loss.predict binary_crossentropy log_prob tl_2_color_class tl_2_tte_distr b = Ok r ->
  averaged_over_available binary_crossentropy log_prob tl_2_color_class tl_2_tte_distr b r
  /\ Loss.gt0 (Loss.loss_bce_terms_count r)
     = negb (available_labels (Loss.classes_availabilities b) tl_2_color_class =? 0)%nat
  /\ Loss.gt0 (Loss.loss_tte_log_prob_terms_count r)
     = negb (available_labels (Loss.tte_availabilities b) tl_2_tte_distr =? 0)%nat.
Proof.
  intros Hr.
  pose proof (step_averaged binary_crossentropy log_prob _ _ _ _ Hr) as Havg.
  split; [exact Havg |].
  destruct Havg as (Hcb & Hct & _).
  split; [exact (proj1 (guards_on_count _ _ Hcb)) | exact (proj1 (guards_on_count _ _ Hct))].
Qed.

(** How a step that returns combines its two terms. *)
Lemma step_loss {B : nat} (tl_2_color_class : list (nat * vec Q B))
    (tl_2_tte_distr : list (nat * vec (Q * Q) B)) (b : Loss.batch B) (r : Loss.losses) :
  (Loss.train binary_crossentropy log_prob tl_2_color_class tl_2_tte_distr b = Ok r
   \/ Loss.predict binary_crossentropy log_prob tl_2_color_class tl_2_tte_distr b = Ok r ->
   Loss.loss r = (Loss.loss_bce r + Loss.loss_tte_log_prob r)%Q)
  /\ (Loss.validate binary_crossentropy log_prob tl_2_color_class tl_2_tte_distr b = Ok r ->
      Loss.loss r = (Loss.loss_bce r + Loss.loss_tte_log_prob r / 2)%Q).
Proof.
  unfold Loss.train, Loss.validate, Loss.predict.
  destruct (py_foldM (Loss.bce_signal binary_crossentropy b) tl_2_color_class (0%Q, 0%Q))
    as [[sb cb] | |]; cbn [py_bind];
    [| split; [intros [H | H] | intros H]; discriminate
     | split; [intros [H | H] | intros H]; discriminate].
  destruct (py_foldM (Loss.tte_signal log_prob b) tl_2_tte_distr (0%Q, 0%Q))
    as [[st ct] | |]; cbn [py_bind];
    [| split; [intros [H | H] | intros H]; discriminate
     | split; [intros [H | H] | intros H]; discriminate].
  split; [intros [H | H] | intros H]; injection H as <-; reflexivity.
Qed.

Lemma append_losses_lengths (lists : loss_lists) (r : Loss.losses) :
  let bce := Loss.gt0 (Loss.loss_bce_terms_count r) in
  let tte := Loss.gt0 (Loss.loss_tte_log_prob_terms_count r) in
  length (losses_all (append_losses lists r))
  = (length (losses_all lists) + if bce || tte then 1 else 0)%nat
  /\ length (losses_lob_prob (append_losses lists r))
     = (length (losses_lob_prob lists) + if tte then 1 else 0)%nat
  /\ length (losses_bce (append_losses lists r))
     = (length (losses_bce lists) + if bce then 1 else 0)%nat.
Proof.
  cbn zeta. unfold append_losses. cbn [losses_all losses_lob_prob losses_bce].
  destruct (Loss.gt0 (Loss.loss_bce_terms_count r)),
           (Loss.gt0 (Loss.loss_tte_log_prob_terms_count r));
    cbn [orb]; rewrite ?length_app; cbn [length]; repeat split; lia.
Qed.

(** What a validation pass that returns has appended. *)
Lemma validation_fold_inv (dataloader_val : list predicted_batch) :
  forall lists0 lists,
    py_foldM
      (fun lists pb =>
         do r <~ Loss.validate binary_crossentropy log_prob
                   (pb_color_class pb) (pb_tte_distr pb) (pb_batch pb);
         Ok (append_losses lists r))
      dataloader_val lists0 = Ok lists ->
    length (losses_all lists)
    = (length (losses_all lists0)
       + length (List.filter (fun pb => has_class_label pb || has_tte_label pb)
                             dataloader_val))%nat
    /\ length (losses_lob_prob lists)
       = (length (losses_lob_prob lists0)
          + length (List.filter has_tte_label dataloader_val))%nat
    /\ length (losses_bce lists)
       = (length (losses_bce lists0)
          + length (List.filter has_class_label dataloader_val))%nat.
Proof.
  induction dataloader_val as [| pb batches IH]; intros lists0 lists; cbn [py_foldM].
  - intros [= <-]. cbn [List.filter length]. repeat split; lia.
  - destruct (Loss.validate binary_crossentropy log_prob
                (pb_color_class pb) (pb_tte_distr pb) (pb_batch pb)) as [r | |] eqn:Hv;
      cbn [py_bind]; try discriminate.
    intros Hfold. destruct (IH _ _ Hfold) as (Ha & Hl & Hb).
    destruct (step_guards _ _ _ r (or_intror (or_introl Hv))) as (_ & Hgb & Hgt).
    fold (has_class_label pb) in Hgb. fold (has_tte_label pb) in Hgt.
    destruct (append_losses_lengths lists0 r) as (Ha0 & Hl0 & Hb0).
    cbn zeta in Ha0, Hl0, Hb0. rewrite Hgb, Hgt in Ha0. rewrite Hgt in Hl0. rewrite Hgb in Hb0.
    cbn [List.filter].
    destruct (has_class_label pb), (has_tte_label pb);
      cbn [orb length] in *; repeat split; lia.
Qed.

Lemma validation_fold_returns (dataloader_val : list predicted_batch) :
  Forall (batch_passes log_prob) dataloader_val ->
  forall lists0,
  exists lists,
    py_foldM
      (fun lists pb =>
         do r <~ Loss.validate binary_crossentropy log_prob
                   (pb_color_class pb) (pb_tte_distr pb) (pb_batch pb);
         Ok (append_losses lists r))
      dataloader_val lists0 = Ok lists.
Proof.
  induction 1 as [| pb batches (Hc & Ht & Hret & Hone) _ IH]; intros lists0; cbn [py_foldM].
  - now eexists.
  - destruct (steps_return binary_crossentropy log_prob _ _ _ Hc Ht Hret (or_intror Hone))
      as (_ & rv & _ & _ & Hv & _).
    rewrite Hv. cbn [py_bind]. apply IH.
Qed.

Lemma filter_none {A : Type} (f : A -> bool) (l : list A) :
  List.filter f l = [] <-> Forall (fun x => f x = false) l.
Proof.
  induction l as [| a l IH]; cbn [List.filter]; [split; [constructor | reflexivity] |].
  destruct (f a) eqn:Hfa; split.
  - discriminate.
  - intros H. apply Forall_cons in H as [H _]. congruence.
  - intros H. constructor; [exact Hfa | now apply IH].
  - intros H. apply Forall_cons in H as [_ H]. now apply IH.
Qed.

(** X24.  Whenever the validation pass of an epoch returns, each of its
    three lists has one entry per batch with an available label of the
    kind the list is for, so batches without labels weigh nothing in
    the means; the mean validation loss is NaN exactly when no batch
    has any available label, and then the test [loss_val_mean == 0]
    that ends the training is false.  The pass returns when every batch
    holds the predicted signals, has labels the library accepts, and
    does not consist of a single sample. *)
Theorem validation_lists_count_labelled_batches (dataloader_val : list predicted_batch) :
  (forall lists,
      validation_losses binary_crossentropy log_prob dataloader_val = Ok lists ->
      length (losses_all lists)
      = length (List.filter (fun pb => has_class_label pb || has_tte_label pb)
                            dataloader_val)
      /\ length (losses_lob_prob lists) = length (List.filter has_tte_label dataloader_val)
      /\ length (losses_bce lists) = length (List.filter has_class_label dataloader_val)
      /\ loss_val_mean binary_crossentropy log_prob dataloader_val
         = Ok (np_mean (losses_all lists))
      /\ (np_mean (losses_all lists) = NaN <->
          Forall (fun pb => has_class_label pb = false /\ has_tte_label pb = false)
                 dataloader_val)
      /\ (np_mean (losses_all lists) = NaN ->
          loss_val_mean_is_zero binary_crossentropy log_prob dataloader_val = Ok false))
  /\ (Forall (batch_passes log_prob) dataloader_val ->
      exists lists, validation_losses binary_crossentropy log_prob dataloader_val = Ok lists).
Proof.
  split; [| intros Hall; exact (validation_fold_returns dataloader_val Hall _)].
  intros lists Hfold.
  destruct (validation_fold_inv dataloader_val _ _ Hfold) as (Ha & Hl & Hb).
  cbn [losses_all losses_lob_prob losses_bce length Nat.add] in Ha, Hl, Hb.
  unfold loss_val_mean_is_zero, loss_val_mean. rewrite Hfold. cbn [py_bind].
  do 3 (split; [assumption |]). split; [reflexivity |].
  split; [| intros ->; reflexivity].
  assert (np_mean (losses_all lists) = NaN <-> losses_all lists = []) as ->.
  { destruct (losses_all lists); cbn; split; congruence. }
  rewrite <- length_zero_iff_nil, Ha, length_zero_iff_nil, filter_none.
  split; intros H; eapply Forall_impl; try exact H; cbn beta.
  - intros pb Hpb. now apply orb_false_iff.
  - intros pb [-> ->]. reflexivity.
Qed.


Lemma masked_zip_agree {A : Type} (f : A -> Q -> Q) (preds : list A) (ys1 ys2 : list Q)
    (flags : list bool) :
  length ys1 = length ys2 ->
  (forall (i : nat) (y1 y2 : Q),
      ys1 !! i = Some y1 -> ys2 !! i = Some y2 -> flags !! i = Some true -> y1 = y2) ->
  zip_with masked (zip_with f preds ys1) flags = zip_with masked (zip_with f preds ys2) flags.
Proof.
  revert ys1 ys2 flags.
  induction preds as [| p preds IH]; intros [| y1 ys1] [| y2 ys2] flags Hlen Hsame;
    try reflexivity; try discriminate.
  destruct flags as [| a flags]; [reflexivity |].
  cbn [zip_with]. f_equal.
  - destruct a; [| reflexivity]. cbn [masked].
    now rewrite (Hsame 0%nat y1 y2 eq_refl eq_refl eq_refl).
  - apply IH; [cbn [length] in Hlen; lia |].
    intros i. apply (Hsame (S i)).
Qed.

Lemma map_finite_value_zip (distr : list (Q * Q)) (ys : list Q) :
  map Loss.finite_value (zip_with (log_prob_entry log_prob) distr ys)
  = zip_with (fun d y => Loss.finite_value (log_prob_entry log_prob d y)) distr ys.
Proof.
  revert ys. induction distr as [| d distr IH]; intros [| y ys]; try reflexivity.
  cbn [zip_with map]. now rewrite IH.
Qed.

(** The entries of a key have the same length in two dictionaries of
    batches of one size that both hold the key. *)
Lemma entries_same_length {A : Type} {B : nat} (d1 d2 : gmap nat (vec A B)) (tl_id : nat) :
  is_Some (d1 !! tl_id) -> is_Some (d2 !! tl_id) ->
  length (entries d1 tl_id) = length (entries d2 tl_id).
Proof.
  intros [v1 H1] [v2 H2]. unfold entries. rewrite H1, H2.
  now rewrite !length_vec_to_list.
Qed.

Lemma masked_bce_total_agree {B : nat} (b1 b2 : Loss.batch B)
    (items : list (nat * vec Q B)) :
  signals_in_batch (Loss.all_true_classes b1) (Loss.classes_availabilities b1) items ->
  signals_in_batch (Loss.all_true_classes b2) (Loss.classes_availabilities b2) items ->
  Loss.classes_availabilities b2 = Loss.classes_availabilities b1 ->
  same_where_available (Loss.all_true_classes b1) (Loss.all_true_classes b2)
                       (Loss.classes_availabilities b1) items ->
  masked_bce_total binary_crossentropy b1 items = masked_bce_total binary_crossentropy b2 items.
Proof.
  intros H1 H2 Hav. induction items as [| item items IH]; intros Hsame; [reflexivity |].
  cbn [masked_bce_total fold_right].
  fold (masked_bce_total binary_crossentropy b1 items).
  fold (masked_bce_total binary_crossentropy b2 items).
  rewrite IH; [| intros it Hit; apply H1; now right | intros it Hit; apply H2; now right
               | intros it i y1 y2 Hit; apply Hsame; now right].
  rewrite Hav. do 2 f_equal.
  apply masked_zip_agree.
  - apply entries_same_length; [apply (H1 item) | apply (H2 item)]; now left.
  - intros i y1 y2. apply (Hsame item). now left.
Qed.

Lemma masked_log_prob_total_agree {B : nat} (b1 b2 : Loss.batch B)
    (items : list (nat * vec (Q * Q) B)) :
  signals_in_batch (Loss.all_tte b1) (Loss.tte_availabilities b1) items ->
  signals_in_batch (Loss.all_tte b2) (Loss.tte_availabilities b2) items ->
  Loss.tte_availabilities b2 = Loss.tte_availabilities b1 ->
  same_where_available (Loss.all_tte b1) (Loss.all_tte b2)
                       (Loss.tte_availabilities b1) items ->
  masked_log_prob_total log_prob b1 items = masked_log_prob_total log_prob b2 items.
Proof.
  intros H1 H2 Hav. induction items as [| item items IH]; intros Hsame; [reflexivity |].
  cbn [masked_log_prob_total fold_right].
  fold (masked_log_prob_total log_prob b1 items).
  fold (masked_log_prob_total log_prob b2 items).
  rewrite IH; [| intros it Hit; apply H1; now right | intros it Hit; apply H2; now right
               | intros it i y1 y2 Hit; apply Hsame; now right].
  rewrite Hav, !map_finite_value_zip. do 2 f_equal.
  apply masked_zip_agree.
  - apply entries_same_length; [apply (H1 item) | apply (H2 item)]; now left.
  - intros i y1 y2. apply (Hsame item). now left.
Qed.

(** A loop that returns has found every signal in the batch. *)
Lemma bce_fold_signals {B : nat} (b : Loss.batch B) (items : list (nat * vec Q B)) :
  forall acc acc',
    py_foldM (Loss.bce_signal binary_crossentropy b) items acc = Ok acc' ->
    signals_in_batch (Loss.all_true_classes b) (Loss.classes_availabilities b) items.
Proof.
  induction items as [| [tl_id pred] items IH]; intros [s c] acc'; cbn [py_foldM].
  - intros _ item [].
  - unfold Loss.bce_signal at 1, Loss.dict_get.
    destruct (Loss.all_true_classes b !! tl_id) as [ys |] eqn:Hys; cbn [py_bind];
      [| discriminate].
    destruct (Loss.squeezed_bce binary_crossentropy pred ys) as [l | |];
      cbn [py_bind]; try discriminate.
    destruct (Loss.classes_availabilities b !! tl_id) as [flags |] eqn:Hfl; cbn [py_bind];
      [| discriminate].
    intros Hfold item [<- | Hitem]; [cbn [fst]; rewrite Hys, Hfl; split; now eexists |].
    now apply (IH _ _ Hfold).
Qed.

Lemma tte_fold_signals {B : nat} (b : Loss.batch B) (items : list (nat * vec (Q * Q) B)) :
  forall acc acc',
    py_foldM (Loss.tte_signal log_prob b) items acc = Ok acc' ->
    signals_in_batch (Loss.all_tte b) (Loss.tte_availabilities b) items.
Proof.
  induction items as [| [tl_id distr] items IH]; intros [s c] acc'; cbn [py_foldM].
  - intros _ item [].
  - unfold Loss.tte_signal at 1, Loss.dict_get.
    destruct (Loss.all_tte b !! tl_id) as [ys |] eqn:Hys; cbn [py_bind]; [| discriminate].
    destruct (Loss.squeezed_log_prob log_prob distr ys) as [l | |];
      cbn [py_bind]; try discriminate.
    destruct (Loss.tte_availabilities b !! tl_id) as [flags |] eqn:Hfl; cbn [py_bind];
      [| discriminate].
    intros Hfold item [<- | Hitem]; [cbn [fst]; rewrite Hys, Hfl; split; now eexists |].
    now apply (IH _ _ Hfold).
Qed.

Lemma step_signals {B : nat} (tl_2_color_class : list (nat * vec Q B))
    (tl_2_tte_distr : list (nat * vec (Q * Q) B)) (b : Loss.batch B) (r : Loss.losses) :
  Loss.train binary_crossentropy log_prob tl_2_color_class tl_2_tte_distr b = Ok r
  \/ Loss.validate binary_crossentropy log_prob tl_2_color_class tl_2_tte_distr b = Ok r
  \/ Loss.predict binary_crossentropy log_prob tl_2_color_class tl_2_tte_distr b = Ok r ->
  signals_in_batch (Loss.all_true_classes b) (Loss.classes_availabilities b) tl_2_color_class
  /\ signals_in_batch (Loss.all_tte b) (Loss.tte_availabilities b) tl_2_tte_distr.
Proof.
  intros Hr.
  destruct (step_folds binary_crossentropy log_prob _ _ _ _ Hr)
    as (sb & cb & st & ct & Hb & Ht & _).
  split; [exact (bce_fold_signals _ _ _ _ Hb) | exact (tte_fold_signals _ _ _ _ Ht)].
Qed.

(** Two steps that return on batches which agree on the available
    labels have averaged the same totals over the same counts. *)
Lemma averaged_terms_agree {B : nat} (tl_2_color_class : list (nat * vec Q B))
    (tl_2_tte_distr : list (nat * vec (Q * Q) B)) (b1 b2 : Loss.batch B)
    (r1 r2 : Loss.losses) :
  Loss.classes_availabilities b2 = Loss.classes_availabilities b1 ->
  Loss.tte_availabilities b2 = Loss.tte_availabilities b1 ->
  masked_bce_total binary_crossentropy b1 tl_2_color_class
  = masked_bce_total binary_crossentropy b2 tl_2_color_class ->
  masked_log_prob_total log_prob b1 tl_2_tte_distr
  = masked_log_prob_total log_prob b2 tl_2_tte_distr ->
  averaged_over_available binary_crossentropy log_prob tl_2_color_class tl_2_tte_distr b1 r1 ->
  averaged_over_available binary_crossentropy log_prob tl_2_color_class tl_2_tte_distr b2 r2 ->
  (Loss.loss_bce r1 == Loss.loss_bce r2)%Q
  /\ (Loss.loss_bce_terms_count r1 == Loss.loss_bce_terms_count r2)%Q
  /\ (Loss.loss_tte_log_prob r1 == Loss.loss_tte_log_prob r2)%Q
  /\ (Loss.loss_tte_log_prob_terms_count r1 == Loss.loss_tte_log_prob_terms_count r2)%Q.
Proof.
  intros Hac Hat Hb Ht (Hc1 & Ht1 & Hb1 & Hl1 & _) (Hc2 & Ht2 & Hb2 & Hl2 & _).
  rewrite Hac in Hc2, Hb2. rewrite Hat in Ht2, Hl2. rewrite <- Hb in Hb2. rewrite <- Ht in Hl2.
  split; [now rewrite Hb1, Hb2 |]. split; [now rewrite Hc1, Hc2 |].
  split; [now rewrite Hl1, Hl2 | now rewrite Ht1, Ht2].
Qed.

Lemma steps_agree {B : nat} (tl_2_color_class : list (nat * vec Q B))
    (tl_2_tte_distr : list (nat * vec (Q * Q) B)) (b1 b2 : Loss.batch B)
    (r1 r2 : Loss.losses) :
  Loss.classes_availabilities b2 = Loss.classes_availabilities b1 ->
  Loss.tte_availabilities b2 = Loss.tte_availabilities b1 ->
  same_where_available (Loss.all_true_classes b1) (Loss.all_true_classes b2)
                       (Loss.classes_availabilities b1) tl_2_color_class ->
  same_where_available (Loss.all_tte b1) (Loss.all_tte b2)
                       (Loss.tte_availabilities b1) tl_2_tte_distr ->
  Loss.train binary_crossentropy log_prob tl_2_color_class tl_2_tte_distr b1 = Ok r1
  /\ Loss.train binary_crossentropy log_prob tl_2_color_class tl_2_tte_distr b2 = Ok r2
  \/ Loss.validate binary_crossentropy log_prob tl_2_color_class tl_2_tte_distr b1 = Ok r1
     /\ Loss.validate binary_crossentropy log_prob tl_2_color_class tl_2_tte_distr b2 = Ok r2
  \/ Loss.predict binary_crossentropy log_prob tl_2_color_class tl_2_tte_distr b1 = Ok r1
     /\ Loss.predict binary_crossentropy log_prob tl_2_color_class tl_2_tte_distr b2 = Ok r2 ->
  losses_equal r1 r2.
Proof.
  intros Hac Hat Hsc Hst Hr.
  assert ((Loss.train binary_crossentropy log_prob tl_2_color_class tl_2_tte_distr b1 = Ok r1
           \/ Loss.validate binary_crossentropy log_prob tl_2_color_class tl_2_tte_distr b1
              = Ok r1
           \/ Loss.predict binary_crossentropy log_prob tl_2_color_class tl_2_tte_distr b1
              = Ok r1)
          /\ (Loss.train binary_crossentropy log_prob tl_2_color_class tl_2_tte_distr b2 = Ok r2
              \/ Loss.validate binary_crossentropy log_prob tl_2_color_class tl_2_tte_distr b2
                 = Ok r2
              \/ Loss.predict binary_crossentropy log_prob tl_2_color_class tl_2_tte_distr b2
                 = Ok r2)) as [Hr1 Hr2] by tauto.
  destruct (step_signals _ _ _ _ Hr1) as [Hc1 Ht1].
  destruct (step_signals _ _ _ _ Hr2) as [Hc2 Ht2].
  pose proof (masked_bce_total_agree b1 b2 tl_2_color_class Hc1 Hc2 Hac Hsc) as Hb.
  pose proof (masked_log_prob_total_agree b1 b2 tl_2_tte_distr Ht1 Ht2 Hat Hst) as Ht.
  destruct (averaged_terms_agree _ _ b1 b2 r1 r2 Hac Hat Hb Ht
              (step_averaged binary_crossentropy log_prob _ _ _ _ Hr1)
              (step_averaged binary_crossentropy log_prob _ _ _ _ Hr2))
    as (Hlb & Hcb & Hlt & Hct).
  unfold losses_equal. do 4 (split; [assumption |]).
  destruct (step_loss tl_2_color_class tl_2_tte_distr b1 r1) as [Hsum1 Hhalf1].
  destruct (step_loss tl_2_color_class tl_2_tte_distr b2 r2) as [Hsum2 Hhalf2].
  destruct Hr as [[H1 H2] | [[H1 H2] | [H1 H2]]].
  - rewrite (Hsum1 (or_introl H1)), (Hsum2 (or_introl H2)), Hlb, Hlt. reflexivity.
  - rewrite (Hhalf1 H1), (Hhalf2 H2), Hlb, Hlt. reflexivity.
  - rewrite (Hsum1 (or_intror H1)), (Hsum2 (or_intror H2)), Hlb, Hlt. reflexivity.
Qed.

(** X26.  The numbers written in place of an unavailable label never
    reach a loss: on two batches with the same availability flags whose
    labels coincide wherever a flag is set, two training steps that
    return, two validation steps or two evaluations inside prediction
    give equal terms, equal counts and an equal loss.  The steps return
    on both batches when these hold the predicted signals, have labels
    the library accepts, and do not consist of a single sample. *)
Theorem losses_ignore_unavailable_labels {B : nat} (tl_2_color_class : list (nat * vec Q B))
    (tl_2_tte_distr : list (nat * vec (Q * Q) B)) (b1 b2 : Loss.batch B) :
  Loss.classes_availabilities b2 = Loss.classes_availabilities b1 ->
  Loss.tte_availabilities b2 = Loss.tte_availabilities b1 ->
  same_where_available (Loss.all_true_classes b1) (Loss.all_true_classes b2)
                       (Loss.classes_availabilities b1) tl_2_color_class ->
  same_where_available (Loss.all_tte b1) (Loss.all_tte b2)
                       (Loss.tte_availabilities b1) tl_2_tte_distr ->
  (forall r1 r2,
      Loss.train binary_crossentropy log_prob tl_2_color_class tl_2_tte_distr b1 = Ok r1
      /\ Loss.train binary_crossentropy log_prob tl_2_color_class tl_2_tte_distr b2 = Ok r2
      \/ Loss.validate binary_crossentropy log_prob tl_2_color_class tl_2_tte_distr b1 = Ok r1
         /\ Loss.validate binary_crossentropy log_prob tl_2_color_class tl_2_tte_distr b2
            = Ok r2
      \/ Loss.predict binary_crossentropy log_prob tl_2_color_class tl_2_tte_distr b1 = Ok r1
         /\ Loss.predict binary_crossentropy log_prob tl_2_color_class tl_2_tte_distr b2
            = Ok r2 ->
      losses_equal r1 r2)
  /\ (signals_in_batch (Loss.all_true_classes b1) (Loss.classes_availabilities b1)
                       tl_2_color_class ->
      signals_in_batch (Loss.all_tte b1) (Loss.tte_availabilities b1) tl_2_tte_distr ->
      signals_in_batch (Loss.all_true_classes b2) (Loss.classes_availabilities b2)
                       tl_2_color_class ->
      signals_in_batch (Loss.all_tte b2) (Loss.tte_availabilities b2) tl_2_tte_distr ->
      log_prob_returns log_prob b1 tl_2_tte_distr ->
      log_prob_returns log_prob b2 tl_2_tte_distr ->
      B <> 1%nat ->
      exists rt1 rt2 rv1 rv2 rp1 rp2,
        Loss.train binary_crossentropy log_prob tl_2_color_class tl_2_tte_distr b1 = Ok rt1
        /\ Loss.train binary_crossentropy log_prob tl_2_color_class tl_2_tte_distr b2 = Ok rt2
        /\ Loss.validate binary_crossentropy log_prob tl_2_color_class tl_2_tte_distr b1
           = Ok rv1
        /\ Loss.validate binary_crossentropy log_prob tl_2_color_class tl_2_tte_distr b2
           = Ok rv2
        /\ Loss.predict binary_crossentropy log_prob tl_2_color_class tl_2_tte_distr b1
           = Ok rp1
        /\ Loss.predict binary_crossentropy log_prob tl_2_color_class tl_2_tte_distr b2
           = Ok rp2
        /\ losses_equal rt1 rt2 /\ losses_equal rv1 rv2 /\ losses_equal rp1 rp2).
Proof.
  intros Hac Hat Hsc Hst. split.
  - intros r1 r2 Hr. exact (steps_agree _ _ b1 b2 r1 r2 Hac Hat Hsc Hst Hr).
  - intros Hc1 Ht1 Hc2 Ht2 Hret1 Hret2 HB.
    destruct (steps_return binary_crossentropy log_prob _ _ _ Hc1 Ht1 Hret1 (or_intror HB))
      as (rt1 & rv1 & rp1 & Htrain1 & Hval1 & Hpred1).
    destruct (steps_return binary_crossentropy log_prob _ _ _ Hc2 Ht2 Hret2 (or_intror HB))
      as (rt2 & rv2 & rp2 & Htrain2 & Hval2 & Hpred2).
    exists rt1, rt2, rv1, rv2, rp1, rp2. do 6 (split; [assumption |]).
    split; [| split]; apply (steps_agree _ _ b1 b2 _ _ Hac Hat Hsc Hst).
    + left. now split.
    + right. left. now split.
    + right. right. now split.
Qed.

(** X27.  A batch of a single sample does not get through any of the
    three passes once a colour is predicted: the squeezed prediction
    has lost the batch dimension and [nn.BCELoss] raises [ValueError]
    at the first signal, in the training step, the validation step and
    the evaluation inside prediction alike.  Conversely a step that
    returns was given a batch of another size, or no colour to score. *)
Theorem one_sample_batch_raises {B : nat} (tl_2_color_class : list (nat * vec Q B))
    (tl_2_tte_distr : list (nat * vec (Q * Q) B)) (b : Loss.batch B) :
  (B = 1%nat ->
   forall (tl_id : nat) (pred_color_classes : vec Q B) (rest : list (nat * vec Q B)),
     tl_2_color_class = (tl_id, pred_color_classes) :: rest ->
     is_Some (Loss.all_true_classes b !! tl_id) ->
     Loss.train binary_crossentropy log_prob tl_2_color_class tl_2_tte_distr b
     = Raise ValueError
     /\ Loss.validate binary_crossentropy log_prob tl_2_color_class tl_2_tte_distr b
        = Raise ValueError
     /\ Loss.predict binary_crossentropy log_prob tl_2_color_class tl_2_tte_distr b
        = Raise ValueError)
  /\ (forall r,
         Loss.train binary_crossentropy log_prob tl_2_color_class tl_2_tte_distr b = Ok r
         \/ Loss.validate binary_crossentropy log_prob tl_2_color_class tl_2_tte_distr b = Ok r
         \/ Loss.predict binary_crossentropy log_prob tl_2_color_class tl_2_tte_distr b = Ok r ->
         tl_2_color_class = [] \/ B <> 1%nat).
Proof.
  split.
  - intros HB tl_id pred rest -> [ys Hys].
    pose proof (bce_fold_one_sample binary_crossentropy b ((tl_id, pred) :: rest)
                  (0%Q, 0%Q) HB) as Hfold.
    cbn beta iota in Hfold. rewrite Hys in Hfold.
    unfold Loss.train, Loss.validate, Loss.predict. rewrite Hfold. cbn [py_bind].
    repeat split; reflexivity.
  - intros r Hr.
    destruct (step_folds binary_crossentropy log_prob _ _ _ _ Hr)
      as (sb & cb & st & ct & _ & _ & _ & _ & _ & _ & _ & _ & _ & _ & _ & _ & Hone).
    exact Hone.
Qed.

End LossLists.
(** ** Concrete instances of the further properties *)

Lemma three_rows_history_computed :
  compute_last_valid_idx_for_seq three_rows = Ok (tl_events_df three_rows_dataset).
Proof. vm_compute. reflexivity. Qed.

Lemma three_rows_sample_built : __getitem__ three_rows_dataset 0 = Ok three_rows_sample.
Proof. vm_compute. reflexivity. Qed.

Lemma valid_hist_len_range_witness :
  compute_last_valid_idx_for_seq three_rows = Ok (tl_events_df three_rows_dataset)
  /\ length (tl_events_df three_rows_dataset) = length three_rows
  /\ forall (i : nat) (r : row),
      three_rows !! i = Some r ->
      exists r',
        tl_events_df three_rows_dataset !! i = Some r'
        /\ same_but_valid_hist_len r r'
        /\ 0 <= valid_hist_len r' <= HIST_LEN_FRAMES - 1
        /\ (valid_hist_len r' = 0 <-> continuous_time r' = false).
Proof.
  split; [exact three_rows_history_computed |].
  exact (valid_hist_len_range three_rows (tl_events_df three_rows_dataset)
           three_rows_history_computed).
Defined.

Lemma sample_shape_witness :
  __getitem__ three_rows_dataset 0 = Ok three_rows_sample
  /\ 1 <= seq_len three_rows_sample <= history_events_max three_rows_dataset
  /\ len (tokens_np three_rows_sample) = history_events_max three_rows_dataset
  /\ len (token_type_ohe_np three_rows_sample) = history_events_max three_rows_dataset
  /\ len (token_timesteps_np three_rows_sample) = history_events_max three_rows_dataset
  /\ drop (Z.to_nat (seq_len three_rows_sample)) (tokens_np three_rows_sample)
     = repeat (PAD_TOKEN_IDX three_rows_dataset)
              (Z.to_nat (history_events_max three_rows_dataset - seq_len three_rows_sample))
  /\ drop (Z.to_nat (seq_len three_rows_sample)) (token_type_ohe_np three_rows_sample)
     = repeat (0, 0, 0, 0)
              (Z.to_nat (history_events_max three_rows_dataset - seq_len three_rows_sample))
  /\ drop (Z.to_nat (seq_len three_rows_sample)) (token_timesteps_np three_rows_sample)
     = repeat 0%Q
              (Z.to_nat (history_events_max three_rows_dataset - seq_len three_rows_sample)).
Proof.
  split; [exact three_rows_sample_built |].
  exact (sample_shape three_rows_dataset 0 three_rows_sample three_rows_sample_built).
Defined.

Lemma empty_window_raises_witness :
  iloc (valid_indices empty_frame_dataset) 0 = Ok 0
  /\ iloc (map valid_hist_len (tl_events_df empty_frame_dataset)) 0 = Ok 0
  /\ Forall (fun frame => frame = [])
            (iloc_slice (map rnn_inputs_raw (tl_events_df empty_frame_dataset))
                        (0 - Z.min (history_len_records empty_frame_dataset) 0) (0 + 1))
  /\ __getitem__ empty_frame_dataset 0 = Raise ValueError.
Proof.
  assert (iloc (valid_indices empty_frame_dataset) 0 = Ok 0) as H1 by (vm_compute; reflexivity).
  assert (iloc (map valid_hist_len (tl_events_df empty_frame_dataset)) 0 = Ok 0) as H2
      by (vm_compute; reflexivity).
  assert (Forall (fun frame : list (string * token_type) => frame = [])
            (iloc_slice (map rnn_inputs_raw (tl_events_df empty_frame_dataset))
                        (0 - Z.min (history_len_records empty_frame_dataset) 0) (0 + 1))) as H3.
  { vm_compute. constructor; [reflexivity | constructor]. }
  do 3 (split; [assumption |]).
  exact (empty_window_raises empty_frame_dataset 0 0 0 H1 H2 H3).
Defined.

Lemma sample_labels_witness :
  __getitem__ three_rows_dataset 0 = Ok three_rows_sample
  /\ exists (row_i : Z) (kc kt : gmap nat Q),
    iloc (valid_indices three_rows_dataset) 0 = Ok row_i
    /\ iloc (map tl_signal_classes (tl_events_df three_rows_dataset)) row_i = Ok kc
    /\ iloc (map time_to_tl_change (tl_events_df three_rows_dataset)) row_i = Ok kt
    /\ map fst (all_true_classes three_rows_sample) = tl_signal_indices three_rows_dataset
    /\ map fst (classes_availabilities three_rows_sample) = tl_signal_indices three_rows_dataset
    /\ map fst (all_tte three_rows_sample) = tl_signal_indices three_rows_dataset
    /\ map fst (tte_availabilities three_rows_sample) = tl_signal_indices three_rows_dataset
    /\ forall (k : nat) (tl_id : nat),
        tl_signal_indices three_rows_dataset !! k = Some tl_id ->
        exists (c t : Q) (a b : bool),
          all_true_classes three_rows_sample !! k = Some (tl_id, c)
          /\ classes_availabilities three_rows_sample !! k = Some (tl_id, a)
          /\ all_tte three_rows_sample !! k = Some (tl_id, t)
          /\ tte_availabilities three_rows_sample !! k = Some (tl_id, b)
          /\ (if a then kc !! tl_id = Some c else kc !! tl_id = None /\ c = 0%Q)
          /\ (if b then kt !! tl_id = Some t else kt !! tl_id = None /\ t = 99%Q).
Proof.
  split; [exact three_rows_sample_built |].
  exact (sample_labels three_rows_dataset 0 three_rows_sample three_rows_sample_built).
Defined.

Lemma unlabelled_batch_classes :
  signals_in_batch (Loss.all_true_classes unlabelled_batch)
                   (Loss.classes_availabilities unlabelled_batch) example_colors.
Proof.
  intros item [<- | [<- | []]]; split; eexists; vm_compute; reflexivity.
Qed.

Lemma unlabelled_batch_tte :
  signals_in_batch (Loss.all_tte unlabelled_batch)
                   (Loss.tte_availabilities unlabelled_batch) example_distrs.
Proof.
  intros item [<- | [<- | []]]; split; eexists; vm_compute; reflexivity.
Qed.

Lemma other_sentinels_classes :
  signals_in_batch (Loss.all_true_classes example_batch_other_sentinels)
                   (Loss.classes_availabilities example_batch_other_sentinels) example_colors.
Proof.
  intros item [<- | [<- | []]]; split; eexists; vm_compute; reflexivity.
Qed.

Lemma other_sentinels_tte :
  signals_in_batch (Loss.all_tte example_batch_other_sentinels)
                   (Loss.tte_availabilities example_batch_other_sentinels) example_distrs.
Proof.
  intros item [<- | [<- | []]]; split; eexists; vm_compute; reflexivity.
Qed.

Lemma other_sentinels_same_classes :
  same_where_available (Loss.all_true_classes example_batch)
                       (Loss.all_true_classes example_batch_other_sentinels)
                       (Loss.classes_availabilities example_batch) example_colors.
Proof.
  intros item i y1 y2 [<- | [<- | []]]; destruct i as [| [| i]]; vm_compute; congruence.
Qed.

Lemma other_sentinels_same_tte :
  same_where_available (Loss.all_tte example_batch)
                       (Loss.all_tte example_batch_other_sentinels)
                       (Loss.tte_availabilities example_batch) example_distrs.
Proof.
  intros item i y1 y2 [<- | [<- | []]]; destruct i as [| [| i]]; vm_compute; congruence.
Qed.

Lemma example_batches_pass : Forall (batch_passes example_log_prob) example_dataloader_val.
Proof.
  unfold example_dataloader_val.
  constructor.
  { split; [exact example_batch_classes |]. split; [exact example_batch_tte |].
    split; [apply example_log_prob_returns | discriminate]. }
  constructor; [| constructor].
  split; [exact unlabelled_batch_classes |]. split; [exact unlabelled_batch_tte |].
  split; [apply example_log_prob_returns | discriminate].
Qed.

Lemma validation_lists_count_labelled_batches_witness :
  Forall (batch_passes example_log_prob) example_dataloader_val
  /\ exists lists,
    validation_losses example_bce example_log_prob example_dataloader_val = Ok lists
    /\ length (losses_all lists)
       = length (List.filter (fun pb => has_class_label pb || has_tte_label pb)
                             example_dataloader_val)
    /\ length (losses_lob_prob lists)
       = length (List.filter has_tte_label example_dataloader_val)
    /\ length (losses_bce lists)
       = length (List.filter has_class_label example_dataloader_val)
    /\ loss_val_mean example_bce example_log_prob example_dataloader_val
       = Ok (np_mean (losses_all lists))
    /\ (np_mean (losses_all lists) = NaN <->
        Forall (fun pb => has_class_label pb = false /\ has_tte_label pb = false)
               example_dataloader_val)
    /\ (np_mean (losses_all lists) = NaN ->
        loss_val_mean_is_zero example_bce example_log_prob example_dataloader_val = Ok false).
Proof.
  split; [exact example_batches_pass |].
  destruct (validation_lists_count_labelled_batches example_bce example_log_prob
              example_dataloader_val) as [Hinv Hret].
  destruct (Hret example_batches_pass) as [lists Hlists].
  exists lists. split; [exact Hlists | exact (Hinv lists Hlists)].
Defined.


Lemma losses_ignore_unavailable_labels_witness :
  Loss.classes_availabilities example_batch_other_sentinels
  = Loss.classes_availabilities example_batch
  /\ Loss.tte_availabilities example_batch_other_sentinels
     = Loss.tte_availabilities example_batch
  /\ same_where_available (Loss.all_true_classes example_batch)
                          (Loss.all_true_classes example_batch_other_sentinels)
                          (Loss.classes_availabilities example_batch) example_colors
  /\ same_where_available (Loss.all_tte example_batch)
                          (Loss.all_tte example_batch_other_sentinels)
                          (Loss.tte_availabilities example_batch) example_distrs
  /\ exists rt1 rt2 rv1 rv2 rp1 rp2,
    Loss.train example_bce example_log_prob example_colors example_distrs example_batch
    = Ok rt1
    /\ Loss.train example_bce example_log_prob example_colors example_distrs
                  example_batch_other_sentinels = Ok rt2
    /\ Loss.validate example_bce example_log_prob example_colors example_distrs example_batch
       = Ok rv1
    /\ Loss.validate example_bce example_log_prob example_colors example_distrs
                     example_batch_other_sentinels = Ok rv2
    /\ Loss.predict example_bce example_log_prob example_colors example_distrs example_batch
       = Ok rp1
    /\ Loss.predict example_bce example_log_prob example_colors example_distrs
                    example_batch_other_sentinels = Ok rp2
    /\ losses_equal rt1 rt2 /\ losses_equal rv1 rv2 /\ losses_equal rp1 rp2.
Proof.
  split; [reflexivity |]. split; [reflexivity |].
  split; [exact other_sentinels_same_classes |]. split; [exact other_sentinels_same_tte |].
  exact (proj2 (losses_ignore_unavailable_labels example_bce example_log_prob
                  example_colors example_distrs example_batch example_batch_other_sentinels
                  eq_refl eq_refl other_sentinels_same_classes other_sentinels_same_tte)
               example_batch_classes example_batch_tte
               other_sentinels_classes other_sentinels_tte
               (example_log_prob_returns example_batch example_distrs)
               (example_log_prob_returns example_batch_other_sentinels example_distrs)
               ltac:(discriminate)).
Defined.

Lemma one_sample_batch_raises_witness :
  Loss.train example_bce example_log_prob one_sample_colors one_sample_distrs one_sample_batch
  = Raise ValueError
  /\ Loss.validate example_bce example_log_prob one_sample_colors one_sample_distrs
                   one_sample_batch
     = Raise ValueError
  /\ Loss.predict example_bce example_log_prob one_sample_colors one_sample_distrs
                  one_sample_batch
     = Raise ValueError.
Proof.
  apply (proj1 (one_sample_batch_raises example_bce example_log_prob
                  one_sample_colors one_sample_distrs one_sample_batch)
               eq_refl 7%nat [# (9 # 10)%Q] [] eq_refl).
  eexists. vm_compute. reflexivity.
Defined.
